(** * tsh: a tiny shell with job control -- job table and signal relay

    Shallow embedding of [tsh.c].  The global array [jobs[MAXJOBS]] is a
    list of [job_t] records updated by index, and the loops over its slots
    are searches for the first slot with a property; a [struct job_t *] is
    the index of the slot it points to, so that a read through a pointer
    after the slot was cleared sees the cleared slot.  Integers ([pid_t],
    [int]) are [Z]; the code does no arithmetic on them apart from the
    negation in [kill(-pid, sig)].  Console output and system calls are
    collected in a trace of events; what the system returns ([fork],
    [kill], [waitpid]) is an argument of the function that makes the call.
    The shell as a whole is a transition relation: the main control flow,
    cut where a signal handler can run in between, and the handlers. *)

From Stdlib Require Import ZArith Lia Ascii String.
From stdpp Require Import base list strings pretty relations.

Local Open Scope string_scope.
Local Open Scope list_scope.
Local Open Scope Z_scope.

(** ** Manifest constants *)

Definition MAXLINE : Z := 1024.
Definition MAXJOBS : nat := 16.

(** Job states *)
Definition UNDEF : Z := 0.
Definition FG : Z := 1.
Definition BG : Z := 2.
Definition ST : Z := 3.

(** ** The job table *)

Record job_t := Job {
  pid : Z;
  jid : Z;
  state : Z;
  cmdline : string
}.

Definition set_state (s : Z) (j : job_t) : job_t :=
  {| pid := pid j; jid := jid j; state := s; cmdline := cmdline j |}.

(** [clearjob]: the cleared slot. *)
Definition clearjob : job_t :=
  {| pid := 0; jid := 0; state := UNDEF; cmdline := "" |}.

(** [initjobs]: every slot cleared. *)
Definition initjobs : list job_t := replicate MAXJOBS clearjob.

(** [taken[i] = 1] for the local array of [freejid].  An index outside the
    array is undefined behaviour in C; here it leaves the array as it is. *)
Definition mark (taken : list bool) (i : Z) : list bool :=
  if bool_decide (0 <= i) then <[Z.to_nat i := true]> taken else taken.

(** First loop of [freejid]: record the job ids that occur in the table. *)
Definition mark_job (taken : list bool) (j : job_t) : list bool :=
  if jid j =? 0 then taken else mark taken (jid j).

Definition mark_taken (jobs : list job_t) : list bool :=
  foldl mark_job (replicate (S MAXJOBS) false) jobs.

(** Second loop of [freejid]: [n] iterations starting at index [i]. *)
Fixpoint first_free (taken : list bool) (i : nat) (n : nat) : Z :=
  match n with
  | O => 0
  | S n' =>
      match taken !! i with
      | Some false => Z.of_nat i
      | _ => first_free taken (S i) n'
      end
  end.

(** [freejid]: smallest free job id, 0 if there is none. *)
Definition freejid (jobs : list job_t) : Z :=
  first_free (mark_taken jobs) 1 MAXJOBS.

(** Trace of what the shell does to the outside world. *)
Inductive event :=
  | Printf (s : string)
  | Kill (target : Z) (sig : Z)
  | Sigprocmask (how : Z) (set : Z)
  | UnixError (msg : string).

Definition nl : string := String "010"%char "".

Definition fmt_d (z : Z) : string := pretty z.

(** [addjob]: returns the [int] result, the table and what was printed. *)
Definition addjob (verbose : bool) (jobs : list job_t)
    (p : Z) (st : Z) (cmd : string) : Z * list job_t * list event :=
  if p <? 1 then (0, jobs, [])
  else
    let free := freejid jobs in
    if free =? 0 then
      (0, jobs, [Printf ("Tried to create too many jobs" +:+ nl)])
    else
      match list_find (fun j => pid j = 0) jobs with
      | Some (i, _) =>
          let j := {| pid := p; jid := free; state := st; cmdline := cmd |} in
          (1, <[i := j]> jobs,
           if verbose then
             [Printf ("Added job [" +:+ fmt_d (jid j) +:+ "] " +:+
                      fmt_d (pid j) +:+ " " +:+ cmdline j +:+ nl)]
           else [])
      | None => (0, jobs, [])
      end.

(** A [struct job_t *] into the table: the index of the slot.  Reading a
    field through the pointer reads the table as it is at that moment. *)
Definition deref (jobs : list job_t) (job : nat) : job_t :=
  default clearjob (jobs !! job).

(** [deletejob]: clears the first slot whose pid is [p]. *)
Definition deletejob (jobs : list job_t) (p : Z) : Z * list job_t :=
  if p <? 1 then (0, jobs)
  else
    match list_find (fun j => pid j = p) jobs with
    | Some (i, _) => (1, <[i := clearjob]> jobs)
    | None => (0, jobs)
    end.

(** [fgpid]: pid of the first slot in state [FG], 0 if there is none. *)
Definition fgpid (jobs : list job_t) : Z :=
  match list_find (fun j => state j = FG) jobs with
  | Some (_, j) => pid j
  | None => 0
  end.

(** [getjobpid]: pointer to the first slot with that pid; [None] is NULL. *)
Definition getjobpid (jobs : list job_t) (p : Z) : option nat :=
  if p <? 1 then None
  else fst <$> list_find (fun j => pid j = p) jobs.

(** [getjobjid]: pointer to the first slot with that job id. *)
Definition getjobjid (jobs : list job_t) (n : Z) : option nat :=
  if n <? 1 then None
  else fst <$> list_find (fun j => jid j = n) jobs.

(** [pid2jid]: job id of the first slot with that pid, 0 if none. *)
Definition pid2jid (jobs : list job_t) (p : Z) : Z :=
  if p <? 1 then 0
  else
    match list_find (fun j => pid j = p) jobs with
    | Some (_, j) => jid j
    | None => 0
    end.

(** What the [switch] of [listjobs] prints for the state [s] of slot [i]. *)
Definition state_text (i : nat) (s : Z) : string :=
  if s =? BG then "Running "
  else if s =? FG then "Foreground "
  else if s =? ST then "Stopped "
  else "listjobs: Internal error: job[" +:+ fmt_d (Z.of_nat i) +:+
       "].state=" +:+ fmt_d s +:+ " ".

(** [listjobs]: one line per slot with a nonzero pid, in slot order. *)
Definition listjobs_slot (i : nat) (j : job_t) : list event :=
  if pid j =? 0 then []
  else
    [Printf ("[" +:+ fmt_d (jid j) +:+ "] (" +:+ fmt_d (pid j) +:+ ") ");
     Printf (state_text i (state j));
     Printf (cmdline j)].

Definition listjobs (jobs : list job_t) : list event :=
  concat (imap listjobs_slot jobs).

(** ** Signals and wait statuses (Linux numbering and encoding) *)

Definition SIGINT : Z := 2.
Definition SIGCHLD : Z := 17.
Definition SIGCONT : Z := 18.
Definition SIGTSTP : Z := 20.

Definition SIG_BLOCK : Z := 0.
Definition SIG_UNBLOCK : Z := 1.
Definition SIG_SETMASK : Z := 2.

(** A [sigset_t] is a bit mask, signal [s] at bit [s - 1]. *)
Definition sigemptyset : Z := 0.
Definition sigfillset : Z := Z.ones 64.
Definition sigaddset (set sig : Z) : Z := Z.lor set (Z.shiftl 1 (sig - 1)).
Definition sigismember (set sig : Z) : bool := Z.testbit set (sig - 1).

(** The blocked set after [sigprocmask(how, &set, _)]. *)
Definition sigprocmask (how set blocked : Z) : Z :=
  if how =? SIG_BLOCK then Z.lor blocked set
  else if how =? SIG_UNBLOCK then Z.ldiff blocked set
  else if how =? SIG_SETMASK then set
  else blocked.

Definition signed_char (z : Z) : Z :=
  let w := z mod 256 in if w <? 128 then w else w - 256.

Definition WTERMSIG (status : Z) : Z := Z.land status 127.
Definition WEXITSTATUS (status : Z) : Z := Z.shiftr (Z.land status 65280) 8.
Definition WSTOPSIG (status : Z) : Z := WEXITSTATUS status.
Definition WIFEXITED (status : Z) : bool := WTERMSIG status =? 0.
Definition WIFSIGNALED (status : Z) : bool :=
  0 <? Z.shiftr (signed_char (Z.land status 127 + 1)) 1.
Definition WIFSTOPPED (status : Z) : bool := Z.land status 255 =? 127.
Definition WIFCONTINUED (status : Z) : bool := status =? 65535.

(** ** The signal handlers *)

(** The anomaly line for a pid that has no job. *)
Definition notice_no_job (p : Z) : event :=
  Printf ("sigchld_handler: No job found for PID " +:+ fmt_d p +:+ nl).

(** Body of the reaping loop of [sigchld_handler] for one result
    [(p, status)] of [waitpid].  [job] stays a pointer into the table: in
    the exit branch its [jid] is read after [deletejob] has run. *)
Definition sigchld_reap (jobs : list job_t) (p status : Z)
    : list job_t * list event :=
  match getjobpid jobs p with
  | None => (jobs, [notice_no_job p])
  | Some job =>
      if WIFEXITED status then
        let jobs' := snd (deletejob jobs p) in
        (jobs', [Printf ("Job [" +:+ fmt_d (jid (deref jobs' job)) +:+ "] (" +:+
                         fmt_d p +:+ ") exited with status " +:+
                         fmt_d (WEXITSTATUS status) +:+ nl)])
      else if WIFSIGNALED status then
        (snd (deletejob jobs p),
         [Printf ("Job [" +:+ fmt_d (jid (deref jobs job)) +:+ "] (" +:+
                  fmt_d p +:+ ") terminated by signal " +:+
                  fmt_d (WTERMSIG status) +:+ nl)])
      else if WIFSTOPPED status then
        let jobs' := alter (set_state ST) job jobs in
        (jobs', [Printf ("Job [" +:+ fmt_d (jid (deref jobs' job)) +:+ "] (" +:+
                         fmt_d p +:+ ") stopped by signal " +:+
                         fmt_d (WSTOPSIG status) +:+ nl)])
      else if WIFCONTINUED status then
        let jobs' := alter (set_state BG) job jobs in
        (jobs', [Printf ("Job [" +:+ fmt_d (jid (deref jobs' job)) +:+ "] (" +:+
                         fmt_d p +:+ ") continued" +:+ nl)])
      else (jobs, [])
  end.

(** The loop [while ((pid = waitpid(-1, &status, ...)) > 0)].  [ws] lists
    the results of the successive [waitpid] calls; the loop ends at the
    first one whose pid is not positive, and the end of the list stands for
    such a result. *)
Fixpoint sigchld_loop (ws : list (Z * Z)) (jobs : list job_t)
    : list job_t * list event :=
  match ws with
  | [] => (jobs, [])
  | (p, status) :: ws' =>
      if 0 <? p then
        let '(jobs1, out1) := sigchld_reap jobs p status in
        let '(jobs2, out2) := sigchld_loop ws' jobs1 in
        (jobs2, out1 ++ out2)
      else (jobs, [])
  end.

(** [sigchld_handler], run with [blocked] as the signal mask on entry. *)
Definition sigchld_handler (ws : list (Z * Z)) (blocked : Z)
    (jobs : list job_t) : list job_t * list event :=
  let mask_all := sigfillset in
  let prev_all := blocked in
  let '(jobs', out) := sigchld_loop ws jobs in
  (jobs', Sigprocmask SIG_BLOCK mask_all :: out ++
          [Sigprocmask SIG_SETMASK prev_all]).

Definition sigint_handler (jobs : list job_t) : list job_t * list event :=
  let fg_pid := fgpid jobs in
  if fg_pid =? 0 then (jobs, [])
  else (jobs, [Kill (- fg_pid) SIGINT]).

Definition sigtstp_handler (jobs : list job_t) : list job_t * list event :=
  let fg_pid := fgpid jobs in
  if fg_pid =? 0 then (jobs, [])
  else
    match getjobpid jobs fg_pid with
    | Some job =>
        (alter (set_state ST) job jobs, [Kill (- fg_pid) SIGTSTP])
    | None => (jobs, [Kill (- fg_pid) SIGTSTP])
    end.

(** ** Command-line parsing *)

(** The first character of a C string, the terminating NUL for the empty
    string, and the text after the first character. *)
Definition first_char (s : string) : ascii :=
  match s with
  | String c _ => c
  | "" => "000"%char
  end.

Definition string_tail (s : string) : string :=
  match s with
  | String _ s' => s'
  | "" => ""
  end.

(** [buf[strlen(buf)-1] = ' '] *)
Fixpoint replace_last (s : string) : string :=
  match s with
  | "" => ""
  | String c "" => " "
  | String c s' => String c (replace_last s')
  end.

(** The loops that step over the spaces in front of an argument. *)
Fixpoint skip_spaces (s : string) : string :=
  match s with
  | String c s' => if Ascii.eqb c " " then skip_spaces s' else s
  | "" => ""
  end.

(** [strchr(buf, c)] followed by [*delim = '\0']: the text before the
    first [c] and the text after it; [None] when [c] does not occur. *)
Fixpoint strchr_split (c : ascii) (s : string) : option (string * string) :=
  match s with
  | "" => None
  | String d s' =>
      if Ascii.eqb d c then Some ("", s')
      else
        match strchr_split c s' with
        | Some (tok, rest) => Some (String d tok, rest)
        | None => None
        end
  end.

(** The loop of [parseline]; every iteration consumes its delimiter, so
    the length of the buffer bounds the number of iterations. *)
Fixpoint parse_args (fuel : nat) (buf : string) : list string :=
  match fuel with
  | O => []
  | S fuel' =>
      let buf := skip_spaces buf in
      let found :=
        if Ascii.eqb (first_char buf) "'" then
          strchr_split "'" (string_tail buf)
        else strchr_split " " buf in
      match found with
      | Some (tok, rest) => tok :: parse_args fuel' rest
      | None => []
      end
  end.

(** [parseline]: the argument vector; its length is the returned [argc]. *)
Definition parseline (cmdline : string) : list string :=
  parse_args (String.length cmdline) (replace_last cmdline).

(** ** [atoi], as the C library computes it: [(int) strtol(s, NULL, 10)] *)

Definition isspace (c : ascii) : bool :=
  let n := Z.of_nat (nat_of_ascii c) in
  (n =? 32) || ((9 <=? n) && (n <=? 13)).

Definition digit_val (c : ascii) : option Z :=
  let n := Z.of_nat (nat_of_ascii c) in
  if (48 <=? n) && (n <=? 57) then Some (n - 48) else None.

Fixpoint skip_isspace (s : string) : string :=
  match s with
  | String c s' => if isspace c then skip_isspace s' else s
  | "" => ""
  end.

Fixpoint strtol_digits (acc : Z) (s : string) : Z :=
  match s with
  | String c s' =>
      match digit_val c with
      | Some d => strtol_digits (10 * acc + d) s'
      | None => acc
      end
  | "" => acc
  end.

Definition LONG_MAX : Z := 2 ^ 63 - 1.
Definition LONG_MIN : Z := - 2 ^ 63.

Definition strtol (s : string) : Z :=
  let v :=
    match skip_isspace s with
    | String "-" r => - strtol_digits 0 r
    | String "+" r => strtol_digits 0 r
    | r => strtol_digits 0 r
    end in
  Z.max LONG_MIN (Z.min LONG_MAX v).

(** Conversion of a [long] to [int]: wrap-around modulo 2^32. *)
Definition to_int (z : Z) : Z :=
  let w := z mod 2 ^ 32 in if w <? 2 ^ 31 then w else w - 2 ^ 32.

Definition atoi (s : string) : Z := to_int (strtol s).

(** ** [waitfg] *)

(** How a call ends: it returns, the process exits, or it stays blocked in
    a system call for which no further result is supplied. *)
Inductive outcome :=
  | Returned
  | Exited (code : Z)
  | Blocked.

(** One iteration of the loop of [waitfg], [(wpid, status)] being the
    result of [waitpid(pid, &status, WUNTRACED)]; [None] loops again. *)
Definition waitfg_body (p wpid status : Z) (jobs : list job_t)
    : option outcome * list job_t * list event :=
  if wpid <? 0 then
    (Some (Exited 1), jobs, [UnixError "waitfg: waitpid error"])
  else
    match getjobpid jobs p with
    | None =>
        (Some Returned, jobs,
         [Printf ("waitfg: No job found for PID " +:+ fmt_d p +:+ nl)])
    | Some job =>
        if WIFSTOPPED status then
          let jobs' := alter (set_state ST) job jobs in
          (Some Returned, jobs',
           [Printf ("Job [" +:+ fmt_d (jid (deref jobs' job)) +:+ "] (" +:+
                    fmt_d p +:+ ") stopped by signal " +:+
                    fmt_d (WSTOPSIG status) +:+ nl)])
        else if WIFSIGNALED status then
          (Some Returned, snd (deletejob jobs p),
           [Printf ("Job [" +:+ fmt_d (jid (deref jobs job)) +:+ "] (" +:+
                    fmt_d p +:+ ") terminated by signal " +:+
                    fmt_d (WTERMSIG status) +:+ nl)])
        else if WIFEXITED status then
          (Some Returned, snd (deletejob jobs p), [])
        else (None, jobs, [])
    end.

Fixpoint waitfg_loop (p : Z) (ws : list (Z * Z)) (jobs : list job_t)
    : outcome * list job_t * list event :=
  match ws with
  | [] => (Blocked, jobs, [])
  | (wpid, status) :: ws' =>
      match waitfg_body p wpid status jobs with
      | (Some o, jobs', out) => (o, jobs', out)
      | (None, jobs', out) =>
          let '(o, jobs'', out') := waitfg_loop p ws' jobs' in
          (o, jobs'', out ++ out')
      end
  end.

Definition waitfg_invalid : list event :=
  [Printf ("waitfg: Invalid PID" +:+ nl)].

(** [waitfg] with no signal handler running in between. *)
Definition waitfg (p : Z) (ws : list (Z * Z)) (jobs : list job_t)
    : outcome * list job_t * list event :=
  if p <? 1 then (Returned, jobs, waitfg_invalid)
  else waitfg_loop p ws jobs.

(** ** [do_bgfg] *)

(** Lines 261-290: argument validation and job lookup.  A rejection
    carries the text printed before [return]. *)
Inductive bgfg_lookup :=
  | Rejected (msg : string)
  | Resolved (job : nat) (p : Z).

Definition do_bgfg_lookup (argv0 : string) (args : list string)
    (jobs : list job_t) : bgfg_lookup :=
  match args with
  | [] =>
      Rejected (argv0 +:+ " command requires PID or %jobid argument" +:+ nl)
  | argv1 :: _ =>
      if Ascii.eqb (first_char argv1) "%" then
        let n := atoi (string_tail argv1) in
        if n <=? 0 then
          Rejected (argv0 +:+ ": argument must be a positive integer" +:+ nl)
        else
          match getjobjid jobs n with
          | None => Rejected (argv1 +:+ ": No such job" +:+ nl)
          | Some job => Resolved job (pid (deref jobs job))
          end
      else
        let p := atoi argv1 in
        if p <=? 0 then
          Rejected (argv0 +:+ ": argument must be a PID or %jobid" +:+ nl)
        else
          match getjobpid jobs p with
          | None => Rejected ("(" +:+ fmt_d p +:+ "): No such process" +:+ nl)
          | Some job => Resolved job p
          end
  end.

(** Lines 298-304: the state change through the pointer [job]; the third
    component is the argument of the call to [waitfg], if it is made. *)
Definition do_bgfg_setstate (argv0 : string) (job : nat) (jobs : list job_t)
    : list job_t * list event * option Z :=
  if String.eqb argv0 "bg" then
    let jobs' := alter (set_state BG) job jobs in
    let j := deref jobs' job in
    (jobs', [Printf ("[" +:+ fmt_d (jid j) +:+ "] (" +:+ fmt_d (pid j) +:+
                     ") " +:+ cmdline j)], None)
  else if String.eqb argv0 "fg" then
    let jobs' := alter (set_state FG) job jobs in
    (jobs', [], Some (pid (deref jobs' job)))
  else (jobs, [], None).

(** [do_bgfg] with no signal handler running in between: [kill_ret] is what
    [kill(-pid, SIGCONT)] returns, [ws] what the [waitpid] calls return. *)
Definition do_bgfg (argv0 : string) (args : list string) (kill_ret : Z)
    (ws : list (Z * Z)) (jobs : list job_t)
    : outcome * list job_t * list event :=
  match do_bgfg_lookup argv0 args jobs with
  | Rejected msg => (Returned, jobs, [Printf msg])
  | Resolved job p =>
      if kill_ret <? 0 then
        (Exited 1, jobs, [Kill (- p) SIGCONT; UnixError "kill error"])
      else
        match do_bgfg_setstate argv0 job jobs with
        | (jobs', out, None) => (Returned, jobs', Kill (- p) SIGCONT :: out)
        | (jobs', out, Some w) =>
            let '(o, jobs'', out') := waitfg w ws jobs' in
            (o, jobs'', Kill (- p) SIGCONT :: out ++ out')
        end
  end.

(** No live job of the table (a slot with a pid other than 0) holds the
    pid [p]. *)
Definition pid_unused (jobs : list job_t) (p : Z) : bool :=
  forallb (fun j => (pid j =? 0) || negb (pid j =? p)) jobs.

(** ** The shell process: main control flow interleaved with handlers *)

(** The points of one iteration of the loop of [listjobs], each in front
    of a read of the slot: the test of the pid, the [printf] of job id and
    pid, the [switch] on the state, the [printf] of the command line. *)
Inductive listjobs_point :=
  | AtPid
  | AtHead
  | AtState
  | AtCmdline.

(** Where the main control flow stands between two transitions.  The
    points inside [listjobs] and [do_bgfg] are kept apart because
    [builtin_cmd] runs before [eval] blocks any signal: a handler may run
    between two reads of a slot by [listjobs], between the lookup by job
    id and the read of [job->pid], and between the job lookup and the
    state change. *)
Inductive pc :=
  | Prompt
  | Listjobs (i : nat) (point : listjobs_point)
  | BgfgPid (argv0 : string) (job : nat)
  | BgfgKill (argv0 : string) (job : nat) (p : Z)
  | BgfgState (argv0 : string) (job : nat)
  | Waitfg (p : Z) (from_eval : bool)
  | Halted (code : Z).

Record shell := Shell {
  tbl : list job_t;
  blocked : Z;
  at_pc : pc;
  trace : list event
}.

Definition boot : shell :=
  {| tbl := initjobs; blocked := sigemptyset; at_pc := Prompt; trace := [] |}.

(** The set blocked by [eval] around [fork] and [addjob]. *)
Definition eval_mask : Z :=
  sigaddset (sigaddset (sigaddset sigemptyset SIGCHLD) SIGINT) SIGTSTP.

(** [argv[1][0] == '%']: the job is named by its job id. *)
Definition by_jobid (args : list string) : bool :=
  match args with
  | argv1 :: _ => Ascii.eqb (first_char argv1) "%"
  | [] => false
  end.

(** [eval] (with [builtin_cmd]) up to the point where it returns, exits,
    enters the loop of [listjobs], enters [do_bgfg] past the lookup, or
    blocks in [waitfg].  [child] is what [fork] returns in the parent,
    when it is called.  [bg] is what [parseline] returns, the argument
    count.  In [do_bgfg], a pid given on the command line is known at the
    lookup; for a job id, [job->pid] is read at the next point. *)
Definition eval (verbose : bool) (cmdline : string) (child : Z) (sh : shell)
    : shell :=
  match parseline cmdline with
  | [] => sh
  | argv0 :: args =>
      let bg := Z.of_nat (length (argv0 :: args)) in
      if String.eqb argv0 "quit" then
        Shell (tbl sh) (blocked sh) (Halted 0) (trace sh)
      else if String.eqb argv0 "jobs" then
        Shell (tbl sh) (blocked sh) (Listjobs 0 AtPid) (trace sh)
      else if String.eqb argv0 "bg" || String.eqb argv0 "fg" then
        match do_bgfg_lookup argv0 args (tbl sh) with
        | Rejected msg =>
            Shell (tbl sh) (blocked sh) Prompt (trace sh ++ [Printf msg])
        | Resolved job p =>
            if by_jobid args then
              Shell (tbl sh) (blocked sh) (BgfgPid argv0 job) (trace sh)
            else Shell (tbl sh) (blocked sh) (BgfgKill argv0 job p) (trace sh)
        end
      else
        let blocked1 := sigprocmask SIG_BLOCK eval_mask (blocked sh) in
        let blocked2 := sigprocmask SIG_UNBLOCK eval_mask blocked1 in
        let '(_, jobs1, out1) :=
          addjob verbose (tbl sh) child (if bg =? 0 then FG else BG) cmdline in
        let out := trace sh ++ Sigprocmask SIG_BLOCK eval_mask :: out1 in
        if bg =? 0 then
          if child <? 1 then
            Shell jobs1 blocked2 Prompt
              (out ++ waitfg_invalid ++ [Sigprocmask SIG_UNBLOCK eval_mask])
          else Shell jobs1 blocked1 (Waitfg child true) out
        else
          Shell jobs1 blocked2 Prompt
            (out ++ [Printf ("[" +:+ fmt_d (pid2jid jobs1 child) +:+ "] (" +:+
                             fmt_d child +:+ ") " +:+ cmdline);
                     Sigprocmask SIG_UNBLOCK eval_mask])
  end.

(** One read of slot [i] by [listjobs] and what follows it up to the next
    read; past the last slot, [listjobs], [builtin_cmd] and [eval] return. *)
Definition listjobs_step (i : nat) (point : listjobs_point) (sh : shell)
    : shell :=
  let j := deref (tbl sh) i in
  match point with
  | AtPid =>
      if Nat.ltb i MAXJOBS then
        if pid j =? 0 then
          Shell (tbl sh) (blocked sh) (Listjobs (S i) AtPid) (trace sh)
        else Shell (tbl sh) (blocked sh) (Listjobs i AtHead) (trace sh)
      else Shell (tbl sh) (blocked sh) Prompt (trace sh)
  | AtHead =>
      Shell (tbl sh) (blocked sh) (Listjobs i AtState)
        (trace sh ++
         [Printf ("[" +:+ fmt_d (jid j) +:+ "] (" +:+ fmt_d (pid j) +:+ ") ")])
  | AtState =>
      Shell (tbl sh) (blocked sh) (Listjobs i AtCmdline)
        (trace sh ++ [Printf (state_text i (state j))])
  | AtCmdline =>
      Shell (tbl sh) (blocked sh) (Listjobs (S i) AtPid)
        (trace sh ++ [Printf (cmdline j)])
  end.

(** The transitions of [listjobs] taken one after the other with no
    handler in between, [fuel] of them at most. *)
Fixpoint listjobs_run (fuel : nat) (sh : shell) : shell :=
  match fuel with
  | O => sh
  | S fuel' =>
      match at_pc sh with
      | Listjobs i point => listjobs_run fuel' (listjobs_step i point sh)
      | _ => sh
      end
  end.

(** Line 278: [pid = job->pid], read through the pointer that [getjobjid]
    returned. *)
Definition bgfg_pid (argv0 : string) (job : nat) (sh : shell) : shell :=
  Shell (tbl sh) (blocked sh) (BgfgKill argv0 job (pid (deref (tbl sh) job)))
    (trace sh).

(** Line 293: [kill(-pid, SIGCONT)] returns [ret]. *)
Definition bgfg_kill (argv0 : string) (job : nat) (p ret : Z) (sh : shell)
    : shell :=
  if ret <? 0 then
    Shell (tbl sh) (blocked sh) (Halted 1)
      (trace sh ++ [Kill (- p) SIGCONT; UnixError "kill error"])
  else
    Shell (tbl sh) (blocked sh) (BgfgState argv0 job)
      (trace sh ++ [Kill (- p) SIGCONT]).

(** Lines 298-304, up to the first [waitpid] of [waitfg]. *)
Definition bgfg_state (argv0 : string) (job : nat) (sh : shell) : shell :=
  match do_bgfg_setstate argv0 job (tbl sh) with
  | (jobs', out, None) => Shell jobs' (blocked sh) Prompt (trace sh ++ out)
  | (jobs', out, Some w) =>
      if w <? 1 then
        Shell jobs' (blocked sh) Prompt (trace sh ++ out ++ waitfg_invalid)
      else Shell jobs' (blocked sh) (Waitfg w false) (trace sh ++ out)
  end.

(** [waitpid] returns inside [waitfg]; when the loop ends, control goes
    back to the caller, and [eval] unblocks its signals. *)
Definition waitfg_wake (p : Z) (from_eval : bool) (wpid status : Z)
    (sh : shell) : shell :=
  match waitfg_body p wpid status (tbl sh) with
  | (None, jobs', out) =>
      Shell jobs' (blocked sh) (Waitfg p from_eval) (trace sh ++ out)
  | (Some (Exited code), jobs', out) =>
      Shell jobs' (blocked sh) (Halted code) (trace sh ++ out)
  | (Some _, jobs', out) =>
      if from_eval then
        Shell jobs' (sigprocmask SIG_UNBLOCK eval_mask (blocked sh)) Prompt
          (trace sh ++ out ++ [Sigprocmask SIG_UNBLOCK eval_mask])
      else Shell jobs' (blocked sh) Prompt (trace sh ++ out)
  end.

(** Delivery of a signal: the handler runs to completion on the table. *)
Definition deliver (h : list job_t -> list job_t * list event) (sh : shell)
    : shell :=
  let '(jobs', out) := h (tbl sh) in
  Shell jobs' (blocked sh) (at_pc sh) (trace sh ++ out).

Definition halted (sh : shell) : bool :=
  match at_pc sh with Halted _ => true | _ => false end.

(** A line as [fgets(cmdline, MAXLINE, stdin)] delivers it. *)
Definition fgets_line (cmdline : string) : Prop :=
  cmdline <> "" /\ Z.of_nat (String.length cmdline) < MAXLINE.

(** What [fork] may return in the parent: -1, or the pid of the new child,
    which is not the pid of a child that is still in the table. *)
Definition fork_result (jobs : list job_t) (child : Z) : Prop :=
  child = -1 \/ (0 < child /\ pid_unused jobs child = true).

(** Between the lookup of [do_bgfg] and its state change. *)
Definition in_bgfg (sh : shell) : bool :=
  match at_pc sh with
  | BgfgPid _ _ | BgfgKill _ _ _ | BgfgState _ _ => true
  | _ => false
  end.

(** A transition of the main control flow goes from one read or write of
    the table to the next, except that the state change of [do_bgfg] is
    taken together with the read of the slot that follows it, and the body
    of the loop of [waitfg] is taken as a whole once [waitpid] has
    returned.  A handler is taken from entry to return.

    A handler can run when the shell has not exited and the signal is not
    blocked; while it runs, the signal itself is added to the mask
    ([Signal] installs the handlers with an empty [sa_mask]).  With
    [bgfg_masked] the handlers are moreover kept out of
    [do_bgfg], as they would be if it blocked the signals the way [eval]
    does around [addjob]; the code is the relation with [false]. *)
Definition deliverable (bgfg_masked : bool) (sig : Z) (sh : shell) : Prop :=
  halted sh = false /\ sigismember (blocked sh) sig = false /\
  bgfg_masked && in_bgfg sh = false.

Inductive step (bgfg_masked verbose : bool) : shell -> shell -> Prop :=
  | step_eval sh cmdline child :
      at_pc sh = Prompt -> fgets_line cmdline ->
      fork_result (tbl sh) child ->
      step bgfg_masked verbose sh (eval verbose cmdline child sh)
  | step_listjobs sh i point :
      at_pc sh = Listjobs i point ->
      step bgfg_masked verbose sh (listjobs_step i point sh)
  | step_bgfg_pid sh argv0 job :
      at_pc sh = BgfgPid argv0 job ->
      step bgfg_masked verbose sh (bgfg_pid argv0 job sh)
  | step_bgfg_kill sh argv0 job p ret :
      at_pc sh = BgfgKill argv0 job p ->
      step bgfg_masked verbose sh (bgfg_kill argv0 job p ret sh)
  | step_bgfg_state sh argv0 job :
      at_pc sh = BgfgState argv0 job ->
      step bgfg_masked verbose sh (bgfg_state argv0 job sh)
  | step_waitpid sh p from_eval wpid status :
      at_pc sh = Waitfg p from_eval ->
      step bgfg_masked verbose sh (waitfg_wake p from_eval wpid status sh)
  | step_sigchld sh ws :
      deliverable bgfg_masked SIGCHLD sh ->
      step bgfg_masked verbose sh
        (deliver (sigchld_handler ws (sigaddset (blocked sh) SIGCHLD)) sh)
  | step_sigint sh :
      deliverable bgfg_masked SIGINT sh ->
      step bgfg_masked verbose sh (deliver sigint_handler sh)
  | step_sigtstp sh :
      deliverable bgfg_masked SIGTSTP sh ->
      step bgfg_masked verbose sh (deliver sigtstp_handler sh).

(** States the shell can be in, starting from [main] after [initjobs]. *)
Definition reachable (verbose : bool) (sh : shell) : Prop :=
  rtc (step false verbose) boot sh.

(** The same with the handlers kept out of [do_bgfg]. *)
Definition reachable_masked (verbose : bool) (sh : shell) : Prop :=
  rtc (step true verbose) boot sh.

(** Number of slots whose state is [FG]. *)
Definition fg_slots (jobs : list job_t) : nat :=
  length (filter (fun j => state j = FG) jobs).

(** Number of jobs in state [FG]: the slots among them with a pid. *)
Definition fg_jobs (jobs : list job_t) : nat :=
  length (filter (fun j => state j = FG /\ pid j <> 0) jobs).

(** ** Sequences of registrations and removals *)

Inductive op :=
  | Register (p st : Z) (cmd : string)
  | Remove (p : Z).

Definition apply_op (verbose : bool) (jobs : list job_t) (o : op)
    : list job_t :=
  match o with
  | Register p st cmd => snd (fst (addjob verbose jobs p st cmd))
  | Remove p => snd (deletejob jobs p)
  end.

Fixpoint run (verbose : bool) (jobs : list job_t) (ops : list op)
    : list job_t :=
  match ops with
  | [] => jobs
  | o :: ops' => run verbose (apply_op verbose jobs o) ops'
  end.

(** Every registration of the sequence is for a pid that no live job
    holds at that moment. *)
Fixpoint fresh_pids (verbose : bool) (jobs : list job_t) (ops : list op)
    : bool :=
  match ops with
  | [] => true
  | o :: ops' =>
      match o with
      | Register p _ _ => pid_unused jobs p
      | Remove _ => true
      end && fresh_pids verbose (apply_op verbose jobs o) ops'
  end.

(** A live job: a slot whose pid is not 0. *)
Definition live (j : job_t) : Prop := pid j <> 0.

(** No two live jobs agree on the field [key]. *)
Definition unique_by (key : job_t -> Z) (jobs : list job_t) : Prop :=
  forall i1 i2 j1 j2,
    jobs !! i1 = Some j1 -> jobs !! i2 = Some j2 ->
    live j1 -> live j2 -> key j1 = key j2 -> i1 = i2.

Definition unique_jids : list job_t -> Prop := unique_by jid.
Definition unique_pids : list job_t -> Prop := unique_by pid.

(** [n] is the smallest positive integer that no live job has as its id. *)
Definition smallest_unused (jobs : list job_t) (n : Z) : Prop :=
  0 < n /\
  (forall j, j ∈ jobs -> live j -> jid j <> n) /\
  (forall k, 0 < k < n -> exists j, j ∈ jobs /\ live j /\ jid j = k).

(** A slot is either cleared or holds a positive pid and an id in range. *)
Definition slot_ok (j : job_t) : Prop :=
  (pid j = 0 /\ jid j = 0) \/
  (1 <= pid j /\ 1 <= jid j <= Z.of_nat MAXJOBS).

(** ** Rejections of the [bg] and [fg] commands *)

(** The three ways in which [do_bgfg] refuses the arguments [argv[1..]]
    of [bg] or [fg], by the tests that it makes: no argument; an argument
    for which [atoi] (after [%] or on the whole argument) returns no
    positive number; a positive value of [atoi] that no slot of the table
    carries. *)
Inductive rejection :=
  | MissingArgument
  | InvalidArgument
  | NoSuchJob.

Inductive rejects (jobs : list job_t) : list string -> rejection -> Prop :=
  | rejects_missing :
      rejects jobs [] MissingArgument
  | rejects_jid_invalid argv1 rest :
      first_char argv1 = "%"%char -> atoi (string_tail argv1) <= 0 ->
      rejects jobs (argv1 :: rest) InvalidArgument
  | rejects_pid_invalid argv1 rest :
      first_char argv1 <> "%"%char -> atoi argv1 <= 0 ->
      rejects jobs (argv1 :: rest) InvalidArgument
  | rejects_jid_unknown argv1 rest :
      first_char argv1 = "%"%char -> 0 < atoi (string_tail argv1) ->
      (forall j, j ∈ jobs -> jid j <> atoi (string_tail argv1)) ->
      rejects jobs (argv1 :: rest) NoSuchJob
  | rejects_pid_unknown argv1 rest :
      first_char argv1 <> "%"%char -> 0 < atoi argv1 ->
      (forall j, j ∈ jobs -> pid j <> atoi argv1) ->
      rejects jobs (argv1 :: rest) NoSuchJob.

(** The texts printed for each kind of rejection. *)
Definition rejection_text (argv0 : string) (r : rejection) (msg : string)
    : Prop :=
  match r with
  | MissingArgument =>
      msg = argv0 +:+ " command requires PID or %jobid argument" +:+ nl
  | InvalidArgument =>
      msg = argv0 +:+ ": argument must be a positive integer" +:+ nl \/
      msg = argv0 +:+ ": argument must be a PID or %jobid" +:+ nl
  | NoSuchJob =>
      (exists digits, msg = String "%" digits +:+ ": No such job" +:+ nl) \/
      (exists p, msg = "(" +:+ fmt_d p +:+ "): No such process" +:+ nl)
  end.

(** ** References to jobs in decimal notation *)

Fixpoint all_digits (s : string) : bool :=
  match s with
  | "" => true
  | String c s' =>
      match digit_val c with
      | Some _ => all_digits s'
      | None => false
      end
  end.

(** The positive integer that [s] is in decimal notation: digits only,
    with a value other than 0. *)
Definition positive_integer (s : string) : option Z :=
  if all_digits s && (0 <? strtol_digits 0 s) then Some (strtol_digits 0 s)
  else None.

(** A reference to a job: [%] and a job id, or a pid. *)
Inductive reference :=
  | ByJid (n : Z)
  | ByPid (p : Z).

Definition parse_reference (arg : string) : option reference :=
  if Ascii.eqb (first_char arg) "%" then
    ByJid <$> positive_integer (string_tail arg)
  else ByPid <$> positive_integer arg.

(** Some live job of the table has the job id, or the pid, of the
    reference. *)
Definition names_live_job (jobs : list job_t) (r : reference) : Prop :=
  exists j, j ∈ jobs /\ live j /\
    match r with
    | ByJid n => jid j = n
    | ByPid p => pid j = p
    end.

(** A handler's trace starts by blocking every signal and ends by putting
    the mask [prev] back. *)
Definition masks_whole_body (prev : Z) (tr : list event) : Prop :=
  head tr = Some (Sigprocmask SIG_BLOCK sigfillset) /\
  last tr = Some (Sigprocmask SIG_SETMASK prev).

(** ** The invariant of the main control flow *)

(** Every slot in state [FG] holds the pid [p], or is a cleared slot (pid
    0) when [stale] slots are allowed for; with [None] for [p], no job is
    in state [FG]. *)
Definition fg_pids (stale : bool) (p : option Z) (jobs : list job_t) : Prop :=
  forall i j, jobs !! i = Some j -> state j = FG ->
    (stale = true /\ pid j = 0) \/ p = Some (pid j).

(** What holds of the table at each point of the main control flow.  When
    no handler runs inside [do_bgfg] ([stale] is [false]), the pointer
    [job] still points to the job that the lookup found. *)
Definition pc_inv (stale : bool) (c : pc) (jobs : list job_t) : Prop :=
  match c with
  | Prompt | Listjobs _ _ => fg_pids stale None jobs
  | BgfgPid _ job | BgfgKill _ job _ | BgfgState _ job =>
      fg_pids stale None jobs /\
      (stale = false -> exists j, jobs !! job = Some j /\ 1 <= pid j)
  | Waitfg p _ => 1 <= p /\ fg_pids stale (Some p) jobs
  | Halted _ => exists p, 1 <= p /\ fg_pids stale (Some p) jobs
  end.

Definition shell_inv (stale : bool) (sh : shell) : Prop :=
  length (tbl sh) = MAXJOBS /\
  Forall slot_ok (tbl sh) /\ unique_pids (tbl sh) /\
  pc_inv stale (at_pc sh) (tbl sh).

(** [jobs'] has as many slots as [jobs], no slot in state [FG] that [jobs]
    did not have, slot for slot, and keeps the table well formed. *)
Definition quiets (jobs jobs' : list job_t) : Prop :=
  length jobs' = length jobs /\
  (Forall slot_ok jobs -> Forall slot_ok jobs') /\
  (unique_pids jobs -> unique_pids jobs') /\
  (forall k j', jobs' !! k = Some j' -> state j' = FG -> jobs !! k = Some j').

(** ** Sample tables and runs *)

Definition sample_ops : list op :=
  [Register 100 BG ("sleep 5" +:+ nl); Register 101 BG ("sleep 6" +:+ nl);
   Remove 100; Register 102 BG ("sleep 7" +:+ nl)].

(** A table with one background job, id 1 and pid 100. *)
Definition one_job : list job_t :=
  snd (fst (addjob false initjobs 100 BG ("sleep 1" +:+ nl))).

(** The table with job 1 stopped. *)
Definition stopped_job : list job_t := alter (set_state ST) 0%nat one_job.

(** The table after [fg %1] on [one_job]: job 1 in state [FG]. *)
Definition fg_job : list job_t :=
  fst (fst (do_bgfg_setstate "fg" 0 one_job)).

(** Two jobs, both in state [FG]. *)
Definition two_fg : list job_t :=
  snd (fst (addjob false
              (snd (fst (addjob false initjobs 100 FG ("vi" +:+ nl))))
              101 FG ("top" +:+ nl))).

(** A run of the shell: two launches, [fg %1] overtaken by the exit of
    job 1, then [fg %2]. *)
Definition race_0 : shell := boot.
Definition race_1 := eval false ("sleep 1" +:+ nl) 100 race_0.
Definition race_2 := eval false ("sleep 100" +:+ nl) 101 race_1.
Definition race_3 := eval false ("fg %1" +:+ nl) (-1) race_2.
Definition race_3_pid := bgfg_pid "fg" 0 race_3.
Definition race_4 := bgfg_kill "fg" 0 100 0 race_3_pid.
Definition race_5 :=
  deliver (sigchld_handler [(100, 0)] (sigaddset (blocked race_4) SIGCHLD))
    race_4.
Definition race_6 := bgfg_state "fg" 0 race_5.
Definition race_7 := eval false ("fg %2" +:+ nl) (-1) race_6.
Definition race_7_pid := bgfg_pid "fg" 1 race_7.
Definition race_8 := bgfg_kill "fg" 1 101 0 race_7_pid.
Definition race_9 := bgfg_state "fg" 1 race_8.

(** ** Command lines as sequences of words *)

Definition MAXARGS : nat := 128.

(** A word of a command line together with the blanks in front of it.  A
    quoted word stands between two single quotes; a plain word ends at
    the blank that follows it. *)
Record token := Token {
  lead : nat;
  quoted : bool;
  word : string
}.

Fixpoint spaces (n : nat) : string :=
  match n with
  | O => ""
  | S n' => String " " (spaces n')
  end.

Fixpoint occurs (c : ascii) (s : string) : bool :=
  match s with
  | "" => false
  | String d s' => Ascii.eqb d c || occurs c s'
  end.

Definition render_token (t : token) : string :=
  spaces (lead t) +:+
  (if quoted t then String "'" (word t +:+ "'") else word t +:+ " ").

Fixpoint render (ts : list token) : string :=
  match ts with
  | [] => ""
  | t :: ts' => render_token t +:+ render ts'
  end.

(** A quoted word holds no quote; a plain word is not empty, holds no
    blank and does not start with a quote. *)
Definition token_ok (t : token) : bool :=
  if quoted t then negb (occurs "'" (word t))
  else negb (occurs " " (word t))
       && negb (Ascii.eqb (first_char (word t)) "'")
       && negb (String.eqb (word t) "").

(** The line of [n] arguments [a], each followed by one blank. *)
Definition arg_line (n : nat) : string :=
  render (replicate n (Token 0 false "a")) +:+ nl.

(** The stores of [parseline] into [argv], in the order in which it makes
    them: [argv[argc++] = buf] for each argument, then [argv[argc] = NULL].
    A store is the index with what is stored there, [None] for [NULL]. *)
Definition argv_stores (cmdline : string) : list (nat * option string) :=
  imap (fun i tok => (i, Some tok)) (parseline cmdline) ++
  [(length (parseline cmdline), None)].

(** A store past the end of the array [char *argv[MAXARGS]] of [eval]. *)
Definition past_argv (store : nat * option string) : bool :=
  Nat.leb MAXARGS (fst store).

(** A table without a free slot: sixteen jobs, pids 100 to 115. *)
Definition full_table : list job_t :=
  run false initjobs
    ((fun k => Register (Z.of_nat k) BG ("sleep 9" +:+ nl)) <$> seq 100 MAXJOBS).

(** What the reaping loop of [sigchld_handler] leaves in the slot of the
    child that [waitpid] reported, by the status. *)
Definition reap_write (status : Z) (j : job_t) : job_t :=
  if WIFEXITED status || WIFSIGNALED status then clearjob
  else if WIFSTOPPED status then set_state ST j
  else if WIFCONTINUED status then set_state BG j
  else j.

(** ** Writes to the job table *)

(** The states that the shell gives to a job. *)
Definition job_state (s : Z) : Prop := s = FG \/ s = BG \/ s = ST.

(** One write of the shell to its table: the registration in state [BG]
    of what [fork] returned, a change of the state of one slot, the
    clearing of one slot. *)
Inductive table_write (verbose : bool) : list job_t -> list job_t -> Prop :=
  | write_register jobs p cmd :
      fork_result jobs p ->
      table_write verbose jobs (snd (fst (addjob verbose jobs p BG cmd)))
  | write_state jobs job s :
      job_state s ->
      table_write verbose jobs (alter (set_state s) job jobs)
  | write_clear jobs job :
      table_write verbose jobs (<[job := clearjob]> jobs).

(** A well-formed table: [MAXJOBS] slots, each cleared or holding a job;
    live jobs differ in job id and in pid and are in a state of a job. *)
Definition table_ok (jobs : list job_t) : Prop :=
  length jobs = MAXJOBS /\ Forall slot_ok jobs /\
  unique_jids jobs /\ unique_pids jobs /\
  Forall (fun j => live j -> job_state (state j)) jobs.

(** ** The lines of the [jobs] command *)

Definition state_name (s : Z) : string :=
  if s =? BG then "Running "
  else if s =? FG then "Foreground "
  else "Stopped ".

Definition job_line (j : job_t) : list event :=
  [Printf ("[" +:+ fmt_d (jid j) +:+ "] (" +:+ fmt_d (pid j) +:+ ") ");
   Printf (state_name (state j));
   Printf (cmdline j)].

(** ** Signals sent by the shell *)

(** A [kill] that sends one of the three job-control signals to a process
    group (the target is negative) or, for [SIGCONT] only, to target 0,
    the process group of the caller; never to a single process. *)
Definition group_signal (e : event) : Prop :=
  match e with
  | Kill target sig =>
      (target <= -1 /\ (sig = SIGCONT \/ sig = SIGINT \/ sig = SIGTSTP)) \/
      (target = 0 /\ sig = SIGCONT)
  | _ => True
  end.

(** A run in which job 1 exits while [fg %1] is between [getjobjid] and
    the read of [job->pid]. *)
Definition self_0 : shell := eval false ("sleep 1" +:+ nl) 100 boot.
Definition self_1 := eval false ("fg %1" +:+ nl) (-1) self_0.
Definition self_2 :=
  deliver (sigchld_handler [(100, 0)] (sigaddset (blocked self_1) SIGCHLD))
    self_1.
Definition self_3 := bgfg_pid "fg" 0 self_2.
Definition self_4 := bgfg_kill "fg" 0 0 0 self_3.

(** A run in which job 1 exits while [jobs] is between the [printf] of
    its job id and pid and the [switch] on its state. *)
Definition list_0 : shell := eval false ("sleep 1" +:+ nl) 100 boot.
Definition list_1 := eval false ("jobs" +:+ nl) (-1) list_0.
Definition list_2 := listjobs_step 0 AtPid list_1.
Definition list_3 := listjobs_step 0 AtHead list_2.
Definition list_4 :=
  deliver (sigchld_handler [(100, 0)] (sigaddset (blocked list_3) SIGCHLD))
    list_3.
Definition list_5 := listjobs_step 0 AtState list_4.

(** A run that ends with job 1 in the foreground: a launch, then [fg %1]. *)
Definition front_0 : shell := eval false ("sleep 1" +:+ nl) 100 boot.
Definition front_1 := eval false ("fg %1" +:+ nl) (-1) front_0.
Definition front_2 := bgfg_pid "fg" 0 front_1.
Definition front_3 := bgfg_kill "fg" 0 100 0 front_2.
Definition front_4 := bgfg_state "fg" 0 front_3.

(** * The parsers *)

Lemma strchr_split_length c s tok rest :
  strchr_split c s = Some (tok, rest) ->
  (String.length rest < String.length s)%nat.
Proof.
  revert tok. induction s as [|d s IH]; intros tok; cbn; [done|].
  destruct (Ascii.eqb d c); [intros [= _ <-]; lia|].
  destruct (strchr_split c s) as [[tok' rest']|]; [|done].
  intros [= _ <-]. specialize (IH tok' eq_refl). lia.
Qed.

Lemma skip_spaces_length s :
  (String.length (skip_spaces s) <= String.length s)%nat.
Proof.
  induction s as [|c s IH]; cbn; [done|].
  destruct (Ascii.eqb c " "); cbn; lia.
Qed.

Lemma string_tail_length s :
  (String.length (string_tail s) <= String.length s)%nat.
Proof. destruct s; cbn; lia. Qed.

Lemma replace_last_length s :
  String.length (replace_last s) = String.length s.
Proof.
  induction s as [|c s IH]; [done|].
  destruct s as [|d s]; [done|]. cbn in *. by rewrite IH.
Qed.

(** The loop of [parseline] ends before the fuel does: any fuel that is at
    least the length of the buffer gives the same argument vector. *)
Lemma parse_args_fuel fuel1 fuel2 buf :
  (String.length buf <= fuel1)%nat -> (String.length buf <= fuel2)%nat ->
  parse_args fuel1 buf = parse_args fuel2 buf.
Proof.
  revert fuel2 buf. induction fuel1 as [|fuel1 IH]; intros fuel2 buf H1 H2.
  - destruct buf; [|cbn in H1; lia]. by destruct fuel2.
  - destruct fuel2 as [|fuel2].
    { destruct buf; [done | cbn in H2; lia]. }
    cbn [parse_args].
    pose proof (skip_spaces_length buf) as Hskip.
    pose proof (string_tail_length (skip_spaces buf)) as Htail.
    destruct (Ascii.eqb (first_char (skip_spaces buf)) "'").
    + destruct (strchr_split "'" _) as [[tok rest]|] eqn:Hsplit; [|done].
      apply strchr_split_length in Hsplit. f_equal. apply IH; lia.
    + destruct (strchr_split " " _) as [[tok rest]|] eqn:Hsplit; [|done].
      apply strchr_split_length in Hsplit. f_equal. apply IH; lia.
Qed.

Lemma parseline_fuel cmdline fuel :
  (String.length cmdline <= fuel)%nat ->
  parseline cmdline = parse_args fuel (replace_last cmdline).
Proof.
  intros Hfuel. apply parse_args_fuel; by rewrite replace_last_length.
Qed.

Example parseline_fg : parseline ("fg  %2" +:+ nl) = ["fg"; "%2"].
Proof. vm_compute. reflexivity. Qed.

Example parseline_quoted :
  parseline ("echo 'a b' c" +:+ nl) = ["echo"; "a b"; "c"].
Proof. vm_compute. reflexivity. Qed.

Example atoi_examples :
  atoi "42" = 42 /\ atoi " -7x" = -7 /\ atoi "abc" = 0 /\ atoi "" = 0 /\
  atoi "4294967297" = 1.
Proof. vm_compute. repeat split. Qed.

(** * Sample runs *)

Example listjobs_one_job :
  listjobs one_job =
    [Printf "[1] (100) "; Printf "Running "; Printf ("sleep 1" +:+ nl)].
Proof. by vm_compute. Qed.

(** A launch registers the job in state [BG] and returns to the prompt,
    whatever the command line: [bg] is the argument count. *)
Example eval_launches_in_background :
  tbl (eval false ("sleep 1" +:+ nl) 100 boot) = one_job /\
  at_pc (eval false ("sleep 1" +:+ nl) 100 boot) = Prompt /\
  trace (eval false ("sleep 1" +:+ nl) 100 boot) =
    [Sigprocmask SIG_BLOCK eval_mask;
     Printf ("[1] (100) sleep 1" +:+ nl);
     Sigprocmask SIG_UNBLOCK eval_mask].
Proof. by vm_compute. Qed.

(** [fg %1] with no handler in between: SIGCONT to the group, state [FG],
    then [waitfg] until the job stops. *)
Example fg_then_stop :
  do_bgfg "fg" ["%1"] 0 [(100, 5247)] one_job =
    (Returned, alter (set_state ST) 0%nat one_job,
     [Kill (-100) SIGCONT;
      Printf ("Job [1] (100) stopped by signal 20" +:+ nl)]).
Proof. by vm_compute. Qed.

(** * Properties of the job table *)

Section find_slot.
Context (P : job_t -> Prop) `{!forall j, Decision (P j)}.

Lemma find_slot_lookup jobs i j :
  list_find P jobs = Some (i, j) -> jobs !! i = Some j /\ P j.
Proof. intros Hf%list_find_Some. tauto. Qed.

Lemma find_slot_first jobs i j k j' :
  list_find P jobs = Some (i, j) ->
  jobs !! k = Some j' -> (k < i)%nat -> ~ P j'.
Proof. intros Hf%list_find_Some. destruct Hf as (_ & _ & Hf). eauto. Qed.

Lemma find_slot_none jobs j :
  list_find P jobs = None -> j ∈ jobs -> ~ P j.
Proof.
  intros Hf%list_find_None Hj. rewrite Forall_forall in Hf. auto.
Qed.

(** A state change through a pointer does not move the slot that a
    search on another field finds. *)
Lemma find_slot_alter (f : job_t -> job_t) jobs i :
  (forall j, P (f j) <-> P j) ->
  fst <$> list_find P (alter f i jobs) = fst <$> list_find P jobs.
Proof.
  intros Hf. revert i. induction jobs as [|j jobs IH]; intros i; [done|].
  destruct i as [|i]; cbn [alter list_alter list_find].
  - destruct (decide (P j)) as [Hj|Hj].
    + rewrite decide_True by (by apply Hf). done.
    + rewrite decide_False by (by rewrite Hf). done.
  - destruct (decide (P j)); [done|].
    specialize (IH i). fold (alter f i jobs).
    destruct (list_find P (alter f i jobs)) as [[]|],
             (list_find P jobs) as [[]|]; simplify_eq/=; done.
Qed.
End find_slot.

(** ** [freejid] *)

Lemma length_mark taken z : length (mark taken z) = length taken.
Proof. unfold mark. case_bool_decide; [apply length_insert | done]. Qed.

Lemma mark_lookup taken z k :
  mark taken z !! k = Some true <->
  taken !! k = Some true \/ (z = Z.of_nat k /\ (k < length taken)%nat).
Proof.
  unfold mark. case_bool_decide as Hz.
  - rewrite list_lookup_insert_Some. split.
    + intros [(Hk & _ & Hlen) | (_ & Hl)]; [right | by left].
      split; [lia | done].
    + intros [Hl | (-> & Hlen)].
      * destruct (decide (Z.to_nat z = k)) as [<- | Hne]; [left | by right].
        split_and!; [done.. | by eapply lookup_lt_Some].
      * left. split_and!; [lia | done..].
  - split; [by left | intros [Hl | (-> & _)]; [done | lia]].
Qed.

Lemma length_foldl_mark jobs acc :
  length (foldl mark_job acc jobs) = length acc.
Proof.
  revert acc. induction jobs as [|j jobs IH]; intros acc; [done|].
  cbn [foldl]. rewrite IH. unfold mark_job.
  destruct (jid j =? 0); [done | apply length_mark].
Qed.

Lemma foldl_mark_lookup jobs acc k :
  foldl mark_job acc jobs !! k = Some true <->
  acc !! k = Some true \/
  ((k < length acc)%nat /\
   exists j, j ∈ jobs /\ jid j <> 0 /\ jid j = Z.of_nat k).
Proof.
  revert acc. induction jobs as [|j jobs IH]; intros acc; cbn [foldl].
  - split; [by left | intros [? | (_ & j & Hj%elem_of_nil & _)]; done].
  - rewrite IH. unfold mark_job.
    destruct (Z.eqb_spec (jid j) 0) as [Hz | Hz].
    + split.
      * intros [? | (? & j' & ? & ? & ?)]; [by left | right].
        split; [done | exists j'; by rewrite elem_of_cons; auto].
      * intros [? | (? & j' & [-> | ?]%elem_of_cons & ? & ?)];
          [by left | done | right]. split; [done | by exists j'].
    + rewrite mark_lookup, length_mark. split.
      * intros [[? | (? & ?)] | (? & j' & ? & ? & ?)]; [by left | right..].
        -- split; [done | exists j; by rewrite elem_of_cons; auto].
        -- split; [done | exists j'; by rewrite elem_of_cons; auto].
      * intros [? | (? & j' & [-> | ?]%elem_of_cons & ? & ?)];
          [by left; left | by left; right | right].
        split; [done | by exists j'].
Qed.

Lemma mark_taken_unfold jobs :
  mark_taken jobs = foldl mark_job (replicate (S MAXJOBS) false) jobs.
Proof. reflexivity. Qed.

Lemma length_mark_taken jobs : length (mark_taken jobs) = S MAXJOBS.
Proof.
  rewrite mark_taken_unfold, length_foldl_mark. apply length_replicate.
Qed.

(** [taken[k]] is set exactly when some slot carries the id [k]. *)
Lemma mark_taken_lookup jobs k :
  mark_taken jobs !! k = Some true <->
  (k <= MAXJOBS)%nat /\ exists j, j ∈ jobs /\ jid j <> 0 /\ jid j = Z.of_nat k.
Proof.
  rewrite mark_taken_unfold, foldl_mark_lookup, length_replicate. split.
  - intros [[? _]%lookup_replicate | (? & ?)]; [done | split; [lia | done]].
  - intros (? & ?). right. split; [lia | done].
Qed.

Lemma first_free_zero taken i n :
  (0 < i)%nat -> first_free taken i n = 0 ->
  forall k, (i <= k < i + n)%nat -> taken !! k <> Some false.
Proof.
  revert i. induction n as [|n IH]; intros i Hi Hr k Hk; [lia|].
  cbn [first_free] in Hr.
  destruct (taken !! i) as [[]|] eqn:Hl; [| lia |].
  - destruct (decide (k = i)) as [-> | ?]; [congruence|].
    apply (IH (S i)); [lia | done | lia].
  - destruct (decide (k = i)) as [-> | ?]; [congruence|].
    apply (IH (S i)); [lia | done | lia].
Qed.

Lemma first_free_pos taken i n r :
  (0 < i)%nat -> first_free taken i n = r -> r <> 0 ->
  exists k, r = Z.of_nat k /\ (i <= k < i + n)%nat /\
    taken !! k = Some false /\
    forall k', (i <= k' < k)%nat -> taken !! k' <> Some false.
Proof.
  revert i. induction n as [|n IH]; intros i Hi Hr Hnz; [done|].
  cbn [first_free] in Hr.
  destruct (taken !! i) as [[]|] eqn:Hl.
  - destruct (IH (S i)) as (k & -> & Hk & Hf & Hlt); [lia | done..|].
    exists k. split; [done|]. split; [lia|]. split; [done|].
    intros k' Hk'. destruct (decide (k' = i)) as [-> | ?]; [congruence|].
    apply Hlt. lia.
  - exists i. split; [by simplify_eq|]. split; [lia|].
    split; [done | intros; lia].
  - destruct (IH (S i)) as (k & -> & Hk & Hf & Hlt); [lia | done..|].
    exists k. split; [done|]. split; [lia|]. split; [done|].
    intros k' Hk'. destruct (decide (k' = i)) as [-> | ?]; [congruence|].
    apply Hlt. lia.
Qed.

Lemma taken_not_free jobs k :
  (k <= MAXJOBS)%nat -> mark_taken jobs !! k <> Some false ->
  mark_taken jobs !! k = Some true.
Proof.
  intros Hk Hne.
  destruct (mark_taken jobs !! k) as [[]|] eqn:Hl; [done.. |].
  apply lookup_ge_None in Hl. rewrite length_mark_taken in Hl. lia.
Qed.

(** No free id: every id from 1 to [MAXJOBS] occurs in the table. *)
Lemma freejid_zero jobs k :
  freejid jobs = 0 -> 1 <= k <= Z.of_nat MAXJOBS ->
  exists j, j ∈ jobs /\ jid j = k.
Proof.
  intros Hr Hk. unfold freejid in Hr.
  pose proof (first_free_zero _ 1 MAXJOBS ltac:(lia) Hr (Z.to_nat k)) as Hn.
  assert (Hin : (Z.to_nat k <= MAXJOBS)%nat) by lia.
  apply taken_not_free, mark_taken_lookup in Hn as (_ & j & ? & _ & ?);
    [| lia | lia].
  exists j. split; [done | lia].
Qed.

(** A free id: it is in range, no slot carries it, and every smaller
    positive id is carried by some slot. *)
Lemma freejid_pos jobs :
  freejid jobs <> 0 ->
  1 <= freejid jobs <= Z.of_nat MAXJOBS /\
  (forall j, j ∈ jobs -> jid j <> freejid jobs) /\
  (forall k, 1 <= k < freejid jobs -> exists j, j ∈ jobs /\ jid j = k).
Proof.
  intros Hnz. unfold freejid in *.
  destruct (first_free_pos _ 1 MAXJOBS _ ltac:(lia) eq_refl Hnz)
    as (k & Hr & Hk & Hfree & Hlt).
  rewrite Hr. split_and!; [lia.. | |].
  - intros j Hj Hjid.
    assert (mark_taken jobs !! k = Some true) as Ht; [|congruence].
    apply mark_taken_lookup. split; [lia|]. exists j.
    split_and!; [done | lia | done].
  - intros k' Hk'.
    assert (mark_taken jobs !! Z.to_nat k' = Some true) as Ht.
    { apply taken_not_free; [lia|]. apply Hlt. lia. }
    apply mark_taken_lookup in Ht as (_ & j & ? & _ & ?).
    exists j. split; [done | lia].
Qed.

(** ** Lookups and removal *)

Lemma getjobpid_Some jobs p job :
  getjobpid jobs p = Some job <->
  1 <= p /\ exists j, list_find (fun j => pid j = p) jobs = Some (job, j).
Proof.
  unfold getjobpid. destruct (Z.ltb_spec p 1).
  - split; [done | lia].
  - rewrite fmap_Some. split.
    + intros ([i j] & Hf & ->). split; [lia | by exists j].
    + intros (_ & j & Hf). by exists (job, j).
Qed.

Lemma getjobpid_None jobs p :
  getjobpid jobs p = None <-> p < 1 \/ forall j, j ∈ jobs -> pid j <> p.
Proof.
  unfold getjobpid. destruct (Z.ltb_spec p 1).
  - split; [by left | done].
  - rewrite fmap_None, list_find_None, Forall_forall. split.
    + by right.
    + intros [? | ?]; [lia | done].
Qed.

Lemma getjobjid_None jobs n :
  getjobjid jobs n = None <-> n < 1 \/ forall j, j ∈ jobs -> jid j <> n.
Proof.
  unfold getjobjid. destruct (Z.ltb_spec n 1).
  - split; [by left | done].
  - rewrite fmap_None, list_find_None, Forall_forall. split.
    + by right.
    + intros [? | ?]; [lia | done].
Qed.

(** The slot that [getjobpid] points to is the one [deletejob] clears. *)
Lemma deletejob_getjobpid jobs p job :
  getjobpid jobs p = Some job ->
  deletejob jobs p = (1, <[job := clearjob]> jobs) /\
  deref (<[job := clearjob]> jobs) job = clearjob.
Proof.
  intros (Hp & j & Hf)%getjobpid_Some. unfold deletejob, deref.
  destruct (Z.ltb_spec p 1); [lia|]. rewrite Hf. split; [done|].
  apply find_slot_lookup in Hf as [Hl _].
  rewrite list_lookup_insert_eq; [done | by eapply lookup_lt_Some].
Qed.

Lemma deletejob_no_job jobs p :
  getjobpid jobs p = None -> deletejob jobs p = (0, jobs).
Proof.
  unfold getjobpid, deletejob. destruct (p <? 1); [done|].
  by intros ->%fmap_None.
Qed.

(** C10.  For every job table and every key [k <= 0] (0 being what the
    pid field of a free slot holds), [getjobpid] and [getjobjid] return
    NULL, [pid2jid] returns 0, and [deletejob] returns 0 and leaves the
    table as it is: no free slot is matched, returned or cleared through
    such a key. *)
Theorem nonpositive_key_matches_nothing (jobs : list job_t) (k : Z) :
  k <= 0 ->
  getjobpid jobs k = None /\
  getjobjid jobs k = None /\
  pid2jid jobs k = 0 /\
  deletejob jobs k = (0, jobs).
Proof.
  intros Hk. unfold getjobpid, getjobjid, pid2jid, deletejob.
  destruct (Z.ltb_spec k 1); [done | lia].
Qed.

Lemma nonpositive_key_matches_nothing_witness :
  getjobpid one_job 0 = None /\
  getjobjid one_job (-4) = None /\
  pid2jid one_job 0 = 0 /\
  deletejob one_job 0 = (0, one_job).
Proof.
  destruct (nonpositive_key_matches_nothing one_job 0) as (H1 & _ & H3 & H4);
    [lia|].
  destruct (nonpositive_key_matches_nothing one_job (-4)) as (_ & H2 & _);
    [lia|].
  by split_and!.
Defined.

(** ** [addjob] *)

Lemma addjob_result verbose jobs p st cmd :
  (exists out, addjob verbose jobs p st cmd = (0, jobs, out)) \/
  (1 <= p /\ freejid jobs <> 0 /\
   exists i free out,
     list_find (fun j => pid j = 0) jobs = Some (i, free) /\
     addjob verbose jobs p st cmd =
       (1, <[i := Job p (freejid jobs) st cmd]> jobs, out)).
Proof.
  unfold addjob. destruct (Z.ltb_spec p 1); [by eauto|].
  destruct (Z.eqb_spec (freejid jobs) 0); [by eauto|].
  destruct (list_find _ jobs) as [[i free]|] eqn:Hf; [|by eauto].
  right. split_and!; [done..|]. exists i, free. eexists.
  split; [done | reflexivity].
Qed.

(** ** Registrations and removals *)

Lemma deletejob_result jobs p :
  deletejob jobs p = (0, jobs) \/
  exists i, deletejob jobs p = (1, <[i := clearjob]> jobs).
Proof.
  unfold deletejob. destruct (p <? 1); [by left|].
  destruct (list_find _ jobs) as [[i j]|]; [right | by left]. by exists i.
Qed.

Section unique.
Variable key : job_t -> Z.

Lemma unique_by_init : unique_by key initjobs.
Proof.
  intros i1 i2 j1 j2 [-> _]%lookup_replicate _ Hlive. by destruct Hlive.
Qed.

Lemma unique_by_clear jobs i :
  unique_by key jobs -> unique_by key (<[i := clearjob]> jobs).
Proof.
  intros Hu i1 i2 j1 j2.
  rewrite !list_lookup_insert_Some.
  intros [(_ & <- & _) | (_ & H1)] [(_ & <- & _) | (_ & H2)] L1 L2;
    try (by destruct L1); try (by destruct L2).
  by apply Hu.
Qed.

Lemma unique_by_new jobs i j :
  unique_by key jobs ->
  (forall j', j' ∈ jobs -> live j' -> key j' <> key j) ->
  unique_by key (<[i := j]> jobs).
Proof.
  intros Hu Hnew i1 i2 j1 j2.
  rewrite !list_lookup_insert_Some.
  intros [(<- & <- & _) | (? & H1)] [(<- & <- & _) | (? & H2)] L1 L2 Hk.
  - done.
  - destruct (Hnew j2); [by eapply list_elem_of_lookup_2 | done..].
  - destruct (Hnew j1); [by eapply list_elem_of_lookup_2 | done..].
  - by eapply Hu.
Qed.
End unique.

Lemma pid_unused_spec jobs p :
  pid_unused jobs p = true -> forall j, j ∈ jobs -> live j -> pid j <> p.
Proof.
  unfold pid_unused, live. rewrite forallb_forall.
  intros Hall j Hj%list_elem_of_In Hlive. specialize (Hall j Hj).
  destruct (Z.eqb_spec (pid j) 0), (Z.eqb_spec (pid j) p); done.
Qed.

Lemma slot_ok_live j : slot_ok j -> jid j <> 0 -> live j.
Proof. unfold slot_ok, live. lia. Qed.

Lemma slots_ok_init : Forall slot_ok initjobs.
Proof. apply Forall_replicate. by left. Qed.

Lemma slots_ok_apply verbose jobs o :
  Forall slot_ok jobs -> Forall slot_ok (apply_op verbose jobs o).
Proof.
  intros Hok. destruct o as [p st cmd | p]; cbn [apply_op].
  - destruct (addjob_result verbose jobs p st cmd)
      as [[out ->] | (Hp & Hfree & i & free & out & _ & ->)]; [done|].
    apply Forall_insert; [done|]. right. cbn [pid jid].
    destruct (freejid_pos jobs Hfree) as (? & _). lia.
  - destruct (deletejob_result jobs p) as [-> | [i ->]]; [done|].
    apply Forall_insert; [done | by left].
Qed.

Lemma unique_jids_apply verbose jobs o :
  unique_jids jobs -> unique_jids (apply_op verbose jobs o).
Proof.
  intros Hu. destruct o as [p st cmd | p]; cbn [apply_op].
  - destruct (addjob_result verbose jobs p st cmd)
      as [[out ->] | (Hp & Hfree & i & free & out & _ & ->)]; [done|].
    apply unique_by_new; [done|]. intros j' Hj' _. cbn [jid].
    by apply freejid_pos.
  - destruct (deletejob_result jobs p) as [-> | [i ->]]; [done|].
    by apply unique_by_clear.
Qed.

Lemma unique_pids_apply verbose jobs o :
  match o with
  | Register p _ _ => pid_unused jobs p = true
  | Remove _ => True
  end ->
  unique_pids jobs -> unique_pids (apply_op verbose jobs o).
Proof.
  intros Hfresh Hu. destruct o as [p st cmd | p]; cbn [apply_op].
  - destruct (addjob_result verbose jobs p st cmd)
      as [[out ->] | (Hp & Hfree & i & free & out & _ & ->)]; [done|].
    apply unique_by_new; [done|]. intros j' Hj' Hlive. cbn [pid].
    by eapply pid_unused_spec.
  - destruct (deletejob_result jobs p) as [-> | [i ->]]; [done|].
    by apply unique_by_clear.
Qed.

Lemma run_invariant verbose ops jobs :
  Forall slot_ok jobs -> unique_jids jobs ->
  Forall slot_ok (run verbose jobs ops) /\
  unique_jids (run verbose jobs ops) /\
  (fresh_pids verbose jobs ops = true -> unique_pids jobs ->
   unique_pids (run verbose jobs ops)).
Proof.
  revert jobs. induction ops as [|o ops IH]; intros jobs Hok Hu; [done|].
  cbn [run fresh_pids].
  destruct (IH (apply_op verbose jobs o)) as (IH1 & IH2 & IH3);
    [by apply slots_ok_apply | by apply unique_jids_apply |].
  split_and!; [done..|].
  intros [Hfresh Hrest]%andb_true_iff Hp. apply IH3; [done|].
  apply unique_pids_apply; [|done]. by destruct o.
Qed.

(** The id [freejid] hands out, on a table whose slots are well formed. *)
Lemma freejid_smallest_unused jobs :
  Forall slot_ok jobs -> freejid jobs <> 0 ->
  smallest_unused jobs (freejid jobs).
Proof.
  intros Hok Hfree. destruct (freejid_pos jobs Hfree) as (Hr & Hnew & Hsmall).
  split_and!; [lia | by auto |].
  intros k Hk. destruct (Hsmall k) as (j & Hj & Hjid); [lia|].
  exists j. split_and!; [done | | done].
  apply slot_ok_live; [|lia]. rewrite Forall_forall in Hok. auto.
Qed.

(** C1 (amended).  After every sequence of [addjob] and [deletejob] calls
    on the initialized table, no two live jobs share a job id, and a
    further successful [addjob] assigns the smallest positive integer that
    no live job has as its id.  No two live jobs share a pid provided
    every registration was for a pid that no slot held at that moment;
    [addjob] itself does not look for the pid in the table. *)
Theorem register_remove_ids (verbose : bool) (ops : list op) :
  let jobs := run verbose initjobs ops in
  unique_jids jobs /\
  (fresh_pids verbose initjobs ops = true -> unique_pids jobs) /\
  (forall p st cmd jobs' out,
     addjob verbose jobs p st cmd = (1, jobs', out) ->
     exists i, (i < length jobs)%nat /\
       jobs' = <[i := Job p (freejid jobs) st cmd]> jobs /\
       smallest_unused jobs (freejid jobs)).
Proof.
  intros jobs.
  destruct (run_invariant verbose ops initjobs) as (Hok & Hu & Hp);
    [apply slots_ok_init | apply unique_by_init |].
  split_and!; [done | |].
  - intros Hfresh. apply Hp; [done | apply unique_by_init].
  - intros p st cmd jobs' out Hadd.
    destruct (addjob_result verbose jobs p st cmd)
      as [[out' Hz] | (_ & Hfree & i & free & out' & Hf & Ho)];
      [congruence|].
    rewrite Hadd in Ho. injection Ho as -> ->.
    exists i. split_and!; [| done | by apply freejid_smallest_unused].
    apply find_slot_lookup in Hf as [Hl _]. by eapply lookup_lt_Some.
Qed.

Lemma register_remove_ids_witness :
  fresh_pids false initjobs sample_ops = true /\
  unique_pids (run false initjobs sample_ops) /\
  exists jobs',
    addjob false (run false initjobs sample_ops) 103 BG ("ls" +:+ nl) =
      (1, jobs', []) /\
    smallest_unused (run false initjobs sample_ops)
      (freejid (run false initjobs sample_ops)).
Proof.
  destruct (register_remove_ids false sample_ops) as (_ & Hp & Hadd).
  split; [reflexivity|]. split; [apply Hp; reflexivity|].
  set (r := addjob false (run false initjobs sample_ops) 103 BG ("ls" +:+ nl)).
  assert (Hr : r = (1, snd (fst r), [])) by (vm_compute; reflexivity).
  exists (snd (fst r)). split; [exact Hr|].
  destruct (Hadd _ _ _ _ _ Hr) as (i & _ & _ & Hs). exact Hs.
Defined.

(** C1, as stated, fails: registering the same pid twice leaves two live
    jobs with that pid. *)
Lemma same_pid_registered_twice :
  ~ unique_pids
      (run false initjobs
         [Register 5 BG ("sleep 1" +:+ nl); Register 5 BG ("sleep 2" +:+ nl)]).
Proof.
  intros Hu.
  assert (0 = 1)%nat as Habs; [|discriminate Habs].
  eapply Hu; [vm_compute; reflexivity | vm_compute; reflexivity | ..];
    cbn; unfold live; cbn; lia.
Qed.

(** * Properties of the signal handlers *)

(** ** Wait statuses: the four tests exclude one another *)

Lemma signaled_not_exited status :
  WIFSIGNALED status = true -> WIFEXITED status = false.
Proof.
  unfold WIFSIGNALED, WIFEXITED, WTERMSIG.
  destruct (Z.eqb_spec (Z.land status 127) 0) as [-> | ?]; [|done].
  vm_compute. congruence.
Qed.

Lemma stopped_low_bits status :
  WIFSTOPPED status = true -> Z.land status 127 = 127.
Proof.
  unfold WIFSTOPPED. intros H%Z.eqb_eq.
  change 127 with (Z.land 255 127) at 1.
  rewrite Z.land_assoc, H. reflexivity.
Qed.

Lemma stopped_not_exited status :
  WIFSTOPPED status = true -> WIFEXITED status = false.
Proof.
  intros H%stopped_low_bits. unfold WIFEXITED, WTERMSIG. by rewrite H.
Qed.

Lemma stopped_not_signaled status :
  WIFSTOPPED status = true -> WIFSIGNALED status = false.
Proof.
  intros H%stopped_low_bits. unfold WIFSIGNALED. by rewrite H.
Qed.

Lemma continued_only status :
  WIFCONTINUED status = true ->
  WIFEXITED status = false /\ WIFSIGNALED status = false /\
  WIFSTOPPED status = false.
Proof. unfold WIFCONTINUED. intros ->%Z.eqb_eq. by vm_compute. Qed.

(** ** [sigchld_handler] *)

Lemma sigchld_reap_no_job jobs p status :
  getjobpid jobs p = None ->
  sigchld_reap jobs p status = (jobs, [notice_no_job p]).
Proof. unfold sigchld_reap. by intros ->. Qed.

(** Termination by a signal: the notice carries the job's id and the job
    is removed. *)
Lemma sigchld_reap_signaled jobs p status job :
  getjobpid jobs p = Some job -> WIFSIGNALED status = true ->
  sigchld_reap jobs p status =
    (<[job := clearjob]> jobs,
     [Printf ("Job [" +:+ fmt_d (jid (deref jobs job)) +:+ "] (" +:+
              fmt_d p +:+ ") terminated by signal " +:+
              fmt_d (WTERMSIG status) +:+ nl)]).
Proof.
  intros Hjob Hsig. unfold sigchld_reap.
  rewrite Hjob, (signaled_not_exited _ Hsig), Hsig.
  by destruct (deletejob_getjobpid _ _ _ Hjob) as [-> _].
Qed.

Lemma deref_alter_state jobs job s :
  (job < length jobs)%nat ->
  deref (alter (set_state s) job jobs) job = set_state s (deref jobs job).
Proof.
  intros [j Hj]%lookup_lt_is_Some. unfold deref.
  by rewrite list_lookup_alter_eq, Hj.
Qed.

Lemma getjobpid_lt jobs p job :
  getjobpid jobs p = Some job -> (job < length jobs)%nat.
Proof.
  intros (_ & j & [Hl _]%find_slot_lookup)%getjobpid_Some.
  by eapply lookup_lt_Some.
Qed.

(** Stop: the job's state becomes [ST], nothing else changes. *)
Lemma sigchld_reap_stopped jobs p status job :
  getjobpid jobs p = Some job -> WIFSTOPPED status = true ->
  sigchld_reap jobs p status =
    (alter (set_state ST) job jobs,
     [Printf ("Job [" +:+ fmt_d (jid (deref jobs job)) +:+ "] (" +:+
              fmt_d p +:+ ") stopped by signal " +:+
              fmt_d (WSTOPSIG status) +:+ nl)]).
Proof.
  intros Hjob Hst. unfold sigchld_reap.
  rewrite Hjob, (stopped_not_exited _ Hst), (stopped_not_signaled _ Hst), Hst.
  rewrite deref_alter_state by (by eapply getjobpid_lt). done.
Qed.

(** Continue: the job's state becomes [BG]. *)
Lemma sigchld_reap_continued jobs p status job :
  getjobpid jobs p = Some job -> WIFCONTINUED status = true ->
  sigchld_reap jobs p status =
    (alter (set_state BG) job jobs,
     [Printf ("Job [" +:+ fmt_d (jid (deref jobs job)) +:+ "] (" +:+
              fmt_d p +:+ ") continued" +:+ nl)]).
Proof.
  intros Hjob Hc. unfold sigchld_reap.
  destruct (continued_only _ Hc) as (-> & -> & ->).
  rewrite Hjob, Hc.
  rewrite deref_alter_state by (by eapply getjobpid_lt). done.
Qed.

(** Normal exit: the job is removed, but the notice is formatted after
    [deletejob] has cleared the slot [job] points to, so the id it prints
    is 0 whatever the job's id was. *)
Lemma sigchld_reap_exited jobs p status job :
  getjobpid jobs p = Some job -> WIFEXITED status = true ->
  sigchld_reap jobs p status =
    (<[job := clearjob]> jobs,
     [Printf ("Job [" +:+ fmt_d 0 +:+ "] (" +:+
              fmt_d p +:+ ") exited with status " +:+
              fmt_d (WEXITSTATUS status) +:+ nl)]).
Proof.
  intros Hjob Hex. unfold sigchld_reap. rewrite Hjob, Hex.
  destruct (deletejob_getjobpid _ _ _ Hjob) as [-> Hd]. cbn [snd].
  by rewrite Hd.
Qed.

(** C3 (fails on the code).  The job with id 1 and pid 100 exits with
    status 0: the handler removes it, and the notice it prints names job
    id 0, not 1. *)
Theorem exit_notice_prints_cleared_id :
  jid (deref one_job 0) = 1 /\
  getjobpid one_job 100 = Some 0%nat /\
  WIFEXITED 0 = true /\
  sigchld_handler [(100, 0)] sigemptyset one_job =
    (initjobs,
     [Sigprocmask SIG_BLOCK sigfillset;
      Printf ("Job [0] (100) exited with status 0" +:+ nl);
      Sigprocmask SIG_SETMASK sigemptyset]).
Proof. vm_compute. repeat split. Qed.

(** C9.  When [waitpid] hands the handler a pid [p > 0] that no slot of
    the table holds, the handler prints the anomaly, changes no slot for
    that pid, and goes on with the remaining results exactly as it would
    have without it. *)
Theorem sigchld_unknown_pid_skipped
    (p status : Z) (ws : list (Z * Z)) (mask : Z) (jobs : list job_t) :
  0 < p -> getjobpid jobs p = None ->
  sigchld_reap jobs p status = (jobs, [notice_no_job p]) /\
  exists jobs' out,
    sigchld_loop ws jobs = (jobs', out) /\
    sigchld_handler ((p, status) :: ws) mask jobs =
      (jobs', Sigprocmask SIG_BLOCK sigfillset :: notice_no_job p :: out ++
              [Sigprocmask SIG_SETMASK mask]).
Proof.
  intros Hp Hnone. split; [by apply sigchld_reap_no_job|].
  destruct (sigchld_loop ws jobs) as [jobs' out] eqn:Hloop.
  exists jobs', out. split; [done|].
  unfold sigchld_handler. cbn [sigchld_loop].
  destruct (Z.ltb_spec 0 p); [|lia].
  by rewrite sigchld_reap_no_job, Hloop.
Qed.

Lemma sigchld_unknown_pid_skipped_witness :
  getjobpid one_job 555 = None /\
  sigchld_handler [(555, 0); (100, 9)] sigemptyset one_job =
    (initjobs,
     [Sigprocmask SIG_BLOCK sigfillset;
      Printf ("sigchld_handler: No job found for PID 555" +:+ nl);
      Printf ("Job [1] (100) terminated by signal 9" +:+ nl);
      Sigprocmask SIG_SETMASK sigemptyset]).
Proof.
  split; [reflexivity|].
  destruct (sigchld_unknown_pid_skipped 555 0 [(100, 9)] sigemptyset one_job)
    as (_ & jobs' & out & Hloop & ->); [lia | reflexivity |].
  vm_compute in Hloop. injection Hloop as <- <-. reflexivity.
Defined.

(** ** [sigint_handler] and [sigtstp_handler] *)

Lemma fgpid_first jobs i j :
  jobs !! i = Some j -> state j = FG ->
  (forall k j', jobs !! k = Some j' -> (k < i)%nat -> state j' <> FG) ->
  fgpid jobs = pid j.
Proof.
  intros Hl Hfg Hfirst. unfold fgpid.
  assert (list_find (fun j => state j = FG) jobs = Some (i, j)) as ->; [|done].
  apply list_find_Some. eauto.
Qed.

Lemma fgpid_nonzero jobs :
  fgpid jobs <> 0 ->
  exists g j, jobs !! g = Some j /\ state j = FG /\ pid j = fgpid jobs.
Proof.
  unfold fgpid.
  destruct (list_find _ jobs) as [[g j]|] eqn:Hf; [|done].
  intros _. apply find_slot_lookup in Hf as [? ?]. by exists g, j.
Qed.

Lemma getjobpid_alter_state (jobs : list job_t) (i : nat) s p :
  getjobpid (alter (set_state s) i jobs) p = getjobpid jobs p.
Proof.
  unfold getjobpid. destruct (p <? 1); [done|].
  by apply (find_slot_alter (fun j => pid j = p)).
Qed.

Lemma set_state_twice (jobs : list job_t) (i : nat) s :
  alter (set_state s) i (alter (set_state s) i jobs) =
  alter (set_state s) i jobs.
Proof. rewrite list_alter_alter_eq. by apply list_alter_ext. Qed.

(** Counting the slots that satisfy a decidable property. *)
Section count.
Context (P : job_t -> Prop) `{!forall j, Decision (P j)}.

Lemma count_zero jobs i j :
  length (filter P jobs) = 0%nat -> jobs !! i = Some j -> ~ P j.
Proof.
  intros Hnil%nil_length_inv Hl HP.
  assert (j ∈ filter P jobs) as Hin.
  { apply list_elem_of_filter. split; [done | by eapply list_elem_of_lookup_2]. }
  rewrite Hnil in Hin. by apply elem_of_nil in Hin.
Qed.

Lemma count_le_1_unique jobs i1 i2 j1 j2 :
  (length (filter P jobs) <= 1)%nat ->
  jobs !! i1 = Some j1 -> jobs !! i2 = Some j2 -> P j1 -> P j2 -> i1 = i2.
Proof.
  revert i1 i2. induction jobs as [|j jobs IH]; intros i1 i2; [done|].
  rewrite filter_cons. intros Hle H1 H2 P1 P2.
  destruct i1 as [|i1], i2 as [|i2]; simplify_eq/=; [done | | |].
  - rewrite decide_True in Hle by done. cbn in Hle.
    destruct (count_zero jobs i2 j2); [lia | done..].
  - rewrite decide_True in Hle by done. cbn in Hle.
    destruct (count_zero jobs i1 j1); [lia | done..].
  - f_equal. apply IH; [|done..]. destruct (decide _); cbn in Hle; lia.
Qed.

Lemma unique_count_le_1 jobs :
  (forall i1 i2 j1 j2,
     jobs !! i1 = Some j1 -> jobs !! i2 = Some j2 -> P j1 -> P j2 ->
     i1 = i2) ->
  (length (filter P jobs) <= 1)%nat.
Proof.
  induction jobs as [|j jobs IH]; intros Hu; [cbn; lia|].
  rewrite filter_cons. destruct (decide (P j)) as [HP | HP].
  - destruct (filter P jobs) as [|x xs] eqn:Hf; [cbn; lia|].
    assert (x ∈ filter P jobs) as [HPx Hx]%list_elem_of_filter
      by (rewrite Hf; left).
    apply list_elem_of_lookup in Hx as [k Hk].
    by specialize (Hu 0%nat (S k) j x eq_refl Hk HP HPx).
  - apply IH. intros i1 i2 j1 j2 H1 H2 P1 P2.
    by specialize (Hu (S i1) (S i2) j1 j2 H1 H2 P1 P2); simplify_eq.
Qed.
End count.

(** Every job in state [FG] is in a slot in state [FG]. *)
Lemma fg_jobs_le_fg_slots jobs : (fg_jobs jobs <= fg_slots jobs)%nat.
Proof.
  unfold fg_jobs, fg_slots. induction jobs as [|j jobs IH]; [done|].
  rewrite !filter_cons.
  destruct (decide (state j = FG)), (decide (state j = FG /\ pid j <> 0));
    cbn; lia.
Qed.

Lemma sigtstp_handler_table jobs :
  fst (sigtstp_handler jobs) = jobs \/
  exists job,
    fgpid jobs <> 0 /\ getjobpid jobs (fgpid jobs) = Some job /\
    fst (sigtstp_handler jobs) = alter (set_state ST) job jobs.
Proof.
  unfold sigtstp_handler.
  destruct (Z.eqb_spec (fgpid jobs) 0) as [? | Hfg]; [by left|].
  destruct (getjobpid jobs (fgpid jobs)) as [job|] eqn:Hjob; [|by left].
  right. by exists job.
Qed.

(** On a table in which at most one slot in state [FG] holds a job (a pid
    other than 0), running [sigtstp_handler] a second time changes nothing
    more: the table after two runs is the table after one. *)
Lemma sigtstp_twice_one_fg_job (jobs : list job_t) :
  (fg_jobs jobs <= 1)%nat ->
  fst (sigtstp_handler (fst (sigtstp_handler jobs))) =
  fst (sigtstp_handler jobs).
Proof.
  intros Hone.
  destruct (sigtstp_handler_table jobs) as [Hsame | (job & Hfg & Hjob & ->)];
    [by rewrite !Hsame|].
  set (jobs' := alter (set_state ST) job jobs).
  destruct (sigtstp_handler_table jobs') as [Hsame | (job' & Hfg' & Hjob' & ->)];
    [done|].
  assert (fgpid jobs' = fgpid jobs) as Heq.
  { destruct (fgpid_nonzero _ Hfg') as (g' & j' & Hl' & Hs' & Hp').
    destruct (fgpid_nonzero _ Hfg) as (g & j & Hl & Hs & Hp).
    rewrite <- Hp', <- Hp. rewrite <- Hp' in Hfg'. rewrite <- Hp in Hfg.
    unfold jobs' in Hl'. rewrite list_lookup_alter in Hl'.
    destruct (decide (job = g')) as [-> | ?].
    - destruct (jobs !! g'); simplify_eq/=.
    - rewrite (count_le_1_unique _ jobs g' g j' j Hone) in Hl' by done.
      by simplify_eq. }
  rewrite Heq in Hjob'. unfold jobs' in Hjob' at 1.
  rewrite getjobpid_alter_state, Hjob in Hjob'. injection Hjob' as <-.
  apply set_state_twice.
Qed.

(** The bound on the jobs in state [FG] is needed: on a table with two
    jobs in state [FG], which no run of the shell produces, the first run
    stops one job and the second run stops the other. *)
Lemma sigtstp_twice_differs :
  fst (sigtstp_handler (fst (sigtstp_handler two_fg))) <>
  fst (sigtstp_handler two_fg).
Proof. vm_compute. discriminate. Qed.

Lemma sigint_handler_table jobs : fst (sigint_handler jobs) = jobs.
Proof. unfold sigint_handler. by destruct (fgpid jobs =? 0). Qed.

Lemma sigint_handler_kills jobs e :
  e ∈ snd (sigint_handler jobs) ->
  exists i j, jobs !! i = Some j /\ state j = FG /\ pid j <> 0 /\
    e = Kill (- pid j) SIGINT.
Proof.
  unfold sigint_handler. destruct (Z.eqb_spec (fgpid jobs) 0) as [? | Hfg].
  - by intros ?%elem_of_nil.
  - intros ->%list_elem_of_singleton.
    destruct (fgpid_nonzero jobs Hfg) as (i & j & Hl & Hs & Hp).
    exists i, j. by rewrite Hp.
Qed.

(** [sigint_handler] leaves the table exactly as it is.
    Whatever it sends is SIGINT to the negated pid of a job in state [FG],
    that is to the job's process group; and when the first slot in state
    [FG] holds a job (pid [p], not 0), which is the foreground job whenever
    a single slot is in state [FG], its only action is [kill(-p, SIGINT)]. *)
Theorem sigint_no_mutation_kills_group (jobs : list job_t) :
  fst (sigint_handler jobs) = jobs /\
  (forall e, e ∈ snd (sigint_handler jobs) ->
     exists i j, jobs !! i = Some j /\ state j = FG /\ pid j <> 0 /\
       e = Kill (- pid j) SIGINT) /\
  (forall i j,
     jobs !! i = Some j -> state j = FG -> pid j <> 0 ->
     (forall k j', jobs !! k = Some j' -> (k < i)%nat -> state j' <> FG) ->
     snd (sigint_handler jobs) = [Kill (- pid j) SIGINT]).
Proof.
  split_and!; [apply sigint_handler_table | apply sigint_handler_kills |].
  intros i j Hl Hfg Hp Hfirst. unfold sigint_handler.
  rewrite (fgpid_first jobs i j) by done.
  by destruct (Z.eqb_spec (pid j) 0).
Qed.

Lemma sigint_no_mutation_kills_group_witness :
  fst (sigint_handler fg_job) = fg_job /\
  snd (sigint_handler fg_job) = [Kill (-100) SIGINT].
Proof.
  destruct (sigint_no_mutation_kills_group fg_job) as (Hsame & _ & Hkill).
  split; [exact Hsame|].
  apply (Hkill 0%nat (Job 100 1 FG ("sleep 1" +:+ nl)));
    [reflexivity | reflexivity | discriminate | intros; lia].
Defined.

(** In the table that the run [race_9] ends with, job 2 (pid 101) is in
    state [FG], yet the handler sends nothing, for the first slot in state
    [FG] is a cleared one. *)
Lemma sigint_misses_fg_job :
  ~ (forall i j,
       tbl race_9 !! i = Some j -> state j = FG -> pid j <> 0 ->
       snd (sigint_handler (tbl race_9)) = [Kill (- pid j) SIGINT]).
Proof.
  intros Hrelay.
  specialize (Hrelay 1%nat (Job 101 2 FG ("sleep 100" +:+ nl))
                eq_refl eq_refl ltac:(discriminate)).
  vm_compute in Hrelay. discriminate Hrelay.
Qed.

(** [sigchld_handler] runs its whole body with every signal blocked and
    puts the mask of its entry back; the two relay handlers never call
    [sigprocmask]. *)
Lemma sigchld_handler_masks ws mask jobs :
  masks_whole_body mask (snd (sigchld_handler ws mask jobs)).
Proof.
  unfold sigchld_handler, masks_whole_body.
  destruct (sigchld_loop ws jobs) as [jobs' out]. cbn [snd]. split; [done|].
  by rewrite app_comm_cons, last_snoc.
Qed.

Lemma sigint_handler_trace jobs :
  snd (sigint_handler jobs) = [] \/
  snd (sigint_handler jobs) = [Kill (- fgpid jobs) SIGINT].
Proof. unfold sigint_handler. destruct (fgpid jobs =? 0); auto. Qed.

Lemma sigtstp_handler_trace jobs :
  snd (sigtstp_handler jobs) = [] \/
  snd (sigtstp_handler jobs) = [Kill (- fgpid jobs) SIGTSTP].
Proof.
  unfold sigtstp_handler. destruct (fgpid jobs =? 0); [auto|].
  destruct (getjobpid jobs (fgpid jobs)); auto.
Qed.

(** C8 (fails on the code).  Whatever the table and the mask on entry,
    neither [sigint_handler] nor [sigtstp_handler] blocks the signals on
    entry and restores the mask on exit, although [sigtstp_handler] writes
    to the table; only [sigchld_handler] does. *)
Theorem relay_handlers_do_not_mask
    (jobs : list job_t) (mask : Z) (ws : list (Z * Z)) :
  ~ masks_whole_body mask (snd (sigint_handler jobs)) /\
  ~ masks_whole_body mask (snd (sigtstp_handler jobs)) /\
  masks_whole_body mask (snd (sigchld_handler ws mask jobs)).
Proof.
  split_and!; [| | apply sigchld_handler_masks].
  - intros [Hhead _]. by destruct (sigint_handler_trace jobs) as [Ht | Ht];
      rewrite Ht in Hhead.
  - intros [Hhead _]. by destruct (sigtstp_handler_trace jobs) as [Ht | Ht];
      rewrite Ht in Hhead.
Qed.

Example relay_handlers_on_fg_job :
  sigint_handler fg_job = (fg_job, [Kill (-100) SIGINT]) /\
  sigtstp_handler fg_job =
    (alter (set_state ST) 0%nat one_job, [Kill (-100) SIGTSTP]).
Proof. vm_compute. done. Qed.

(** * Properties of [do_bgfg] *)

Lemma first_char_percent s :
  first_char s = "%"%char -> s = String "%" (string_tail s).
Proof. destruct s as [|c s]; [done|]. cbn. by intros ->. Qed.

Lemma rejects_lookup jobs args r argv0 :
  rejects jobs args r ->
  exists msg,
    do_bgfg_lookup argv0 args jobs = Rejected msg /\
    rejection_text argv0 r msg.
Proof.
  destruct 1 as [| a1 rest Hc Hn | a1 rest Hc Hn
                 | a1 rest Hc Hn Hno | a1 rest Hc Hn Hno];
    cbn [do_bgfg_lookup rejection_text].
  - eauto.
  - rewrite Hc. cbn [Ascii.eqb Bool.eqb].
    destruct (Z.leb_spec (atoi (string_tail a1)) 0); [eauto | lia].
  - destruct (Ascii.eqb_spec (first_char a1) "%"); [done|].
    destruct (Z.leb_spec (atoi a1) 0); [eauto | lia].
  - rewrite Hc. cbn [Ascii.eqb Bool.eqb].
    destruct (Z.leb_spec (atoi (string_tail a1)) 0); [lia|].
    rewrite (proj2 (getjobjid_None jobs _)) by (by right).
    eexists. split; [done|]. left. exists (string_tail a1).
    by rewrite <- first_char_percent.
  - destruct (Ascii.eqb_spec (first_char a1) "%"); [done|].
    destruct (Z.leb_spec (atoi a1) 0); [lia|].
    rewrite (proj2 (getjobpid_None jobs _)) by (by right).
    eexists. split; [done|]. right. by exists (atoi a1).
Qed.

Lemma rejection_text_distinct argv0 argv0' r r' msg :
  argv0 = "bg" \/ argv0 = "fg" -> argv0' = "bg" \/ argv0' = "fg" ->
  rejection_text argv0 r msg -> rejection_text argv0' r' msg -> r = r'.
Proof.
  intros [-> | ->] [-> | ->]; destruct r, r'; cbn; try done;
    intros H1 H2; exfalso;
    repeat match goal with
           | H : _ \/ _ |- _ => destruct H
           | H : exists _, _ |- _ => destruct H
           end; simplify_eq.
Qed.

(** What [do_bgfg] refuses by its own tests, it refuses cleanly.  For the
    commands [bg] and [fg]: a missing argument, an argument for which
    [atoi] returns no positive number, and a positive value of [atoi] that
    no slot of the table carries are each answered by one printed message
    and an immediate return, the table being exactly what it was; and the
    messages of two different kinds of rejection are never the same
    text. *)
Theorem bgfg_rejects_without_mutation
    (argv0 : string) (args : list string) (jobs : list job_t) (r : rejection) :
  argv0 = "bg" \/ argv0 = "fg" ->
  rejects jobs args r ->
  exists msg,
    rejection_text argv0 r msg /\
    (forall kill_ret ws,
       do_bgfg argv0 args kill_ret ws jobs = (Returned, jobs, [Printf msg])) /\
    (forall argv0' r' msg',
       argv0' = "bg" \/ argv0' = "fg" ->
       rejection_text argv0' r' msg' -> r' <> r -> msg' <> msg).
Proof.
  intros Hcmd Hrej.
  destruct (rejects_lookup jobs args r argv0 Hrej) as (msg & Hlook & Htext).
  exists msg. split_and!; [done | |].
  - intros kill_ret ws. unfold do_bgfg. by rewrite Hlook.
  - intros argv0' r' msg' Hcmd' Htext' Hne ->.
    apply Hne. exact (rejection_text_distinct _ _ _ _ _ Hcmd' Hcmd Htext' Htext).
Qed.

(** The reading of "parses as a positive integer" is that of [atoi]: the
    digits at the front of the text count, whatever follows them. *)
Example bgfg_numeric_prefix :
  do_bgfg_lookup "bg" ["%1abc"] one_job = Resolved 0 100 /\
  do_bgfg_lookup "bg" ["abc1"] one_job =
    Rejected ("bg: argument must be a PID or %jobid" +:+ nl).
Proof. by vm_compute. Qed.

Lemma bgfg_rejects_without_mutation_witness :
  do_bgfg "fg" ["%7"] 0 [] one_job =
    (Returned, one_job, [Printf ("%7: No such job" +:+ nl)]) /\
  do_bgfg "bg" ["-3"] 0 [] one_job =
    (Returned, one_job,
     [Printf ("bg: argument must be a PID or %jobid" +:+ nl)]) /\
  do_bgfg "bg" [] 0 [] one_job =
    (Returned, one_job,
     [Printf ("bg command requires PID or %jobid argument" +:+ nl)]).
Proof.
  assert (H7 : rejects one_job ["%7"] NoSuchJob).
  { apply rejects_jid_unknown; [reflexivity | reflexivity |].
    intros j Hj. vm_compute in Hj.
    repeat (apply elem_of_cons in Hj as [-> | Hj]; [by vm_compute|]).
    by apply elem_of_nil in Hj. }
  assert (H3 : rejects one_job ["-3"] InvalidArgument).
  { apply rejects_pid_invalid; [discriminate | by vm_compute]. }
  destruct (bgfg_rejects_without_mutation "fg" ["%7"] one_job NoSuchJob
              (or_intror eq_refl) H7) as (m7 & _ & E7 & _).
  destruct (bgfg_rejects_without_mutation "bg" ["-3"] one_job InvalidArgument
              (or_introl eq_refl) H3) as (m3 & _ & E3 & _).
  destruct (bgfg_rejects_without_mutation "bg" [] one_job MissingArgument
              (or_introl eq_refl) (rejects_missing one_job))
    as (m0 & _ & E0 & _).
  split_and!.
  - rewrite E7. generalize (E7 0 []). vm_compute. by intros [= <-].
  - rewrite E3. generalize (E3 0 []). vm_compute. by intros [= <-].
  - rewrite E0. generalize (E0 0 []). vm_compute. by intros [= <-].
Defined.

(** * The race in [do_bgfg] *)

Lemma race_steps : reachable false race_9.
Proof.
  unfold reachable.
  eapply rtc_l; [apply (step_eval false false race_0 ("sleep 1" +:+ nl) 100);
                 [reflexivity | by vm_compute | by right; vm_compute] |].
  eapply rtc_l; [apply (step_eval false false race_1 ("sleep 100" +:+ nl) 101);
                 [reflexivity | by vm_compute | by right; vm_compute] |].
  eapply rtc_l; [apply (step_eval false false race_2 ("fg %1" +:+ nl) (-1));
                 [reflexivity | by vm_compute | by left] |].
  eapply rtc_l; [apply (step_bgfg_pid false false race_3 "fg" 0);
                 reflexivity |].
  eapply rtc_l; [apply (step_bgfg_kill false false race_3_pid "fg" 0 100 0);
                 reflexivity |].
  eapply rtc_l; [apply (step_sigchld false false race_4 [(100, 0)]);
                 by vm_compute |].
  eapply rtc_l; [apply (step_bgfg_state false false race_5 "fg" 0);
                 reflexivity |].
  eapply rtc_l; [apply (step_eval false false race_6 ("fg %2" +:+ nl) (-1));
                 [reflexivity | by vm_compute | by left] |].
  eapply rtc_l; [apply (step_bgfg_pid false false race_7 "fg" 1);
                 reflexivity |].
  eapply rtc_l; [apply (step_bgfg_kill false false race_7_pid "fg" 1 101 0);
                 reflexivity |].
  eapply rtc_l; [apply (step_bgfg_state false false race_8 "fg" 1);
                 reflexivity |].
  apply rtc_refl.
Qed.

(** C2 (fails on the code).  [fg %1] is typed while job 1 exits: the
    handler clears the slot after [do_bgfg] has looked the job up and sent
    SIGCONT, and [do_bgfg] then writes [FG] through its stale pointer.  The
    cleared slot keeps the state [FG]; after [fg %2] two slots are in
    state [FG], and [fgpid] reports the pid 0 of the cleared one. *)
Theorem stale_pointer_two_fg_slots :
  reachable false race_9 /\
  at_pc race_9 = Waitfg 101 false /\
  tbl race_9 !! 0%nat = Some (Job 0 0 FG "") /\
  tbl race_9 !! 1%nat = Some (Job 101 2 FG ("sleep 100" +:+ nl)) /\
  fg_slots (tbl race_9) = 2%nat /\
  fgpid (tbl race_9) = 0.
Proof. split; [apply race_steps | by vm_compute]. Qed.

(** * One foreground job at most; one foreground slot if [do_bgfg] were masked *)

Lemma fg_pids_none stale p jobs :
  fg_pids stale None jobs -> fg_pids stale (Some p) jobs.
Proof. intros Hno i j Hl Hfg. destruct (Hno i j) as [? | ?]; by auto. Qed.

Lemma quiets_refl jobs : quiets jobs jobs.
Proof. by split_and!. Qed.

Lemma quiets_trans jobs1 jobs2 jobs3 :
  quiets jobs1 jobs2 -> quiets jobs2 jobs3 -> quiets jobs1 jobs3.
Proof.
  intros (A0 & A1 & A2 & A3) (B0 & B1 & B2 & B3).
  split_and!; [congruence | by auto.. |].
  intros k j' Hl Hfg. by eauto.
Qed.

Lemma quiets_fg_pids stale p jobs jobs' :
  quiets jobs jobs' -> fg_pids stale p jobs -> fg_pids stale p jobs'.
Proof. intros (_ & _ & _ & Hq) Hfg i j Hl Hs. eapply Hfg; eauto. Qed.

Lemma lookup_alter_state (jobs : list job_t) (i k : nat) s j' :
  alter (set_state s) i jobs !! k = Some j' ->
  (i <> k /\ jobs !! k = Some j') \/
  (i = k /\ exists j, jobs !! k = Some j /\ j' = set_state s j).
Proof.
  rewrite list_lookup_alter. destruct (decide (i = k)) as [-> | ?]; [|auto].
  intros (j & ? & ?)%fmap_Some. right. by eauto.
Qed.

Lemma slots_ok_alter_state (jobs : list job_t) (i : nat) s :
  Forall slot_ok jobs -> Forall slot_ok (alter (set_state s) i jobs).
Proof. intros Hok. by apply Forall_alter. Qed.

Lemma unique_by_alter_state key (jobs : list job_t) (i : nat) s :
  (forall j, key (set_state s j) = key j) ->
  unique_by key jobs -> unique_by key (alter (set_state s) i jobs).
Proof.
  intros Hkey Hu i1 i2 j1 j2 H1 H2 L1 L2 Hk.
  apply lookup_alter_state in H1 as [[_ H1] | (_ & j1' & H1 & ->)];
    apply lookup_alter_state in H2 as [[_ H2] | (_ & j2' & H2 & ->)];
    rewrite ?Hkey in Hk; by eapply Hu.
Qed.

Lemma quiets_alter_state (jobs : list job_t) (i : nat) s :
  s <> FG -> quiets jobs (alter (set_state s) i jobs).
Proof.
  intros Hs. split_and!.
  - apply length_alter.
  - apply slots_ok_alter_state.
  - by apply unique_by_alter_state.
  - intros k j' [[_ ?] | (_ & j & _ & ->)]%lookup_alter_state Hfg; done.
Qed.

Lemma quiets_clear jobs i : quiets jobs (<[i := clearjob]> jobs).
Proof.
  split_and!.
  - apply length_insert.
  - intros Hok. apply Forall_insert; [done | by left].
  - apply unique_by_clear.
  - intros k j' [(_ & <- & _) | (_ & ?)]%list_lookup_insert_Some Hfg; done.
Qed.

Lemma quiets_deletejob jobs p : quiets jobs (snd (deletejob jobs p)).
Proof.
  destruct (deletejob_result jobs p) as [-> | [i ->]];
    [apply quiets_refl | apply quiets_clear].
Qed.

Create HintDb quiets discriminated.

#[local] Hint Resolve quiets_refl quiets_clear quiets_deletejob : quiets.
#[local] Hint Extern 1 (quiets _ (alter (set_state _) _ _)) =>
  apply quiets_alter_state; discriminate : quiets.

Lemma quiets_sigchld_reap jobs p status :
  quiets jobs (fst (sigchld_reap jobs p status)).
Proof.
  unfold sigchld_reap. destruct (getjobpid jobs p); [|auto with quiets].
  repeat case_match; cbn [fst]; auto with quiets.
Qed.

Lemma quiets_sigchld_loop ws jobs : quiets jobs (fst (sigchld_loop ws jobs)).
Proof.
  revert jobs. induction ws as [|[p status] ws IH]; intros jobs;
    cbn [sigchld_loop]; [auto with quiets|].
  destruct (0 <? p); [|auto with quiets].
  pose proof (quiets_sigchld_reap jobs p status) as Hreap.
  destruct (sigchld_reap jobs p status) as [jobs1 out1].
  specialize (IH jobs1). destruct (sigchld_loop ws jobs1) as [jobs2 out2].
  by eapply quiets_trans.
Qed.

Lemma quiets_sigchld_handler ws mask jobs :
  quiets jobs (fst (sigchld_handler ws mask jobs)).
Proof.
  unfold sigchld_handler. pose proof (quiets_sigchld_loop ws jobs) as Hq.
  by destruct (sigchld_loop ws jobs).
Qed.

Lemma quiets_sigint_handler jobs : quiets jobs (fst (sigint_handler jobs)).
Proof. rewrite sigint_handler_table. auto with quiets. Qed.

Lemma quiets_sigtstp_handler jobs : quiets jobs (fst (sigtstp_handler jobs)).
Proof.
  destruct (sigtstp_handler_table jobs) as [-> | (job & _ & _ & ->)];
    auto with quiets.
Qed.

(** A handler that only quiets the table keeps the invariant; inside
    [do_bgfg] it may leave [job] pointing to a cleared slot. *)
Lemma shell_inv_deliver stale h sh :
  (forall jobs, quiets jobs (fst (h jobs))) ->
  (stale = false -> in_bgfg sh = false) ->
  shell_inv stale sh -> shell_inv stale (deliver h sh).
Proof.
  intros Hq Hout (Hlen & Hok & Hu & Hpc). unfold deliver.
  specialize (Hq (tbl sh)). destruct (h (tbl sh)) as [jobs' out].
  cbn [fst] in Hq. pose proof Hq as (Q0 & Q1 & Q2 & _).
  split_and!; cbn [tbl at_pc]; [congruence | by auto.. |].
  unfold in_bgfg in Hout. destruct (at_pc sh); cbn [pc_inv] in *.
  - by eapply quiets_fg_pids.
  - by eapply quiets_fg_pids.
  - destruct Hpc as [Hfg _]. split; [by eapply quiets_fg_pids|].
    intros Hs. by specialize (Hout Hs).
  - destruct Hpc as [Hfg _]. split; [by eapply quiets_fg_pids|].
    intros Hs. by specialize (Hout Hs).
  - destruct Hpc as [Hfg _]. split; [by eapply quiets_fg_pids|].
    intros Hs. by specialize (Hout Hs).
  - destruct Hpc as [? ?]. split; [done | by eapply quiets_fg_pids].
  - destruct Hpc as (p & ? & ?). exists p.
    split; [done | by eapply quiets_fg_pids].
Qed.

(** The slot that a lookup by [jid] or by [pid] returns holds a job. *)
Lemma getjobjid_live jobs n job :
  Forall slot_ok jobs -> getjobjid jobs n = Some job ->
  exists j, jobs !! job = Some j /\ 1 <= pid j /\ deref jobs job = j.
Proof.
  intros Hok. unfold getjobjid. destruct (Z.ltb_spec n 1); [done|].
  intros ([i j] & [Hl Hj]%find_slot_lookup & ->)%fmap_Some. cbn [fst].
  exists j. unfold deref. rewrite Hl. split_and!; [done | | done].
  rewrite Forall_lookup in Hok. destruct (Hok _ _ Hl) as [[_ ?] | [? _]]; lia.
Qed.

Lemma getjobpid_live jobs p job :
  getjobpid jobs p = Some job ->
  exists j, jobs !! job = Some j /\ pid j = p /\ 1 <= p.
Proof.
  intros (Hp & j & [Hl Hj]%find_slot_lookup)%getjobpid_Some. by exists j.
Qed.

Lemma do_bgfg_lookup_live argv0 args jobs job p :
  Forall slot_ok jobs ->
  do_bgfg_lookup argv0 args jobs = Resolved job p ->
  exists j, jobs !! job = Some j /\ 1 <= pid j.
Proof.
  intros Hok. unfold do_bgfg_lookup. destruct args as [|argv1 rest]; [done|].
  destruct (Ascii.eqb _ _).
  - destruct (_ <=? 0); [done|].
    destruct (getjobjid jobs _) as [job'|] eqn:Hjob; [|done].
    intros [= <- <-].
    destruct (getjobjid_live _ _ _ Hok Hjob) as (j & ? & ? & _). by exists j.
  - destruct (_ <=? 0); [done|].
    destruct (getjobpid jobs _) as [job'|] eqn:Hjob; [|done].
    intros [= <- <-].
    destruct (getjobpid_live _ _ _ Hjob) as (j & ? & Hj & ?). exists j.
    split; [done | lia].
Qed.

(** A launch registers the job in state [BG]: [bg] is the argument count
    that [parseline] returns, never 0 past the test for an empty line. *)
Lemma shell_inv_eval stale verbose cmdline child sh :
  at_pc sh = Prompt -> fork_result (tbl sh) child ->
  shell_inv stale sh -> shell_inv stale (eval verbose cmdline child sh).
Proof.
  intros Hat Hfork (Hlen & Hok & Hu & Hpc).
  rewrite Hat in Hpc. cbn [pc_inv] in Hpc.
  unfold eval. destruct (parseline cmdline) as [|argv0 args].
  { split_and!; [done.. | by rewrite Hat]. }
  destruct (String.eqb argv0 "quit").
  { split_and!; cbn [tbl at_pc pc_inv]; [done.. |].
    exists 1. split; [lia | by apply fg_pids_none]. }
  destruct (String.eqb argv0 "jobs").
  { by split_and!. }
  destruct (String.eqb argv0 "bg" || String.eqb argv0 "fg").
  { destruct (do_bgfg_lookup argv0 args (tbl sh)) as [msg | job p] eqn:Hlook.
    - by split_and!.
    - destruct (by_jobid args); split_and!; cbn [tbl at_pc pc_inv];
        try done; (split; [done | intros _; by eapply do_bgfg_lookup_live]). }
  assert ((Z.of_nat (length (argv0 :: args)) =? 0) = false) as ->
    by (apply Z.eqb_neq; cbn [length]; lia).
  destruct (addjob_result verbose (tbl sh) child BG cmdline)
    as [[out ->] | (Hp & Hfree & i & free & out & _ & ->)].
  { by split_and!. }
  split_and!; cbn [tbl at_pc pc_inv].
  - by rewrite length_insert.
  - apply Forall_insert; [done|]. right. cbn [pid jid].
    destruct (freejid_pos _ Hfree) as (? & _). lia.
  - apply unique_by_new; [done|]. intros j' Hj' Hlive. cbn [pid].
    destruct Hfork as [-> | [_ Hfresh]]; [lia|]. by eapply pid_unused_spec.
  - intros k j' [(_ & <- & _) | (_ & Hl)]%list_lookup_insert_Some;
      [done | by eapply Hpc].
Qed.

Lemma shell_inv_listjobs stale i point sh :
  at_pc sh = Listjobs i point ->
  shell_inv stale sh -> shell_inv stale (listjobs_step i point sh).
Proof.
  intros Hat (Hlen & Hok & Hu & Hpc). rewrite Hat in Hpc. cbn [pc_inv] in Hpc.
  unfold listjobs_step. destruct point; [|by split_and!..].
  destruct (Nat.ltb i MAXJOBS); [|by split_and!].
  by destruct (pid _ =? 0); split_and!.
Qed.

Lemma shell_inv_bgfg_pid stale argv0 job sh :
  at_pc sh = BgfgPid argv0 job ->
  shell_inv stale sh -> shell_inv stale (bgfg_pid argv0 job sh).
Proof.
  intros Hat (Hlen & Hok & Hu & Hpc). rewrite Hat in Hpc. by split_and!.
Qed.

Lemma shell_inv_bgfg_kill stale argv0 job p ret sh :
  at_pc sh = BgfgKill argv0 job p ->
  shell_inv stale sh -> shell_inv stale (bgfg_kill argv0 job p ret sh).
Proof.
  intros Hat (Hlen & Hok & Hu & Hpc). rewrite Hat in Hpc. cbn [pc_inv] in Hpc.
  unfold bgfg_kill. destruct (ret <? 0); split_and!; cbn [tbl at_pc pc_inv];
    try done.
  exists 1. split; [lia | by apply fg_pids_none, Hpc].
Qed.

(** The state change of [do_bgfg].  Through a pointer to a cleared slot it
    leaves that slot in state [FG], and [waitfg] returns at once. *)
Lemma shell_inv_bgfg_state stale argv0 job sh :
  at_pc sh = BgfgState argv0 job ->
  shell_inv stale sh -> shell_inv stale (bgfg_state argv0 job sh).
Proof.
  intros Hat (Hlen & Hok & Hu & Hpc). rewrite Hat in Hpc. cbn [pc_inv] in Hpc.
  destruct Hpc as (Hno & Hlive).
  unfold bgfg_state, do_bgfg_setstate.
  destruct (String.eqb argv0 "bg"); [|destruct (String.eqb argv0 "fg")].
  - destruct (quiets_alter_state (tbl sh) job BG) as (Q0 & Q1 & Q2 & Q3);
      [done|].
    split_and!; cbn [tbl at_pc pc_inv]; [congruence | by auto.. |].
    by eapply quiets_fg_pids; [apply quiets_alter_state|].
  - set (jobs' := alter (set_state FG) job (tbl sh)).
    assert (Hlen' : length jobs' = MAXJOBS)
      by (unfold jobs'; by rewrite length_alter).
    assert (Hok' : Forall slot_ok jobs') by (by apply slots_ok_alter_state).
    assert (Hu' : unique_pids jobs') by (by apply unique_by_alter_state).
    assert (Hfg' : forall k j', jobs' !! k = Some j' -> state j' = FG ->
              (stale = true /\ pid j' = 0) \/ k = job).
    { intros k j' [[_ Hk] | (<- & _)]%lookup_alter_state Hfg; [|by right].
      destruct (Hno k j' Hk Hfg) as [? | ?]; [by left | done]. }
    assert (Hw : pid (deref jobs' job) = 0 \/ 1 <= pid (deref jobs' job)).
    { unfold deref. destruct (jobs' !! job) as [j'|] eqn:Hj'; [|by left].
      rewrite Forall_lookup in Hok'.
      destruct (Hok' _ _ Hj') as [[? _] | [? _]]; cbn [default]; auto. }
    assert (Hat' : forall j', jobs' !! job = Some j' -> deref jobs' job = j').
    { intros j' Hj'. unfold deref. by rewrite Hj'. }
    destruct (Z.ltb_spec (pid (deref jobs' job)) 1) as [Hlt | Hge].
    + split_and!; cbn [tbl at_pc pc_inv]; [done.. |].
      intros k j' Hk Hfg. destruct (Hfg' k j' Hk Hfg) as [? | ->]; [by left|].
      left. rewrite <- (Hat' j' Hk). split; [|lia].
      destruct stale; [done|]. destruct Hlive as (j & Hj & Hp); [done|].
      unfold jobs' in Hk. rewrite list_lookup_alter_eq, Hj in Hk.
      simplify_eq/=. rewrite (Hat' (set_state FG j)) in Hlt; [cbn in Hlt; lia|].
      unfold jobs'. by rewrite list_lookup_alter_eq, Hj.
    + split_and!; cbn [tbl at_pc pc_inv]; [done.. |]. split; [done|].
      intros k j' Hk Hfg. destruct (Hfg' k j' Hk Hfg) as [? | ->]; [by left|].
      right. by rewrite (Hat' j' Hk).
  - by split_and!.
Qed.

(** The job that [waitfg] waits for is the only one that can be in state
    [FG]; stopping or removing it leaves none. *)
Lemma fg_cleared stale jobs jobs' p job :
  unique_pids jobs -> fg_pids stale (Some p) jobs ->
  getjobpid jobs p = Some job -> quiets jobs jobs' ->
  (forall j', jobs' !! job = Some j' -> state j' <> FG) ->
  fg_pids stale None jobs'.
Proof.
  intros Hu Honly Hjob (_ & _ & _ & Hq) Hnot k j' Hl Hfg.
  pose proof (Hq k j' Hl Hfg) as Hk.
  destruct (Honly k j' Hk Hfg) as [? | [= ->]]; [by left|].
  destruct (getjobpid_live _ _ _ Hjob) as (j & Hj & Hpid & Hp).
  assert (k = job) as ->
    by (eapply (Hu k job j' j); unfold live; try done; lia).
  by destruct (Hnot j').
Qed.

Lemma shell_inv_waitfg_wake stale p from_eval wpid status sh :
  at_pc sh = Waitfg p from_eval ->
  shell_inv stale sh ->
  shell_inv stale (waitfg_wake p from_eval wpid status sh).
Proof.
  intros Hat (Hlen & Hok & Hu & Hpc). rewrite Hat in Hpc. cbn [pc_inv] in Hpc.
  destruct Hpc as [Hp Honly].
  assert (Hret : forall jobs' out,
    length jobs' = MAXJOBS ->
    Forall slot_ok jobs' -> unique_pids jobs' -> fg_pids stale None jobs' ->
    shell_inv stale
      (if from_eval then
         Shell jobs' (sigprocmask SIG_UNBLOCK eval_mask (blocked sh)) Prompt
           (trace sh ++ out ++ [Sigprocmask SIG_UNBLOCK eval_mask])
       else Shell jobs' (blocked sh) Prompt (trace sh ++ out))).
  { intros jobs' out ? ? ? ?. by destruct from_eval; split_and!. }
  unfold waitfg_wake, waitfg_body. destruct (wpid <? 0).
  { split_and!; cbn [tbl at_pc pc_inv]; [done.. | by exists p]. }
  destruct (getjobpid (tbl sh) p) as [job|] eqn:Hjob.
  - destruct (deletejob_getjobpid _ _ _ Hjob) as [Hdel _].
    assert (Hgone : fg_pids stale None (<[job := clearjob]> (tbl sh))).
    { eapply fg_cleared; [done.. | apply quiets_clear |].
      intros j' [(_ & <- & _) | (? & _)]%list_lookup_insert_Some; done. }
    destruct (WIFSTOPPED status); [|destruct (WIFSIGNALED status);
                                    [|destruct (WIFEXITED status)]].
    + apply Hret.
      * by rewrite length_alter.
      * by apply slots_ok_alter_state.
      * by apply unique_by_alter_state.
      * eapply fg_cleared; [done.. | by apply quiets_alter_state |].
        intros j' [[? _] | (_ & j & _ & ->)]%lookup_alter_state; done.
    + rewrite Hdel. cbn [snd].
      apply Hret; [by rewrite length_insert | | by apply unique_by_clear | done].
      apply Forall_insert; [done | by left].
    + rewrite Hdel. cbn [snd].
      apply Hret; [by rewrite length_insert | | by apply unique_by_clear | done].
      apply Forall_insert; [done | by left].
    + split_and!; cbn [tbl at_pc pc_inv]; done.
  - apply Hret; [done.. |]. intros k j Hl Hfg.
    destruct (Honly k j Hl Hfg) as [? | [= ->]]; [by left|].
    apply getjobpid_None in Hjob as [? | Hnone]; [lia|].
    destruct (Hnone j); [by eapply list_elem_of_lookup_2 | done].
Qed.

Lemma shell_inv_boot stale : shell_inv stale boot.
Proof.
  split_and!; cbn [boot tbl at_pc pc_inv].
  - apply length_replicate.
  - apply slots_ok_init.
  - apply unique_by_init.
  - by intros i j [-> _]%lookup_replicate.
Qed.

Lemma shell_inv_step bgfg_masked verbose sh sh' :
  step bgfg_masked verbose sh sh' ->
  shell_inv (negb bgfg_masked) sh -> shell_inv (negb bgfg_masked) sh'.
Proof.
  assert (Hout : forall sig, deliverable bgfg_masked sig sh ->
            negb bgfg_masked = false -> in_bgfg sh = false).
  { intros sig (_ & _ & Hb). by destruct bgfg_masked. }
  destruct 1 as [sh cmdline child | sh i point | sh argv0 job
                 | sh argv0 job p ret | sh argv0 job
                 | sh p from_eval wpid status | sh ws Hd | sh Hd | sh Hd].
  - by apply shell_inv_eval.
  - by apply shell_inv_listjobs.
  - by apply shell_inv_bgfg_pid.
  - by apply shell_inv_bgfg_kill.
  - by apply shell_inv_bgfg_state.
  - by apply shell_inv_waitfg_wake.
  - apply shell_inv_deliver; [apply quiets_sigchld_handler | by eauto].
  - apply shell_inv_deliver; [apply quiets_sigint_handler | by eauto].
  - apply shell_inv_deliver; [apply quiets_sigtstp_handler | by eauto].
Qed.

Lemma shell_inv_reached bgfg_masked verbose sh :
  rtc (step bgfg_masked verbose) boot sh -> shell_inv (negb bgfg_masked) sh.
Proof.
  revert sh. apply rtc_ind_r; [apply shell_inv_boot|].
  intros sh sh' _ Hstep IH. by eapply shell_inv_step.
Qed.

Lemma shell_inv_fg_pids stale sh :
  shell_inv stale sh -> exists p, 1 <= p /\ fg_pids stale (Some p) (tbl sh).
Proof.
  intros (_ & _ & _ & Hpc). destruct (at_pc sh); cbn [pc_inv] in Hpc.
  - exists 1. split; [lia | by apply fg_pids_none].
  - exists 1. split; [lia | by apply fg_pids_none].
  - exists 1. split; [lia | by apply fg_pids_none, Hpc].
  - exists 1. split; [lia | by apply fg_pids_none, Hpc].
  - exists 1. split; [lia | by apply fg_pids_none, Hpc].
  - by eauto.
  - done.
Qed.

(** In every state the shell reaches, the race in [do_bgfg] included, at
    most one job (a slot with a pid) is in state [FG]: what the race
    leaves behind is a cleared slot in state [FG]. *)
Lemma reachable_one_fg_job verbose sh :
  reachable verbose sh -> (fg_jobs (tbl sh) <= 1)%nat.
Proof.
  intros Hinv%shell_inv_reached.
  destruct (shell_inv_fg_pids _ _ Hinv) as (p & Hp & Honly).
  destruct Hinv as (_ & _ & Hu & _).
  apply unique_count_le_1. intros i1 i2 j1 j2 H1 H2 [F1 L1] [F2 L2].
  destruct (Honly _ _ H1 F1) as [[_ ?] | [= ->]]; [done|].
  destruct (Honly _ _ H2 F2) as [[_ ?] | [= E2]]; [done|].
  by eapply (Hu i1 i2 j1 j2).
Qed.

(** Were the handlers kept out of [do_bgfg], at most one slot would be in
    state [FG] in every state the shell reaches. *)
Lemma masked_one_fg_slot verbose sh :
  reachable_masked verbose sh -> (fg_slots (tbl sh) <= 1)%nat.
Proof.
  intros Hinv%shell_inv_reached.
  destruct (shell_inv_fg_pids _ _ Hinv) as (p & Hp & Honly).
  destruct Hinv as (_ & _ & Hu & _).
  apply unique_count_le_1. intros i1 i2 j1 j2 H1 H2 F1 F2.
  destruct (Honly _ _ H1 F1) as [[? _] | [= E1]]; [done|].
  destruct (Honly _ _ H2 F2) as [[? _] | [= E2]]; [done|].
  eapply (Hu i1 i2 j1 j2); unfold live; try done; lia.
Qed.

(** The table keeps its [MAXJOBS] slots, each cleared or holding a job. *)
Lemma reachable_table verbose sh :
  reachable verbose sh ->
  length (tbl sh) = MAXJOBS /\ Forall slot_ok (tbl sh) /\ unique_pids (tbl sh).
Proof. intros (? & ? & ? & _)%shell_inv_reached. done. Qed.

(** * Command lines and their words *)

Lemma string_app_nil (b : string) : "" +:+ b = b.
Proof. reflexivity. Qed.

Lemma string_app_cons x (a b : string) : String x a +:+ b = String x (a +:+ b).
Proof. reflexivity. Qed.

Lemma string_app_nil_r (a : string) : a +:+ "" = a.
Proof.
  induction a as [|x a IH]; [done|]. by rewrite string_app_cons, IH.
Qed.

Lemma string_app_assoc (a b c : string) : (a +:+ b) +:+ c = a +:+ (b +:+ c).
Proof.
  induction a as [|x a IH]; [done|]. by rewrite !string_app_cons, IH.
Qed.

Lemma string_app_length (a b : string) :
  String.length (a +:+ b) = (String.length a + String.length b)%nat.
Proof.
  induction a as [|x a IH]; [done|].
  rewrite string_app_cons. cbn [String.length]. by rewrite IH.
Qed.

Lemma replace_last_app s c : replace_last (s +:+ String c "") = s +:+ " ".
Proof.
  induction s as [|x s IH]; [done|]. rewrite !string_app_cons.
  cbn [replace_last]. rewrite IH.
  destruct s; by rewrite ?string_app_nil, ?string_app_cons.
Qed.

Lemma skip_spaces_spaces n s : skip_spaces (spaces n +:+ s) = skip_spaces s.
Proof.
  induction n as [|n IH]; [done|]. cbn [spaces].
  by rewrite string_app_cons.
Qed.

Lemma skip_spaces_word s :
  Ascii.eqb (first_char s) " " = false -> skip_spaces s = s.
Proof. destruct s as [|c s]; [done|]. cbn. by intros ->. Qed.

Lemma strchr_split_app c w rest :
  occurs c w = false -> strchr_split c (w +:+ String c rest) = Some (w, rest).
Proof.
  induction w as [|d w IH].
  - intros _. rewrite string_app_nil. cbn. by rewrite Ascii.eqb_refl.
  - cbn [occurs]. intros [Hd Hw]%orb_false_elim.
    rewrite string_app_cons. cbn [strchr_split]. by rewrite Hd, IH.
Qed.

Lemma strchr_split_none c s : occurs c s = false -> strchr_split c s = None.
Proof.
  induction s as [|d s IH]; cbn; [done|].
  intros [-> Hs]%orb_false_elim. by rewrite IH.
Qed.

(** One iteration of the loop of [parseline] on a line that starts with
    a well-formed word. *)
Lemma parse_args_token fuel t rest :
  token_ok t = true ->
  parse_args (S fuel) (render_token t +:+ rest) = word t :: parse_args fuel rest.
Proof.
  unfold token_ok, render_token. intros Hok. cbn [parse_args].
  rewrite string_app_assoc, skip_spaces_spaces.
  destruct (quoted t).
  - apply negb_true_iff in Hok. rewrite string_app_cons.
    cbn [skip_spaces first_char Ascii.eqb Bool.eqb string_tail].
    rewrite string_app_assoc, string_app_cons, string_app_nil.
    by rewrite strchr_split_app.
  - apply andb_true_iff in Hok as [[Hsp Hq]%andb_true_iff Hne].
    apply negb_true_iff in Hsp, Hq, Hne. apply String.eqb_neq in Hne.
    rewrite string_app_assoc, string_app_cons, string_app_nil.
    destruct (word t) as [|d w] eqn:Hw; [done|].
    cbn [occurs first_char] in Hsp, Hq.
    apply orb_false_elim in Hsp as [Hd Hsp].
    rewrite skip_spaces_word
      by (by rewrite string_app_cons; cbn [first_char]).
    rewrite string_app_cons at 1. cbn [first_char]. rewrite Hq.
    rewrite strchr_split_app; [done|]. cbn [occurs]. by rewrite Hd, Hsp.
Qed.

Lemma parse_args_render ts fuel rest :
  forallb token_ok ts = true ->
  parse_args (length ts + fuel) (render ts +:+ rest) =
  (word <$> ts) ++ parse_args fuel rest.
Proof.
  induction ts as [|t ts IH]; [done|]. cbn [forallb].
  intros [Ht Hts]%andb_true_iff. cbn [length Nat.add render fmap list_fmap].
  rewrite string_app_assoc, parse_args_token by done. by rewrite IH.
Qed.

Lemma parse_args_blank fuel n : parse_args fuel (spaces n) = [].
Proof.
  destruct fuel as [|fuel]; [done|]. cbn [parse_args].
  by rewrite <- (string_app_nil_r (spaces n)), skip_spaces_spaces.
Qed.

Lemma parse_args_open_quote fuel n s :
  occurs "'" s = false -> parse_args fuel (spaces n +:+ String "'" s) = [].
Proof.
  intros Hs. destruct fuel as [|fuel]; [done|]. cbn [parse_args].
  rewrite skip_spaces_spaces. cbn [skip_spaces first_char].
  cbn [Ascii.eqb Bool.eqb string_tail]. by rewrite strchr_split_none.
Qed.

Lemma parseline_render ts line rest :
  forallb token_ok ts = true ->
  replace_last line = render ts +:+ rest ->
  parseline line = (word <$> ts) ++ parse_args (String.length line) rest.
Proof.
  intros Hts Hline.
  rewrite (parseline_fuel line (length ts + String.length line)) by lia.
  by rewrite Hline, parse_args_render.
Qed.

(** X1.  Splitting is the inverse of joining: when the line, its last
    character replaced by a blank, is a sequence of well-formed words (each
    after any number of blanks, quoted or plain) followed by blanks only,
    [parseline] returns exactly these words, in order, the quoted ones
    without their quotes. *)
Theorem parseline_words (ts : list token) (n : nat) (line : string) :
  forallb token_ok ts = true ->
  replace_last line = render ts +:+ spaces n ->
  parseline line = word <$> ts.
Proof.
  intros Hts Hline. rewrite (parseline_render ts line (spaces n)) by done.
  by rewrite parse_args_blank, app_nil_r.
Qed.

Lemma parseline_words_witness :
  parseline (" echo 'a b'  c" +:+ nl) = ["echo"; "a b"; "c"].
Proof.
  apply (parseline_words
           [Token 1 false "echo"; Token 0 true "a b"; Token 2 false "c"] 0).
  - reflexivity.
  - reflexivity.
Defined.

(** X2.  A quote that is never closed ends the argument vector: the words
    in front of it are returned, and everything from the opening quote to
    the end of the line is dropped without a message. *)
Theorem parseline_open_quote_drops_rest
    (ts : list token) (n : nat) (s line : string) :
  forallb token_ok ts = true ->
  occurs "'" s = false ->
  replace_last line = render ts +:+ spaces n +:+ String "'" s ->
  parseline line = word <$> ts.
Proof.
  intros Hts Hs Hline.
  rewrite (parseline_render ts line (spaces n +:+ String "'" s)) by done.
  by rewrite parse_args_open_quote, app_nil_r.
Qed.

Lemma parseline_open_quote_drops_rest_witness :
  parseline ("echo 'a b c" +:+ nl) = ["echo"].
Proof.
  apply (parseline_open_quote_drops_rest [Token 0 false "echo"] 0 "a b c ").
  - reflexivity.
  - reflexivity.
  - reflexivity.
Defined.

Lemma render_args_length n :
  String.length (render (replicate n (Token 0 false "a"))) = (2 * n)%nat.
Proof.
  induction n as [|n IH]; [done|]. cbn [replicate render].
  rewrite string_app_length, IH.
  change (String.length (render_token (Token 0 false "a"))) with 2%nat. lia.
Qed.

Lemma argv_stores_lookup cmdline k :
  argv_stores cmdline !! k =
  match parseline cmdline !! k with
  | Some tok => Some (k, Some tok)
  | None =>
      if decide (k = length (parseline cmdline)) then Some (k, None) else None
  end.
Proof.
  unfold argv_stores.
  destruct (parseline cmdline !! k) as [tok|] eqn:Hk.
  - rewrite lookup_app_l, list_lookup_imap, Hk; [done|].
    rewrite length_imap. by eapply lookup_lt_Some.
  - apply lookup_ge_None in Hk.
    rewrite lookup_app_r, length_imap by (by rewrite length_imap).
    destruct (decide (k = length (parseline cmdline))) as [-> | Hne].
    + by rewrite Nat.sub_diag.
    + apply lookup_ge_None. cbn. lia.
Qed.

(** X3.  [parseline] does not compare [argc] with [MAXARGS].  For a line
    of [n] arguments, [n] at least [MAXARGS], that is short enough for
    [fgets], the first [MAXARGS] stores into [argv] are inside the array
    [argv[MAXARGS]] of [eval], and the store that follows them is at index
    [MAXARGS], past its end: for [n = MAXARGS] it is [argv[argc] = NULL],
    for a larger [n] it is the store [argv[argc++] = buf] of the next
    argument. *)
Theorem parseline_no_argv_bound (n : nat) :
  (MAXARGS <= n)%nat -> Z.of_nat (2 * n + 1) < MAXLINE ->
  fgets_line (arg_line n) /\
  parseline (arg_line n) = replicate n "a" /\
  (forall k store,
     (k < MAXARGS)%nat -> argv_stores (arg_line n) !! k = Some store ->
     past_argv store = false) /\
  argv_stores (arg_line n) !! MAXARGS =
    Some (MAXARGS, if decide (n = MAXARGS) then None else Some "a") /\
  (forall v, past_argv (MAXARGS, v) = true).
Proof.
  intros Hn Hlen.
  assert (Hargs : parseline (arg_line n) = replicate n "a").
  { rewrite (parseline_render (replicate n (Token 0 false "a")) (arg_line n)
               (spaces 1)).
    - by rewrite parse_args_blank, app_nil_r, fmap_replicate.
    - clear. by induction n as [|n IH].
    - unfold arg_line, nl. by rewrite replace_last_app. }
  split_and!; [| done | | | done].
  - split.
    + unfold arg_line. by destruct (render _).
    + unfold arg_line, nl.
      rewrite string_app_length, render_args_length. cbn. lia.
  - intros k store Hk. rewrite argv_stores_lookup, Hargs.
    rewrite lookup_replicate_2 by lia. intros [= <-].
    unfold past_argv. cbn [fst]. apply Nat.leb_gt. lia.
  - rewrite argv_stores_lookup, Hargs, length_replicate.
    destruct (decide (n = MAXARGS)) as [-> | Hne].
    + assert (replicate MAXARGS "a" !! MAXARGS = @None string) as ->
        by (apply lookup_ge_None; rewrite length_replicate; lia).
      by rewrite decide_True.
    + by rewrite lookup_replicate_2 by lia.
Qed.

Lemma parseline_no_argv_bound_witness :
  fgets_line (arg_line 128) /\
  parseline (arg_line 128) = replicate 128 "a" /\
  (forall k store,
     (k < MAXARGS)%nat -> argv_stores (arg_line 128) !! k = Some store ->
     past_argv store = false) /\
  argv_stores (arg_line 128) !! MAXARGS =
    Some (MAXARGS, if decide (128%nat = MAXARGS) then None else Some "a") /\
  (forall v, past_argv (MAXARGS, v) = true).
Proof.
  apply (parseline_no_argv_bound 128).
  - unfold MAXARGS. lia.
  - unfold MAXLINE. lia.
Defined.

(** * Capacity of the table; registration, removal and the lookups *)

Section find_miss.
Context (P : job_t -> Prop) `{!forall j, Decision (P j)}.

(** A write to a slot that has the property neither before nor after
    leaves the search for the first slot with the property as it was. *)
Lemma find_slot_alter_miss (f : job_t -> job_t) (jobs : list job_t) (i : nat) :
  (forall j, jobs !! i = Some j -> ~ P j /\ ~ P (f j)) ->
  list_find P (alter f i jobs) = list_find P jobs.
Proof.
  intros Hmiss. destruct (list_find P jobs) as [[k j]|] eqn:Hfind.
  - apply list_find_Some in Hfind as (Hl & Hj & Hfirst).
    apply list_find_Some. split_and!; [| done |].
    + rewrite list_lookup_alter. destruct (decide (i = k)) as [-> | ?]; [|done].
      by destruct (Hmiss j Hl).
    + intros k' j' Hl' Hlt. rewrite list_lookup_alter in Hl'.
      destruct (decide (i = k')) as [-> | ?]; [|by eapply Hfirst].
      apply fmap_Some in Hl' as (j0 & Hj0 & ->). by destruct (Hmiss j0 Hj0).
  - apply list_find_None in Hfind. apply list_find_None.
    apply Forall_alter; [done|]. intros j Hl _. by destruct (Hmiss j Hl).
Qed.

Lemma find_slot_insert_miss (x : job_t) (jobs : list job_t) (i : nat) :
  ~ P x -> (forall j, jobs !! i = Some j -> ~ P j) ->
  list_find P (<[i := x]> jobs) = list_find P jobs.
Proof.
  intros Hx Hold. rewrite list_insert_alter. apply find_slot_alter_miss.
  intros j Hj. split; [by eapply Hold | done].
Qed.

End find_miss.

Lemma pid2jid_getjobpid jobs p :
  pid2jid jobs p =
  match getjobpid jobs p with
  | Some job => jid (deref jobs job)
  | None => 0
  end.
Proof.
  unfold pid2jid, getjobpid, deref. destruct (p <? 1); [done|].
  destruct (list_find _ jobs) as [[i j]|] eqn:Hfind; [|done].
  apply find_slot_lookup in Hfind as [Hl _]. cbn. by rewrite Hl.
Qed.

(** Every id from 1 to [MAXJOBS] taken: no slot is without an id. *)
Lemma jids_all_taken jobs j :
  length jobs = MAXJOBS -> freejid jobs = 0 -> j ∈ jobs -> jid j <> 0.
Proof.
  intros Hlen Hfull Hj.
  assert (Hperm : seqZ 1 (Z.of_nat MAXJOBS) ≡ₚ jid <$> jobs).
  { apply submseteq_length_Permutation.
    - apply NoDup_submseteq; [apply NoDup_seqZ|].
      intros k Hk%elem_of_seqZ.
      destruct (freejid_zero jobs k Hfull) as (j' & Hj' & <-); [lia|].
      apply list_elem_of_fmap. by exists j'.
    - rewrite length_fmap, length_seqZ, Hlen. lia. }
  assert (Hin : jid j ∈ seqZ 1 (Z.of_nat MAXJOBS)).
  { rewrite Hperm. apply list_elem_of_fmap. by exists j. }
  apply elem_of_seqZ in Hin. lia.
Qed.

(** Every slot taken by a job: no id from 1 to [MAXJOBS] is free. *)
Lemma jids_none_free jobs :
  length jobs = MAXJOBS -> Forall slot_ok jobs -> unique_jids jobs ->
  (forall j, j ∈ jobs -> pid j <> 0) -> freejid jobs = 0.
Proof.
  intros Hlen Hok Hu Hfull.
  destruct (decide (freejid jobs = 0)) as [? | Hfree]; [done|].
  destruct (freejid_pos jobs Hfree) as (Hrange & Hnot & _).
  assert (Hperm : jid <$> jobs ≡ₚ seqZ 1 (Z.of_nat MAXJOBS)).
  { apply submseteq_length_Permutation.
    - apply NoDup_submseteq.
      + apply NoDup_alt. intros i1 i2 n H1 H2.
        rewrite list_lookup_fmap in H1, H2.
        apply fmap_Some in H1 as (j1 & H1 & ->).
        apply fmap_Some in H2 as (j2 & H2 & E).
        apply (Hu i1 i2 j1 j2); [done.. | | | done];
          apply Hfull; by eapply list_elem_of_lookup_2.
      + intros n (j & -> & Hj)%list_elem_of_fmap. apply elem_of_seqZ.
        rewrite Forall_forall in Hok.
        destruct (Hok j Hj) as [[? _] | [_ ?]]; [|lia].
        by destruct (Hfull j Hj).
    - rewrite length_fmap, length_seqZ, Hlen. lia. }
  assert (Hin : freejid jobs ∈ jid <$> jobs).
  { rewrite Hperm. apply elem_of_seqZ. lia. }
  apply list_elem_of_fmap in Hin as (j & Hjid & Hj).
  by destruct (Hnot j Hj).
Qed.

Lemma addjob_free_slot verbose jobs p st cmd free :
  length jobs = MAXJOBS -> Forall slot_ok jobs -> 1 <= p ->
  free ∈ jobs -> pid free = 0 ->
  exists i, addjob verbose jobs p st cmd =
    (1, <[i := Job p (freejid jobs) st cmd]> jobs,
     if verbose then
       [Printf ("Added job [" +:+ fmt_d (freejid jobs) +:+ "] " +:+
                fmt_d p +:+ " " +:+ cmd +:+ nl)]
     else []) /\ freejid jobs <> 0.
Proof.
  intros Hlen Hok Hp Hfree Hpid.
  assert (Hid : freejid jobs <> 0).
  { intros Hfull. rewrite Forall_forall in Hok.
    destruct (Hok free Hfree) as [[_ Hjid] | [? _]]; [|lia].
    by destruct (jids_all_taken jobs free Hlen Hfull Hfree). }
  unfold addjob. destruct (Z.ltb_spec p 1); [lia|].
  destruct (Z.eqb_spec (freejid jobs) 0); [done|].
  destruct (list_find _ jobs) as [[i j]|] eqn:Hfind; [by exists i|].
  by destruct (find_slot_none _ _ _ Hfind Hfree).
Qed.

(** C4.  [addjob] returns 0 and leaves every slot as it was whenever the
    pid is not positive or the table is full (no free job id, or no free
    slot).  For a positive pid on a table with a free job id and a free
    slot it returns 1 with the first free slot filled; and whenever it
    returns 1 it has filled the first free slot with the pid, the state, a
    copy of the command text and the id [freejid] returns, which is
    positive and carried by no slot of the table.  On a table of
    [MAXJOBS] well-formed slots a free slot is enough: a free job id then
    exists. *)
Theorem addjob_fails_clean_or_fills_first_free
    (verbose : bool) (jobs : list job_t) (p st : Z) (cmd : string) :
  (p <= 0 \/ freejid jobs = 0 \/ (forall j, j ∈ jobs -> pid j <> 0) ->
   exists out, addjob verbose jobs p st cmd = (0, jobs, out)) /\
  (forall jobs' out,
     addjob verbose jobs p st cmd = (1, jobs', out) ->
     exists i free,
       jobs !! i = Some free /\ pid free = 0 /\
       (forall k j, jobs !! k = Some j -> (k < i)%nat -> pid j <> 0) /\
       jobs' = <[i := {| pid := p; jid := freejid jobs;
                         state := st; cmdline := cmd |}]> jobs /\
       0 < freejid jobs /\
       (forall j, j ∈ jobs -> jid j <> freejid jobs)) /\
  (1 <= p -> freejid jobs <> 0 -> (exists j, j ∈ jobs /\ pid j = 0) ->
   exists i free out,
     list_find (fun j => pid j = 0) jobs = Some (i, free) /\
     addjob verbose jobs p st cmd =
       (1, <[i := {| pid := p; jid := freejid jobs;
                     state := st; cmdline := cmd |}]> jobs, out)) /\
  (length jobs = MAXJOBS -> Forall slot_ok jobs ->
   (exists j, j ∈ jobs /\ pid j = 0) -> freejid jobs <> 0).
Proof.
  split_and!.
  - intros Hfail.
    destruct (addjob_result verbose jobs p st cmd)
      as [? | (Hp & Hfree & i & free & out & Hf & _)]; [done|].
    destruct Hfail as [? | [? | Hfull]]; [lia | done |].
    apply find_slot_lookup in Hf as [Hl Hpid].
    destruct (Hfull free); [by eapply list_elem_of_lookup_2 | done].
  - intros jobs' out Hadd.
    destruct (addjob_result verbose jobs p st cmd)
      as [[out' Hz] | (Hp & Hfree & i & free & out' & Hf & Ho)];
      [congruence|].
    rewrite Hadd in Ho. injection Ho as -> ->.
    destruct (freejid_pos jobs Hfree) as (Hrange & Hnew & _).
    exists i, free. split_and!.
    + by apply find_slot_lookup in Hf as [? _].
    + by apply find_slot_lookup in Hf as [_ ?].
    + intros k j Hk Hlt. by eapply (find_slot_first _ _ _ _ _ _ Hf).
    + done.
    + lia.
    + done.
  - intros Hp Hid (free & Hfree & Hpid). unfold addjob.
    destruct (Z.ltb_spec p 1); [lia|].
    destruct (Z.eqb_spec (freejid jobs) 0); [done|].
    destruct (list_find _ jobs) as [[i j]|] eqn:Hfind.
    + exists i, j. by eexists.
    + by destruct (find_slot_none _ _ _ Hfind Hfree).
  - intros Hlen Hok (free & Hfree & Hpid) Hfull.
    rewrite Forall_forall in Hok.
    destruct (Hok free Hfree) as [[_ Hjid] | [? _]]; [|lia].
    by destruct (jids_all_taken jobs free Hlen Hfull Hfree).
Qed.

Lemma addjob_fails_clean_or_fills_first_free_witness :
  (exists out, addjob false one_job 0 BG ("ls" +:+ nl) = (0, one_job, out)) /\
  (exists i free out,
     list_find (fun j => pid j = 0) one_job = Some (i, free) /\
     addjob false one_job 101 BG ("ls" +:+ nl) =
       (1, <[i := Job 101 (freejid one_job) BG ("ls" +:+ nl)]> one_job, out)).
Proof.
  destruct (addjob_fails_clean_or_fills_first_free
              false one_job 0 BG ("ls" +:+ nl)) as (Hfail & _).
  destruct (addjob_fails_clean_or_fills_first_free
              false one_job 101 BG ("ls" +:+ nl)) as (_ & _ & Hfill & Hid).
  split.
  - apply Hfail. left. lia.
  - assert (Hfree : exists j, j ∈ one_job /\ pid j = 0).
    { exists clearjob. split; [|done].
      apply (list_elem_of_lookup_2 one_job 1). reflexivity. }
    apply Hfill; [lia | | done].
    apply Hid; [reflexivity | | done].
    apply (slots_ok_apply false initjobs (Register 100 BG ("sleep 1" +:+ nl))).
    apply slots_ok_init.
Defined.

(** X4.  On a table of [MAXJOBS] well-formed slots with distinct job ids,
    [addjob] of a positive pid succeeds exactly when some slot is free;
    when none is, it prints the line about too many jobs and leaves the
    table as it is, so that its return after the loop is never reached. *)
Theorem addjob_succeeds_iff_free_slot
    (verbose : bool) (jobs : list job_t) (p st : Z) (cmd : string) :
  length jobs = MAXJOBS -> Forall slot_ok jobs -> unique_jids jobs ->
  1 <= p ->
  ((exists j, j ∈ jobs /\ pid j = 0) ->
   exists jobs' out, addjob verbose jobs p st cmd = (1, jobs', out)) /\
  ((forall j, j ∈ jobs -> pid j <> 0) ->
   addjob verbose jobs p st cmd =
     (0, jobs, [Printf ("Tried to create too many jobs" +:+ nl)])).
Proof.
  intros Hlen Hok Hu Hp. split.
  - intros (free & Hfree & Hpid).
    destruct (addjob_free_slot verbose jobs p st cmd free) as (i & -> & _);
      by eauto.
  - intros Hfull. unfold addjob. destruct (Z.ltb_spec p 1); [lia|].
    by rewrite (jids_none_free jobs).
Qed.

Lemma full_table_ok :
  length full_table = MAXJOBS /\ Forall slot_ok full_table /\
  unique_jids full_table.
Proof.
  split; [by vm_compute|]. unfold full_table.
  destruct (run_invariant false
    ((fun k => Register (Z.of_nat k) BG ("sleep 9" +:+ nl)) <$> seq 100 MAXJOBS)
    initjobs) as (? & ? & _); [apply slots_ok_init | apply unique_by_init|].
  done.
Qed.

Lemma addjob_succeeds_iff_free_slot_witness :
  addjob false full_table 500 BG ("ls" +:+ nl) =
    (0, full_table, [Printf ("Tried to create too many jobs" +:+ nl)]).
Proof.
  destruct full_table_ok as (Hlen & Hok & Hu).
  apply (addjob_succeeds_iff_free_slot false full_table 500 BG ("ls" +:+ nl));
    [done | done | done | lia |].
  apply Forall_forall, (bool_decide_unpack _). vm_compute. reflexivity.
Defined.

Lemma deref_lookup jobs job j : jobs !! job = Some j -> deref jobs job = j.
Proof. unfold deref. by intros ->. Qed.

Lemma getjobpid_index jobs p job :
  getjobpid jobs p = Some job <->
  1 <= p /\ (exists j, jobs !! job = Some j /\ pid j = p) /\
  (forall k j', jobs !! k = Some j' -> (k < job)%nat -> pid j' <> p).
Proof.
  rewrite getjobpid_Some. split.
  - intros (Hp & j & (? & ? & ?)%list_find_Some). by eauto 6.
  - intros (Hp & (j & ? & ?) & ?). split; [done|]. exists j.
    by apply list_find_Some.
Qed.

Lemma getjobjid_index jobs n job :
  getjobjid jobs n = Some job <->
  1 <= n /\ (exists j, jobs !! job = Some j /\ jid j = n) /\
  (forall k j', jobs !! k = Some j' -> (k < job)%nat -> jid j' <> n).
Proof.
  unfold getjobjid. destruct (Z.ltb_spec n 1); [split; [done | lia]|].
  rewrite fmap_Some. split.
  - intros ([i j] & (? & ? & ?)%list_find_Some & ->). cbn [fst]. by eauto 6.
  - intros (_ & (j & ? & ?) & ?). exists (job, j).
    split; [by apply list_find_Some | done].
Qed.

Lemma getjobpid_insert_other jobs i x q :
  (1 <= q -> pid x <> q /\ forall j, jobs !! i = Some j -> pid j <> q) ->
  getjobpid (<[i := x]> jobs) q = getjobpid jobs q /\
  pid2jid (<[i := x]> jobs) q = pid2jid jobs q.
Proof.
  intros Hmiss. unfold getjobpid, pid2jid.
  destruct (Z.ltb_spec q 1); [done|]. destruct Hmiss as [Hx Hold]; [done|].
  by rewrite (find_slot_insert_miss (fun j => pid j = q)).
Qed.

(** X5.  Registration followed by lookup: after [addjob] has succeeded for
    a pid that no live job held, [getjobpid] of that pid and [getjobjid] of
    the new id return the slot that holds the job as registered, [pid2jid]
    returns the new id, and the lookups of every other pid are as before. *)
Theorem addjob_then_lookup
    (verbose : bool) (jobs jobs' : list job_t) (p st : Z) (cmd : string)
    (out : list event) :
  addjob verbose jobs p st cmd = (1, jobs', out) ->
  pid_unused jobs p = true ->
  exists job,
    getjobpid jobs' p = Some job /\
    getjobjid jobs' (freejid jobs) = Some job /\
    deref jobs' job = Job p (freejid jobs) st cmd /\
    pid2jid jobs' p = freejid jobs /\
    (forall q, q <> p ->
       getjobpid jobs' q = getjobpid jobs q /\
       pid2jid jobs' q = pid2jid jobs q).
Proof.
  intros Hadd Hfresh.
  destruct (addjob_result verbose jobs p st cmd)
    as [[out' E] | (Hp & Hfree & i & free & out' & Hfind & E)];
    rewrite E in Hadd; [done|]. injection Hadd as <- <-.
  apply list_find_Some in Hfind as (Hi & Hpid & Hfirst).
  destruct (freejid_pos jobs Hfree) as (Hrange & Hnot & _).
  assert (Hnew : <[i := Job p (freejid jobs) st cmd]> jobs !! i =
                 Some (Job p (freejid jobs) st cmd)).
  { apply list_lookup_insert_eq. by eapply lookup_lt_Some. }
  assert (Hjob : getjobpid (<[i := Job p (freejid jobs) st cmd]> jobs) p =
                 Some i).
  { apply getjobpid_index. split_and!; [done | by eauto |].
    intros k j' Hk Hlt. rewrite list_lookup_insert_ne in Hk by lia.
    eapply pid_unused_spec; [done | by eapply list_elem_of_lookup_2 |].
    by eapply Hfirst. }
  exists i. split_and!; [done | | by apply deref_lookup | |].
  - apply getjobjid_index. split_and!; [lia | by eauto |].
    intros k j' Hk Hlt. rewrite list_lookup_insert_ne in Hk by lia.
    apply Hnot. by eapply list_elem_of_lookup_2.
  - rewrite pid2jid_getjobpid, Hjob. by rewrite (deref_lookup _ _ _ Hnew).
  - intros q Hq. apply getjobpid_insert_other. intros Hq1. split; [done|].
    intros j Hj. assert (j = free) as -> by congruence. lia.
Qed.

Lemma addjob_then_lookup_witness :
  exists job,
    getjobpid one_job 100 = Some job /\
    getjobjid one_job (freejid initjobs) = Some job /\
    deref one_job job = Job 100 (freejid initjobs) BG ("sleep 1" +:+ nl) /\
    pid2jid one_job 100 = freejid initjobs /\
    (forall q, q <> 100 ->
       getjobpid one_job q = getjobpid initjobs q /\
       pid2jid one_job q = pid2jid initjobs q).
Proof.
  apply (addjob_then_lookup false initjobs one_job 100 BG ("sleep 1" +:+ nl) []).
  - reflexivity.
  - reflexivity.
Defined.

Lemma deletejob_Some jobs p jobs' :
  deletejob jobs p = (1, jobs') ->
  exists job j,
    getjobpid jobs p = Some job /\ jobs !! job = Some j /\ pid j = p /\
    1 <= p /\ jobs' = <[job := clearjob]> jobs.
Proof.
  destruct (getjobpid jobs p) as [job|] eqn:Hjob.
  - destruct (deletejob_getjobpid _ _ _ Hjob) as [-> _]. intros [= <-].
    destruct (getjobpid_live _ _ _ Hjob) as (j & ? & ? & ?). by exists job, j.
  - by rewrite (deletejob_no_job _ _ Hjob).
Qed.

(** X6.  Removal followed by lookup: when no two live jobs share a pid,
    [deletejob] leaves no slot that [getjobpid] or [pid2jid] finds for the
    removed pid, and the lookups of every other pid are as before. *)
Theorem deletejob_then_lookup (jobs : list job_t) (p : Z) :
  unique_pids jobs ->
  getjobpid (snd (deletejob jobs p)) p = None /\
  pid2jid (snd (deletejob jobs p)) p = 0 /\
  (forall q, q <> p ->
     getjobpid (snd (deletejob jobs p)) q = getjobpid jobs q /\
     pid2jid (snd (deletejob jobs p)) q = pid2jid jobs q).
Proof.
  intros Hu. destruct (getjobpid jobs p) as [job|] eqn:Hjob.
  - destruct (deletejob_getjobpid _ _ _ Hjob) as [-> _]. cbn [snd].
    destruct (getjobpid_live _ _ _ Hjob) as (j & Hl & Hpid & Hp).
    assert (Hgone : getjobpid (<[job := clearjob]> jobs) p = None).
    { apply getjobpid_None. right. intros j' (k & Hk)%list_elem_of_lookup_1.
      apply list_lookup_insert_Some in Hk as [(_ & <- & _) | [Hne Hk]];
        [cbn; lia|].
      intros Hpid'. destruct Hne.
      apply (Hu job k j j'); unfold live; [done.. | lia | lia | congruence]. }
    split_and!; [done | by rewrite pid2jid_getjobpid, Hgone |].
    intros q Hq. apply getjobpid_insert_other. intros Hq1.
    split; [cbn; lia|]. intros j' Hj'. congruence.
  - rewrite (deletejob_no_job _ _ Hjob). cbn [snd].
    split_and!; [done | by rewrite pid2jid_getjobpid, Hjob | done].
Qed.

Lemma deletejob_then_lookup_witness :
  getjobpid (snd (deletejob one_job 100)) 100 = None /\
  pid2jid (snd (deletejob one_job 100)) 100 = 0 /\
  (forall q, q <> 100 ->
     getjobpid (snd (deletejob one_job 100)) q = getjobpid one_job q /\
     pid2jid (snd (deletejob one_job 100)) q = pid2jid one_job q).
Proof.
  apply (deletejob_then_lookup one_job 100).
  apply (unique_pids_apply false initjobs (Register 100 BG ("sleep 1" +:+ nl))).
  - reflexivity.
  - apply unique_by_init.
Defined.

(** X7.  Removal releases the slot and the job id: after a successful
    [deletejob] on a well-formed table, [addjob] of any positive pid
    succeeds, and the id it assigns is at most the id of the removed job. *)
Theorem deletejob_then_addjob
    (verbose : bool) (jobs jobs' : list job_t) (p q st : Z) (cmd : string) :
  length jobs = MAXJOBS -> Forall slot_ok jobs -> unique_jids jobs ->
  deletejob jobs p = (1, jobs') -> 1 <= q ->
  exists job out,
    addjob verbose jobs' q st cmd =
      (1, <[job := Job q (freejid jobs') st cmd]> jobs', out) /\
    1 <= freejid jobs' <= pid2jid jobs p.
Proof.
  intros Hlen Hok Hu (i & j & Hjob & Hl & Hpid & Hp & ->)%deletejob_Some Hq.
  assert (Hi : (i < length jobs)%nat) by (by eapply lookup_lt_Some).
  destruct (addjob_free_slot verbose (<[i := clearjob]> jobs) q st cmd clearjob)
    as (job & Hadd & Hfree); [| | done | | done |].
  { by rewrite length_insert. }
  { apply Forall_insert; [done | by left]. }
  { eapply list_elem_of_lookup_2. by apply list_lookup_insert_eq. }
  exists job. eexists. split; [exact Hadd|].
  destruct (freejid_pos _ Hfree) as (Hrange & _ & Hbelow).
  split; [lia|]. rewrite pid2jid_getjobpid, Hjob, (deref_lookup _ _ _ Hl).
  destruct (Z.le_gt_cases (freejid (<[i := clearjob]> jobs)) (jid j))
    as [? | Hgt]; [done|].
  rewrite Forall_lookup in Hok.
  assert (Hjid : 1 <= jid j) by (destruct (Hok _ _ Hl) as [[? _] | [_ ?]]; lia).
  destruct (Hbelow (jid j)) as (j' & (k & Hk)%list_elem_of_lookup_1 & Hsame);
    [lia|].
  apply list_lookup_insert_Some in Hk as [(_ & <- & _) | [Hne Hk]];
    [cbn in Hsame; lia|].
  destruct Hne. apply (Hu i k j j'); unfold live; [done | done | lia | | done].
  apply slot_ok_live; [by eapply Hok | lia].
Qed.

Lemma deletejob_then_addjob_witness :
  exists job out,
    addjob false (<[3%nat := clearjob]> full_table) 500 BG ("ls" +:+ nl) =
      (1, <[job := Job 500 (freejid (<[3%nat := clearjob]> full_table)) BG
                   ("ls" +:+ nl)]> (<[3%nat := clearjob]> full_table), out) /\
    1 <= freejid (<[3%nat := clearjob]> full_table) <= pid2jid full_table 103.
Proof.
  destruct full_table_ok as (Hlen & Hok & Hu).
  apply (deletejob_then_addjob false full_table
           (<[3%nat := clearjob]> full_table) 103 500 BG ("ls" +:+ nl));
    [done | done | done | by vm_compute | lia].
Defined.

(** X8.  A job can be named by its pid or by its job id: on a well-formed
    table where live jobs differ in pid and in id, the id that [pid2jid]
    gives for the pid of a job leads [getjobjid] to the slot that
    [getjobpid] returns, and the pid read from the slot that [getjobjid]
    returns leads [getjobpid] back to that slot. *)
Theorem lookup_by_pid_and_by_jid_agree (jobs : list job_t) :
  Forall slot_ok jobs -> unique_jids jobs -> unique_pids jobs ->
  (forall p job,
     getjobpid jobs p = Some job ->
     1 <= pid2jid jobs p /\ getjobjid jobs (pid2jid jobs p) = Some job) /\
  (forall n job,
     getjobjid jobs n = Some job ->
     getjobpid jobs (pid (deref jobs job)) = Some job /\
     pid2jid jobs (pid (deref jobs job)) = n).
Proof.
  intros Hok Hjids Hpids. rewrite Forall_lookup in Hok. split.
  - intros p job Hjob. rewrite pid2jid_getjobpid, Hjob.
    apply getjobpid_index in Hjob as (Hp & (j & Hl & Hpid) & _).
    rewrite (deref_lookup _ _ _ Hl).
    assert (Hjid : 1 <= jid j) by (destruct (Hok _ _ Hl) as [[? _] | [_ ?]]; lia).
    split; [done|]. apply getjobjid_index. split_and!; [done | by eauto |].
    intros k j' Hk Hlt Hsame.
    assert (k = job); [|lia].
    apply (Hjids k job j' j); unfold live; [done | done | | lia | done].
    apply slot_ok_live; [by eapply Hok | lia].
  - intros n job (Hn & (j & Hl & Hjid) & _)%getjobjid_index.
    rewrite (deref_lookup _ _ _ Hl).
    assert (Hpid : 1 <= pid j) by (destruct (Hok _ _ Hl) as [[_ ?] | [? _]]; lia).
    assert (Hjob : getjobpid jobs (pid j) = Some job).
    { apply getjobpid_index. split_and!; [done | by eauto |].
      intros k j' Hk Hlt Hsame.
      assert (k = job); [|lia].
      apply (Hpids k job j' j); unfold live; [done | done | lia | lia | done]. }
    split; [done|]. by rewrite pid2jid_getjobpid, Hjob, (deref_lookup _ _ _ Hl).
Qed.

Lemma lookup_by_pid_and_by_jid_agree_witness :
  (forall p job,
     getjobpid full_table p = Some job ->
     1 <= pid2jid full_table p /\
     getjobjid full_table (pid2jid full_table p) = Some job) /\
  (forall n job,
     getjobjid full_table n = Some job ->
     getjobpid full_table (pid (deref full_table job)) = Some job /\
     pid2jid full_table (pid (deref full_table job)) = n).
Proof.
  destruct full_table_ok as (Hlen & Hok & Hu).
  apply (lookup_by_pid_and_by_jid_agree full_table); [done | done |].
  unfold full_table.
  apply (run_invariant false
    ((fun k => Register (Z.of_nat k) BG ("sleep 9" +:+ nl)) <$> seq 100 MAXJOBS)
    initjobs);
    [apply slots_ok_init | apply unique_by_init | by vm_compute
    | apply unique_by_init].
Defined.

(** * Waiting for and reaping children *)

Lemma waitfg_body_table p wpid status jobs :
  match waitfg_body p wpid status jobs with
  | (None, jobs', out) => jobs' = jobs /\ out = []
  | (Some Returned, jobs', _) =>
      0 <= wpid /\
      ((getjobpid jobs p = None /\ jobs' = jobs) \/
       exists job, getjobpid jobs p = Some job /\
         (jobs' = alter (set_state ST) job jobs \/
          jobs' = <[job := clearjob]> jobs))
  | (Some (Exited code), jobs', out) =>
      wpid < 0 /\ code = 1 /\ jobs' = jobs /\
      out = [UnixError "waitfg: waitpid error"]
  | (Some Blocked, _, _) => False
  end.
Proof.
  unfold waitfg_body. destruct (Z.ltb_spec wpid 0); [done|].
  destruct (getjobpid jobs p) as [job|] eqn:Hjob; [|by auto].
  destruct (deletejob_getjobpid _ _ _ Hjob) as [-> _]. cbn [snd].
  destruct (WIFSTOPPED status); [by eauto 6|].
  destruct (WIFSIGNALED status); [by eauto 6|].
  destruct (WIFEXITED status); [by eauto 6 | done].
Qed.

(** After the write of [waitfg] to the slot of [p], a slot with the pid
    [p] is in state [ST], and the slots of other pids are as before. *)
Lemma waitfg_write_post jobs jobs' p job :
  unique_pids jobs -> getjobpid jobs p = Some job ->
  jobs' = alter (set_state ST) job jobs \/ jobs' = <[job := clearjob]> jobs ->
  (forall i j, jobs' !! i = Some j -> pid j = p -> state j = ST) /\
  (forall i j, jobs !! i = Some j -> pid j <> p -> jobs' !! i = Some j) /\
  length jobs' = length jobs.
Proof.
  intros Hu Hjob Hwrite.
  destruct (getjobpid_live _ _ _ Hjob) as (j0 & Hl0 & Hpid0 & Hp).
  assert (Hone : forall i j, jobs !! i = Some j -> pid j = p -> i = job).
  { intros i j Hl Hpid.
    apply (Hu i job j j0); unfold live; [done | done | lia | lia | congruence]. }
  destruct Hwrite as [-> | ->]; split_and!.
  - intros i j [[Hne Hl] | (_ & j1 & _ & ->)]%lookup_alter_state Hpid; [|done].
    destruct Hne. symmetry. by eapply Hone.
  - intros i j Hl Hpid. rewrite list_lookup_alter_ne; [done|]. congruence.
  - apply length_alter.
  - intros i j [(_ & <- & _) | [Hne Hl]]%list_lookup_insert_Some Hpid;
      [cbn in Hpid; lia|].
    destruct Hne. symmetry. by eapply Hone.
  - intros i j Hl Hpid. rewrite list_lookup_insert_ne; [done|]. congruence.
  - apply length_insert.
Qed.

(** X9.  What [waitfg] of a positive pid leaves behind when no signal
    handler runs in between and no two live jobs share a pid.  If it
    returns, no slot with that pid is left in the foreground: the job is
    removed or in state [ST], [fgpid] is not that pid, and the slots of
    other pids are untouched.  It exits only with code 1 on an error of
    [waitpid], and then, as when it stays blocked, it has written nothing
    to the table. *)
Theorem waitfg_leaves_no_foreground_job
    (p : Z) (ws : list (Z * Z)) (jobs jobs' : list job_t) (o : outcome)
    (out : list event) :
  1 <= p -> unique_pids jobs ->
  waitfg p ws jobs = (o, jobs', out) ->
  match o with
  | Returned =>
      (forall i j, jobs' !! i = Some j -> pid j = p -> state j = ST) /\
      fgpid jobs' <> p /\
      (forall i j, jobs !! i = Some j -> pid j <> p -> jobs' !! i = Some j) /\
      length jobs' = length jobs
  | Exited code => code = 1 /\ jobs' = jobs
  | Blocked => jobs' = jobs /\ out = []
  end.
Proof.
  intros Hp Hu. unfold waitfg. destruct (Z.ltb_spec p 1); [lia|].
  revert o jobs' out. induction ws as [|[wpid status] ws IH];
    intros o jobs' out; cbn [waitfg_loop]; [by intros [= <- <- <-]|].
  pose proof (waitfg_body_table p wpid status jobs) as Hbody.
  destruct (waitfg_body p wpid status jobs) as [[[o1|] jobs1] out1].
  - intros [= <- <- <-]. destruct o1 as [|code|]; [|by intuition|done].
    destruct Hbody as [_ Hbody].
    assert (Hpost :
      (forall i j, jobs1 !! i = Some j -> pid j = p -> state j = ST) /\
      (forall i j, jobs !! i = Some j -> pid j <> p -> jobs1 !! i = Some j) /\
      length jobs1 = length jobs).
    { destruct Hbody as [[Hnone ->] | (job & Hjob & Hwrite)];
        [|by eapply waitfg_write_post].
      split_and!; [|done..]. intros i j Hl Hpid.
      apply getjobpid_None in Hnone as [? | Hnone]; [lia|].
      destruct (Hnone j); [by eapply list_elem_of_lookup_2 | done]. }
    destruct Hpost as (Hst & Hothers & Hlen). split_and!; [done | | done..].
    intros Hfg.
    destruct (fgpid_nonzero jobs1) as (g & j & Hl & Hstate & Hpid); [lia|].
    rewrite (Hst g j Hl) in Hstate; [done | congruence].
  - destruct Hbody as [-> ->].
    destruct (waitfg_loop p ws jobs) as [[o2 jobs2] out2].
    intros [= <- <- <-]. specialize (IH o2 jobs2 out2 eq_refl).
    destruct o2; [done.. |]. by destruct IH as [-> ->].
Qed.

Lemma waitfg_leaves_no_foreground_job_witness :
  (forall i j, alter (set_state ST) 0%nat fg_job !! i = Some j ->
     pid j = 100 -> state j = ST) /\
  fgpid (alter (set_state ST) 0%nat fg_job) <> 100 /\
  (forall i j, fg_job !! i = Some j -> pid j <> 100 ->
     alter (set_state ST) 0%nat fg_job !! i = Some j) /\
  length (alter (set_state ST) 0%nat fg_job) = length fg_job.
Proof.
  apply (waitfg_leaves_no_foreground_job 100 [(100, 65535); (100, 5247)]
           fg_job (alter (set_state ST) 0%nat fg_job) Returned
           [Printf ("Job [1] (100) stopped by signal 20" +:+ nl)]).
  - lia.
  - apply unique_by_alter_state; [done|].
    apply (unique_pids_apply false initjobs
             (Register 100 BG ("sleep 1" +:+ nl))).
    + reflexivity.
    + apply unique_by_init.
  - by vm_compute.
Defined.

(** X10.  [waitfg] and [sigchld_handler] treat a status alike: for a
    status that [waitpid] with [WUNTRACED] alone can report, one iteration
    of [waitfg] leaves the table that the reaping loop of the handler
    leaves for the same pid and status, although the two test the status
    in different orders; it loops again exactly when the status is neither
    a stop, a termination by signal nor an exit. *)
Theorem waitfg_and_handler_agree
    (p wpid status : Z) (jobs : list job_t) :
  0 <= wpid -> WIFCONTINUED status = false ->
  snd (fst (waitfg_body p wpid status jobs)) =
    fst (sigchld_reap jobs p status) /\
  (fst (fst (waitfg_body p wpid status jobs)) = None <->
   getjobpid jobs p <> None /\
   WIFSTOPPED status = false /\ WIFSIGNALED status = false /\
   WIFEXITED status = false).
Proof.
  intros Hw Hcont. unfold waitfg_body, sigchld_reap.
  destruct (Z.ltb_spec wpid 0); [lia|].
  destruct (getjobpid jobs p) as [job|]; [|by split; [|split; [|intros []]]].
  rewrite Hcont.
  destruct (WIFSTOPPED status) eqn:Hstop.
  { rewrite (stopped_not_exited _ Hstop), (stopped_not_signaled _ Hstop).
    split; [done|]. split; [done | by intros (_ & ? & _)]. }
  destruct (WIFSIGNALED status) eqn:Hsig.
  { rewrite (signaled_not_exited _ Hsig).
    split; [done|]. split; [done | by intros (_ & _ & ? & _)]. }
  destruct (WIFEXITED status).
  { split; [done|]. split; [done | by intros (_ & _ & _ & ?)]. }
  by split.
Qed.

Lemma waitfg_and_handler_agree_witness :
  snd (fst (waitfg_body 100 100 5247 one_job)) =
    fst (sigchld_reap one_job 100 5247) /\
  (fst (fst (waitfg_body 100 100 5247 one_job)) = None <->
   getjobpid one_job 100 <> None /\
   WIFSTOPPED 5247 = false /\ WIFSIGNALED 5247 = false /\
   WIFEXITED 5247 = false).
Proof.
  apply (waitfg_and_handler_agree 100 100 5247 one_job).
  - lia.
  - reflexivity.
Defined.

Lemma reap_write_cases status j :
  reap_write status j = j \/ reap_write status j = clearjob \/
  reap_write status j = set_state ST j \/ reap_write status j = set_state BG j.
Proof. unfold reap_write. repeat case_match; auto. Qed.

Lemma sigchld_reap_table jobs p status :
  fst (sigchld_reap jobs p status) =
  match getjobpid jobs p with
  | Some job => alter (reap_write status) job jobs
  | None => jobs
  end.
Proof.
  unfold sigchld_reap. destruct (getjobpid jobs p) as [job|] eqn:Hjob; [|done].
  destruct (deletejob_getjobpid _ _ _ Hjob) as [-> _]. cbn [snd].
  assert (Hclear : <[job := clearjob]> jobs =
                   alter (fun _ => clearjob) job jobs)
    by apply list_insert_alter.
  destruct (WIFEXITED status) eqn:Hexit.
  { cbn [fst]. rewrite Hclear. apply list_alter_ext; [|done].
    intros j _. unfold reap_write. by rewrite Hexit. }
  destruct (WIFSIGNALED status) eqn:Hsig.
  { cbn [fst]. rewrite Hclear. apply list_alter_ext; [|done].
    intros j _. unfold reap_write. by rewrite Hexit, Hsig. }
  destruct (WIFSTOPPED status) eqn:Hstop.
  { cbn [fst]. apply list_alter_ext; [|done].
    intros j _. unfold reap_write. by rewrite Hexit, Hsig, Hstop. }
  destruct (WIFCONTINUED status) eqn:Hcont.
  { cbn [fst]. apply list_alter_ext; [|done].
    intros j _. unfold reap_write. by rewrite Hexit, Hsig, Hstop, Hcont. }
  cbn [fst]. symmetry. etrans; [|apply list_alter_id].
  - apply list_alter_ext; [|done].
    intros j _. unfold reap_write. by rewrite Hexit, Hsig, Hstop, Hcont.
  - done.
Qed.

Lemma getjobpid_reap_other jobs p q status :
  p <> q ->
  getjobpid (fst (sigchld_reap jobs p status)) q = getjobpid jobs q.
Proof.
  intros Hpq. rewrite sigchld_reap_table.
  destruct (getjobpid jobs p) as [job|] eqn:Hjob; [|done].
  destruct (getjobpid_live _ _ _ Hjob) as (j & Hl & Hpid & Hp).
  unfold getjobpid. destruct (Z.ltb_spec q 1); [done|].
  rewrite (find_slot_alter_miss (fun j => pid j = q)); [done|].
  intros j' Hj'. assert (j' = j) as -> by congruence.
  split; [congruence|].
  destruct (reap_write_cases status j) as [-> | [-> | [-> | ->]]]; cbn; lia.
Qed.

Lemma sigchld_reap_swap jobs p q s t :
  p <> q ->
  fst (sigchld_reap (fst (sigchld_reap jobs p s)) q t) =
  fst (sigchld_reap (fst (sigchld_reap jobs q t)) p s).
Proof.
  intros Hpq.
  rewrite (sigchld_reap_table (fst _) q), (sigchld_reap_table (fst _) p).
  rewrite !getjobpid_reap_other by done. rewrite !sigchld_reap_table.
  destruct (getjobpid jobs p) as [i|] eqn:Hi;
    destruct (getjobpid jobs q) as [k|] eqn:Hk; [|done..].
  apply list_alter_alter_ne. intros ->.
  destruct (getjobpid_live _ _ _ Hi) as (j & Hl & Hpid & _).
  destruct (getjobpid_live _ _ _ Hk) as (j' & Hl' & Hpid' & _). congruence.
Qed.

Lemma sigchld_loop_cons p status ws jobs :
  0 < p ->
  fst (sigchld_loop ((p, status) :: ws) jobs) =
  fst (sigchld_loop ws (fst (sigchld_reap jobs p status))).
Proof.
  intros Hp. cbn [sigchld_loop]. destruct (Z.ltb_spec 0 p); [|lia].
  destruct (sigchld_reap jobs p status) as [jobs1 out1]. cbn [fst].
  by destruct (sigchld_loop ws jobs1).
Qed.

(** X11.  The table that [sigchld_handler] leaves does not depend on the
    order in which [waitpid] reports the children: for two sequences of
    results with positive, pairwise distinct pids that are permutations of
    each other, the reaping loop ends with the same table. *)
Theorem sigchld_order_irrelevant
    (ws ws' : list (Z * Z)) (mask : Z) (jobs : list job_t) :
  ws ≡ₚ ws' -> NoDup (fst <$> ws) -> Forall (fun w => 0 < fst w) ws ->
  fst (sigchld_handler ws mask jobs) = fst (sigchld_handler ws' mask jobs).
Proof.
  intros Hperm Hnd Hpos.
  assert (Hloop : fst (sigchld_loop ws jobs) = fst (sigchld_loop ws' jobs)).
  { revert jobs. induction Hperm as [|[p s] ws ws' Hperm IH
                                     |[p s] [q t] ws|ws1 ws2 ws3 H12 IH12 H23 IH23];
      intros jobs.
    - done.
    - apply NoDup_cons in Hnd as [_ Hnd]. apply Forall_cons in Hpos as [Hp Hpos].
      rewrite !sigchld_loop_cons by done. by apply IH.
    - apply NoDup_cons in Hnd as [Hne _]. cbn [fmap list_fmap fst] in Hne.
      apply Forall_cons in Hpos as [Hq [Hp _]%Forall_cons].
      rewrite !sigchld_loop_cons by done.
      rewrite (sigchld_reap_swap jobs p q s t); [done|].
      intros ->. apply Hne. by left.
    - rewrite IH12 by done. apply IH23.
      + by rewrite <- H12.
      + by rewrite <- H12. }
  unfold sigchld_handler. destruct (sigchld_loop ws jobs) as [jobs1 out1].
  destruct (sigchld_loop ws' jobs) as [jobs2 out2]. done.
Qed.

Lemma sigchld_order_irrelevant_witness :
  fst (sigchld_handler [(100, 5247); (103, 0); (107, 9)] 0 full_table) =
  fst (sigchld_handler [(107, 9); (100, 5247); (103, 0)] 0 full_table).
Proof.
  apply (sigchld_order_irrelevant [(100, 5247); (103, 0); (107, 9)]
           [(107, 9); (100, 5247); (103, 0)] 0 full_table).
  - apply (bool_decide_unpack _). vm_compute. reflexivity.
  - apply (bool_decide_unpack _). vm_compute. reflexivity.
  - apply (bool_decide_unpack _). vm_compute. reflexivity.
Defined.

(** X12.  [sigchld_handler] writes only to the slots of the children that
    [waitpid] reported: every slot of the table it leaves is the slot as
    it was, or held a job with a reported pid and is now cleared or that
    job in state [ST] or [BG].  The handler registers no job, puts none in
    state [FG] and changes no pid, job id or command line of a job that
    stays. *)
Theorem sigchld_handler_slots
    (ws : list (Z * Z)) (mask : Z) (jobs : list job_t) (k : nat) (j' : job_t) :
  fst (sigchld_handler ws mask jobs) !! k = Some j' ->
  exists j, jobs !! k = Some j /\
    (j' = j \/
     (1 <= pid j /\ pid j ∈ (fst <$> ws) /\
      (j' = clearjob \/ j' = set_state ST j \/ j' = set_state BG j))).
Proof.
  assert (Hloop : forall jobs j',
    fst (sigchld_loop ws jobs) !! k = Some j' ->
    exists j, jobs !! k = Some j /\
      (j' = j \/
       (1 <= pid j /\ pid j ∈ (fst <$> ws) /\
        (j' = clearjob \/ j' = set_state ST j \/ j' = set_state BG j)))).
  { clear. induction ws as [|[p s] ws IH]; intros jobs j'; [by eauto|].
    destruct (Z.ltb_spec 0 p) as [Hp | Hp].
    - rewrite sigchld_loop_cons by done.
      intros (j1 & Hl1 & Hj')%IH. rewrite sigchld_reap_table in Hl1.
      assert (Hstep : exists j, jobs !! k = Some j /\
                (j1 = j \/ (pid j = p /\ j1 = reap_write s j))).
      { destruct (getjobpid jobs p) as [job|] eqn:Hjob; [|by eauto].
        rewrite list_lookup_alter in Hl1.
        destruct (decide (job = k)) as [-> | ?]; [|by eauto].
        apply fmap_Some in Hl1 as (j & Hl & ->). exists j. split; [done|].
        destruct (getjobpid_live _ _ _ Hjob) as (j0 & ? & ? & _).
        right. split; [congruence | done]. }
      destruct Hstep as (j & Hl & Hj1). exists j. split; [done|].
      cbn [fmap list_fmap fst].
      destruct Hj1 as [-> | [Hpid ->]].
      { destruct Hj' as [? | (? & ? & ?)]; [by left|].
        right. split_and!; [done | by right | done]. }
      clear Hl1.
      assert (Hin : pid j ∈ p :: (fst <$> ws)) by (rewrite Hpid; by left).
      destruct (reap_write_cases s j) as [E | [E | [E | E]]]; rewrite E in Hj'.
      + destruct Hj' as [? | (? & ? & ?)]; [by left|].
        right. split_and!; [done | by right | done].
      + destruct Hj' as [-> | (? & _)]; [|cbn in *; lia].
        right. split_and!; [lia | done | by left].
      + destruct Hj' as [-> | (_ & _ & [-> | [-> | ->]])];
          right; (split_and!; [lia | done | by auto]).
      + destruct Hj' as [-> | (_ & _ & [-> | [-> | ->]])];
          right; (split_and!; [lia | done | by auto]).
    - cbn [sigchld_loop]. destruct (Z.ltb_spec 0 p); [lia|]. by eauto. }
  unfold sigchld_handler. specialize (Hloop jobs j').
  destruct (sigchld_loop ws jobs) as [jobs1 out1]. exact Hloop.
Qed.

Lemma sigchld_handler_slots_witness :
  exists j, one_job !! 0%nat = Some j /\
    (clearjob = j \/
     (1 <= pid j /\ pid j ∈ (fst <$> [(100, 9)]) /\
      (clearjob = clearjob \/ clearjob = set_state ST j \/
       clearjob = set_state BG j))).
Proof.
  apply (sigchld_handler_slots [(100, 9)] 0 one_job 0 clearjob).
  reflexivity.
Defined.

(** X13.  The stop relay reaches the foreground job: when at most one slot
    is in state [FG], pids are unique among live jobs and the slot in
    state [FG] holds a job, [sigtstp_handler] sends [SIGTSTP] to the
    process group of that job, marks that slot [ST], and leaves no slot in
    state [FG]. *)
Theorem sigtstp_stops_foreground_job
    (jobs : list job_t) (i : nat) (j : job_t) :
  unique_pids jobs -> (fg_slots jobs <= 1)%nat ->
  jobs !! i = Some j -> state j = FG -> 1 <= pid j ->
  sigtstp_handler jobs =
    (alter (set_state ST) i jobs, [Kill (- pid j) SIGTSTP]) /\
  (forall k j', alter (set_state ST) i jobs !! k = Some j' -> state j' <> FG) /\
  fgpid (alter (set_state ST) i jobs) = 0.
Proof.
  intros Hu Hone Hl Hfg Hpid.
  assert (Honly : forall k j', jobs !! k = Some j' -> state j' = FG -> k = i).
  { intros k j' Hk Hfg'.
    by eapply (count_le_1_unique (fun j => state j = FG) jobs k i j' j). }
  assert (Hfgpid : fgpid jobs = pid j).
  { apply (fgpid_first jobs i j); [done.. |].
    intros k j' Hk Hlt Hfg'. specialize (Honly k j' Hk Hfg'). lia. }
  assert (Hjob : getjobpid jobs (pid j) = Some i).
  { apply getjobpid_index. split_and!; [done | by eauto |].
    intros k j' Hk Hlt Hsame. assert (k = i); [|lia].
    apply (Hu k i j' j); unfold live; [done | done | lia | lia | done]. }
  assert (Hnone : forall k j',
    alter (set_state ST) i jobs !! k = Some j' -> state j' <> FG).
  { intros k j' [[Hne Hk] | (_ & j0 & _ & ->)]%lookup_alter_state Hfg';
      [|done].
    destruct Hne. symmetry. by eapply Honly. }
  split_and!; [| done |].
  - unfold sigtstp_handler. rewrite Hfgpid, Hjob.
    destruct (Z.eqb_spec (pid j) 0); [lia | done].
  - destruct (decide (fgpid (alter (set_state ST) i jobs) = 0)) as [? | Hnz];
      [done|].
    destruct (fgpid_nonzero _ Hnz) as (g & j' & Hg & Hfg' & _).
    by destruct (Hnone g j' Hg).
Qed.

Lemma sigtstp_stops_foreground_job_witness :
  sigtstp_handler fg_job =
    (alter (set_state ST) 0%nat fg_job, [Kill (- 100) SIGTSTP]) /\
  (forall k j', alter (set_state ST) 0%nat fg_job !! k = Some j' ->
     state j' <> FG) /\
  fgpid (alter (set_state ST) 0%nat fg_job) = 0.
Proof.
  apply (sigtstp_stops_foreground_job fg_job 0
           (Job 100 1 FG ("sleep 1" +:+ nl))).
  - apply unique_by_alter_state; [done|].
    apply (unique_pids_apply false initjobs
             (Register 100 BG ("sleep 1" +:+ nl))).
    + reflexivity.
    + apply unique_by_init.
  - by vm_compute.
  - reflexivity.
  - reflexivity.
  - cbn. lia.
Defined.

(** * What the shell writes to its table *)

Lemma writes_state verbose (jobs : list job_t) (job : nat) s :
  job_state s -> rtc (table_write verbose) jobs (alter (set_state s) job jobs).
Proof. intros Hs. apply rtc_once. by constructor. Qed.

Lemma writes_clear verbose (jobs : list job_t) (job : nat) :
  rtc (table_write verbose) jobs (<[job := clearjob]> jobs).
Proof. apply rtc_once. by constructor. Qed.

Lemma writes_deletejob verbose jobs p :
  rtc (table_write verbose) jobs (snd (deletejob jobs p)).
Proof.
  destruct (deletejob_result jobs p) as [-> | [i ->]];
    [done | apply writes_clear].
Qed.

Lemma job_state_FG : job_state FG.
Proof. by left. Qed.

Lemma job_state_BG : job_state BG.
Proof. by right; left. Qed.

Lemma job_state_ST : job_state ST.
Proof. by right; right. Qed.

Create HintDb writes discriminated.

#[local] Hint Resolve rtc_refl writes_clear writes_deletejob writes_state
  job_state_FG job_state_BG job_state_ST : writes.

Lemma writes_sigchld_reap verbose jobs p status :
  rtc (table_write verbose) jobs (fst (sigchld_reap jobs p status)).
Proof.
  unfold sigchld_reap. destruct (getjobpid jobs p); [|auto with writes].
  repeat case_match; cbn [fst]; auto with writes.
Qed.

Lemma writes_sigchld_handler verbose ws mask jobs :
  rtc (table_write verbose) jobs (fst (sigchld_handler ws mask jobs)).
Proof.
  assert (Hloop : rtc (table_write verbose) jobs (fst (sigchld_loop ws jobs))).
  { revert jobs. induction ws as [|[p status] ws IH]; intros jobs;
      cbn [sigchld_loop]; [done|].
    destruct (0 <? p); [|done].
    pose proof (writes_sigchld_reap verbose jobs p status) as Hreap.
    destruct (sigchld_reap jobs p status) as [jobs1 out1].
    specialize (IH jobs1). destruct (sigchld_loop ws jobs1) as [jobs2 out2].
    by etrans. }
  unfold sigchld_handler. by destruct (sigchld_loop ws jobs).
Qed.

Lemma writes_sigtstp_handler verbose jobs :
  rtc (table_write verbose) jobs (fst (sigtstp_handler jobs)).
Proof.
  destruct (sigtstp_handler_table jobs) as [-> | (job & _ & _ & ->)];
    auto with writes.
Qed.

Lemma writes_eval verbose cmdline child sh :
  fork_result (tbl sh) child ->
  rtc (table_write verbose) (tbl sh) (tbl (eval verbose cmdline child sh)).
Proof.
  intros Hfork. unfold eval.
  destruct (parseline cmdline) as [|argv0 args]; [done|].
  destruct (String.eqb argv0 "quit"); [done|].
  destruct (String.eqb argv0 "jobs"); [done|].
  destruct (String.eqb argv0 "bg" || String.eqb argv0 "fg").
  { destruct (do_bgfg_lookup argv0 args (tbl sh)); [done|].
    by destruct (by_jobid args). }
  assert ((Z.of_nat (length (argv0 :: args)) =? 0) = false) as ->
    by (apply Z.eqb_neq; cbn [length]; lia).
  pose proof (write_register verbose (tbl sh) child cmdline Hfork) as Hw.
  destruct (addjob verbose (tbl sh) child BG cmdline) as [[r jobs1] out1].
  by apply rtc_once.
Qed.

Lemma writes_bgfg_state verbose argv0 job sh :
  rtc (table_write verbose) (tbl sh) (tbl (bgfg_state argv0 job sh)).
Proof.
  unfold bgfg_state, do_bgfg_setstate.
  destruct (String.eqb argv0 "bg"); [cbn [tbl]; auto with writes|].
  destruct (String.eqb argv0 "fg"); [|done].
  destruct (_ <? 1); cbn [tbl]; auto with writes.
Qed.

Lemma writes_waitfg_wake verbose p from_eval wpid status sh :
  rtc (table_write verbose) (tbl sh)
    (tbl (waitfg_wake p from_eval wpid status sh)).
Proof.
  unfold waitfg_wake. pose proof (waitfg_body_table p wpid status (tbl sh)) as H.
  destruct (waitfg_body p wpid status (tbl sh)) as [[[o|] jobs'] out].
  - assert (Hw : rtc (table_write verbose) (tbl sh) jobs').
    { destruct o as [|code|]; [|by destruct H as (_ & _ & -> & _)|done].
      destruct H as [_ [[_ ->] | (job & _ & [-> | ->])]]; auto with writes. }
    destruct o; [by destruct from_eval | done..].
  - by destruct H as [-> _].
Qed.

Lemma step_writes bgfg_masked verbose sh sh' :
  step bgfg_masked verbose sh sh' ->
  rtc (table_write verbose) (tbl sh) (tbl sh').
Proof.
  destruct 1 as [sh cmdline child | sh i point | sh argv0 job
                 | sh argv0 job p ret | sh argv0 job
                 | sh p from_eval wpid status | sh ws Hd | sh Hd | sh Hd].
  - by apply writes_eval.
  - unfold listjobs_step. destruct point; [|done..].
    destruct (Nat.ltb i MAXJOBS); [|done]. by destruct (pid _ =? 0).
  - done.
  - unfold bgfg_kill. by destruct (ret <? 0).
  - apply writes_bgfg_state.
  - apply writes_waitfg_wake.
  - unfold deliver.
    pose proof (writes_sigchld_handler verbose ws
                  (sigaddset (blocked sh) SIGCHLD) (tbl sh)) as Hw.
    by destruct (sigchld_handler _ _ _).
  - unfold deliver. by rewrite (surjective_pairing (sigint_handler (tbl sh))),
      sigint_handler_table.
  - unfold deliver. pose proof (writes_sigtstp_handler verbose (tbl sh)) as Hw.
    by destruct (sigtstp_handler _).
Qed.

Lemma table_ok_init : table_ok initjobs.
Proof.
  split_and!.
  - apply length_replicate.
  - apply slots_ok_init.
  - apply unique_by_init.
  - apply unique_by_init.
  - apply Forall_forall. by intros j [-> _]%elem_of_replicate [].
Qed.

Lemma table_ok_write verbose jobs jobs' :
  table_write verbose jobs jobs' -> table_ok jobs -> table_ok jobs'.
Proof.
  intros Hw (Hlen & Hok & Hjids & Hpids & Hst).
  destruct Hw as [jobs p cmd Hfork | jobs job s Hs | jobs job].
  - destruct (addjob_result verbose jobs p BG cmd)
      as [[out ->] | (Hp & Hfree & i & free & out & _ & E)]; [done|].
    pose proof (slots_ok_apply verbose jobs (Register p BG cmd) Hok) as Hok'.
    pose proof (unique_jids_apply verbose jobs (Register p BG cmd) Hjids)
      as Hjids'.
    assert (Hpids' : unique_pids (apply_op verbose jobs (Register p BG cmd))).
    { apply unique_pids_apply; [|done]. by destruct Hfork as [-> | [_ ?]]. }
    cbn [apply_op] in *. rewrite E in *. cbn [fst snd] in *.
    split_and!; [by rewrite length_insert | done.. |].
    apply Forall_insert; [done|]. intros _. apply job_state_BG.
  - split_and!.
    + by rewrite length_alter.
    + by apply slots_ok_alter_state.
    + by apply unique_by_alter_state.
    + by apply unique_by_alter_state.
    + apply Forall_alter; [done|]. by intros j _ _ _.
  - split_and!.
    + by rewrite length_insert.
    + apply Forall_insert; [done | by left].
    + by apply unique_by_clear.
    + by apply unique_by_clear.
    + apply Forall_insert; [done|]. by intros [].
Qed.

Lemma table_ok_reached verbose sh : reachable verbose sh -> table_ok (tbl sh).
Proof.
  revert sh. apply rtc_ind_r; [apply table_ok_init|].
  intros sh sh' _ Hstep%step_writes IH.
  induction Hstep as [|jobs1 jobs2 jobs3 Hw _ IHw]; [done|].
  apply IHw. by eapply table_ok_write.
Qed.

(** X14.  Every transition of the shell, of its main control flow or of a
    handler, changes the job table by a sequence of three kinds of writes
    only: the registration in state [BG] of what [fork] returned, a change
    of the state of one slot to [FG], [BG] or [ST], and the clearing of
    one slot. *)
Theorem step_table_writes
    (bgfg_masked verbose : bool) (sh sh' : shell) :
  step bgfg_masked verbose sh sh' ->
  rtc (table_write verbose) (tbl sh) (tbl sh').
Proof. apply step_writes. Qed.

Lemma step_table_writes_witness :
  rtc (table_write false) (tbl race_4) (tbl race_5).
Proof.
  apply (step_table_writes false false race_4 race_5).
  apply (step_sigchld false false race_4 [(100, 0)]).
  by vm_compute.
Defined.

(** X15.  In every state the shell reaches, the race in [do_bgfg]
    included, the table is well formed: it has [MAXJOBS] slots, each
    cleared or holding a positive pid and a job id from 1 to [MAXJOBS]; no
    two live jobs share a job id or a pid; every live job is in state
    [FG], [BG] or [ST]. *)
Theorem reachable_table_ok (verbose : bool) (sh : shell) :
  reachable verbose sh -> table_ok (tbl sh).
Proof. apply table_ok_reached. Qed.

Lemma reachable_table_ok_witness : table_ok (tbl race_9).
Proof. apply (reachable_table_ok false race_9). apply race_steps. Defined.

(** * The [jobs] command *)

Lemma listjobs_slot_line i j :
  (live j -> job_state (state j)) ->
  listjobs_slot i j = if decide (pid j <> 0) then job_line j else [].
Proof.
  intros Hst. unfold listjobs_slot, job_line, state_name, state_text.
  destruct (Z.eqb_spec (pid j) 0) as [E | Hlive];
    destruct (decide (pid j <> 0)); try done.
  destruct (Hst Hlive) as [-> | [-> | ->]]; done.
Qed.

Lemma listjobs_lines jobs :
  Forall (fun j => live j -> job_state (state j)) jobs ->
  listjobs jobs = concat (job_line <$> filter (fun j => pid j <> 0) jobs).
Proof.
  unfold listjobs. induction jobs as [|j jobs IH]; [done|].
  intros [Hj Hjobs]%Forall_cons.
  change (imap listjobs_slot (j :: jobs))
    with (listjobs_slot 0 j :: imap (listjobs_slot ∘ S) jobs).
  cbn [concat]. rewrite filter_cons, (listjobs_slot_line 0 j Hj).
  assert (Htail : concat (imap (listjobs_slot ∘ S) jobs) =
                  concat (imap listjobs_slot jobs)).
  { f_equal. apply imap_ext. intros i j' Hl. cbn.
    rewrite !listjobs_slot_line; [done | |].
    - rewrite Forall_lookup in Hjobs. by eapply Hjobs.
    - rewrite Forall_lookup in Hjobs. by eapply Hjobs. }
  rewrite Htail, (IH Hjobs).
  by destruct (decide (pid j <> 0)).
Qed.

Lemma listjobs_run_done fuel sh :
  at_pc sh = Prompt -> listjobs_run fuel sh = sh.
Proof. intros Hat. destruct fuel; [done|]. cbn. by rewrite Hat. Qed.

(** The loop of [listjobs] from slot [i] on, run without a handler in
    between, prints what the function prints for these slots. *)
Lemma listjobs_run_from n : forall i fuel jobs mask out,
  length jobs = MAXJOBS -> (i + n)%nat = MAXJOBS -> (4 * n + 1 <= fuel)%nat ->
  listjobs_run fuel (Shell jobs mask (Listjobs i AtPid) out) =
  Shell jobs mask Prompt
    (out ++ concat (imap (fun k => listjobs_slot (i + k)) (drop i jobs))).
Proof.
  induction n as [|n IH]; intros i fuel jobs mask out Hlen Hi Hfuel.
  - destruct fuel as [|fuel]; [lia|]. cbn [listjobs_run at_pc listjobs_step].
    assert (Nat.ltb i MAXJOBS = false) as -> by (apply Nat.ltb_ge; lia).
    rewrite listjobs_run_done by done.
    rewrite drop_ge by lia. by rewrite app_nil_r.
  - assert (Hlt : (i < length jobs)%nat) by lia.
    destruct (lookup_lt_is_Some_2 jobs i Hlt) as [j Hj].
    rewrite (drop_S jobs j i Hj).
    change (imap (fun k => listjobs_slot (i + k)) (j :: drop (S i) jobs))
      with (listjobs_slot (i + 0) j ::
            imap ((fun k => listjobs_slot (i + k)) ∘ S) (drop (S i) jobs)).
    assert (Htail :
      imap ((fun k => listjobs_slot (i + k)) ∘ S) (drop (S i) jobs) =
      imap (fun k => listjobs_slot (S i + k)) (drop (S i) jobs)).
    { apply imap_ext. intros k j' _. cbn. f_equal. lia. }
    rewrite Htail, Nat.add_0_r. cbn [concat].
    destruct fuel as [|fuel]; [lia|]. cbn [listjobs_run at_pc listjobs_step tbl].
    assert (Nat.ltb i MAXJOBS = true) as -> by (apply Nat.ltb_lt; lia).
    rewrite (deref_lookup _ _ _ Hj). unfold listjobs_slot at 1.
    destruct (pid j =? 0).
    + cbn [blocked trace]. rewrite IH by lia. done.
    + destruct fuel as [|[|[|fuel]]]; [lia.. |].
      cbn [listjobs_run at_pc listjobs_step tbl blocked trace].
      rewrite !(deref_lookup _ _ _ Hj). rewrite IH by lia.
      by rewrite <- !app_assoc.
Qed.

(** X16.  In every state the shell reaches, [listjobs] run to its end
    without a signal handler in between prints, for each live job in slot
    order and for no other slot, its job id and pid, one of the words
    Running, Foreground and Stopped, and its command line; in such a run
    the line about an internal error is not printed.  The transitions of
    [listjobs] in the shell, taken with no handler in between, print the
    same. *)
Theorem listjobs_reachable (verbose : bool) (sh : shell) :
  reachable verbose sh ->
  listjobs (tbl sh) =
    concat (job_line <$> filter (fun j => pid j <> 0) (tbl sh)) /\
  (at_pc sh = Listjobs 0 AtPid ->
   listjobs_run (4 * MAXJOBS + 1) sh =
     Shell (tbl sh) (blocked sh) Prompt (trace sh ++ listjobs (tbl sh))).
Proof.
  intros (Hlen & _ & _ & _ & Hst)%table_ok_reached.
  split; [by apply listjobs_lines|].
  intros Hat. destruct sh as [jobs mask c out]. cbn [at_pc] in Hat. subst c.
  cbn [tbl blocked trace] in *.
  rewrite (listjobs_run_from MAXJOBS 0) by (done || lia).
  by rewrite drop_0.
Qed.

Lemma list_steps_1 : reachable false list_1.
Proof.
  unfold reachable.
  eapply rtc_l; [apply (step_eval false false boot ("sleep 1" +:+ nl) 100);
                 [reflexivity | by vm_compute | by right; vm_compute] |].
  eapply rtc_l; [apply (step_eval false false list_0 ("jobs" +:+ nl) (-1));
                 [reflexivity | by vm_compute | by left] |].
  apply rtc_refl.
Qed.

Lemma listjobs_reachable_witness :
  listjobs (tbl list_1) =
    concat (job_line <$> filter (fun j => pid j <> 0) (tbl list_1)) /\
  listjobs_run (4 * MAXJOBS + 1) list_1 =
    Shell (tbl list_1) (blocked list_1) Prompt
      (trace list_1 ++ listjobs (tbl list_1)).
Proof.
  destruct (listjobs_reachable false list_1 list_steps_1) as [Hlines Hrun].
  split; [exact Hlines | apply Hrun; reflexivity].
Defined.

(** * Launching a command *)

Lemma eval_launch verbose cmdline child sh argv0 args :
  parseline cmdline = argv0 :: args ->
  argv0 ∉ ["quit"; "jobs"; "bg"; "fg"] ->
  eval verbose cmdline child sh =
    Shell (snd (fst (addjob verbose (tbl sh) child BG cmdline)))
      (sigprocmask SIG_UNBLOCK eval_mask
         (sigprocmask SIG_BLOCK eval_mask (blocked sh)))
      Prompt
      (trace sh ++ Sigprocmask SIG_BLOCK eval_mask ::
         snd (addjob verbose (tbl sh) child BG cmdline) ++
         [Printf ("[" +:+
                  fmt_d (pid2jid
                    (snd (fst (addjob verbose (tbl sh) child BG cmdline)))
                    child) +:+
                  "] (" +:+ fmt_d child +:+ ") " +:+ cmdline);
          Sigprocmask SIG_UNBLOCK eval_mask]).
Proof.
  intros Hargs Hnot. unfold eval. rewrite Hargs.
  assert (String.eqb argv0 "quit" = false) as ->
    by (apply String.eqb_neq; intros ->; apply Hnot; set_solver).
  assert (String.eqb argv0 "jobs" = false) as ->
    by (apply String.eqb_neq; intros ->; apply Hnot; set_solver).
  assert (String.eqb argv0 "bg" = false) as ->
    by (apply String.eqb_neq; intros ->; apply Hnot; set_solver).
  assert (String.eqb argv0 "fg" = false) as ->
    by (apply String.eqb_neq; intros ->; apply Hnot; set_solver).
  assert ((Z.of_nat (length (argv0 :: args)) =? 0) = false) as ->
    by (apply Z.eqb_neq; cbn [length]; lia).
  cbn [orb]. destruct (addjob verbose (tbl sh) child BG cmdline)
    as [[r jobs1] out1].
  cbn [fst snd]. by rewrite <- app_assoc.
Qed.

(** X17.  [eval] never waits for the job it launches: [bg] is the argument
    count that [parseline] returns, never 0 past the test for an empty
    line.  From the prompt, [eval] ends at the prompt, at the exit of
    [quit], inside [listjobs] or inside [do_bgfg], never in [waitfg]; and
    every slot of the
    table it leaves is a slot as it was or holds the forked child
    registered in state [BG]. *)
Theorem eval_launches_in_background_only
    (verbose : bool) (cmdline : string) (child : Z) (sh : shell) :
  at_pc sh = Prompt ->
  (forall p from_eval,
     at_pc (eval verbose cmdline child sh) <> Waitfg p from_eval) /\
  (forall k j',
     tbl (eval verbose cmdline child sh) !! k = Some j' ->
     tbl sh !! k = Some j' \/
     j' = Job child (freejid (tbl sh)) BG cmdline).
Proof.
  intros Hat. unfold eval. destruct (parseline cmdline) as [|argv0 args].
  { split; [by rewrite Hat | by auto]. }
  destruct (String.eqb argv0 "quit"); [by auto|].
  destruct (String.eqb argv0 "jobs"); [by auto|].
  destruct (String.eqb argv0 "bg" || String.eqb argv0 "fg").
  { destruct (do_bgfg_lookup argv0 args (tbl sh)); [by auto|].
    destruct (by_jobid args); by auto. }
  assert ((Z.of_nat (length (argv0 :: args)) =? 0) = false) as ->
    by (apply Z.eqb_neq; cbn [length]; lia).
  destruct (addjob_result verbose (tbl sh) child BG cmdline)
    as [[out ->] | (_ & _ & i & free & out & _ & ->)]; [by auto|].
  split; [done|]. cbn [tbl].
  intros k j' [(_ & <- & _) | (_ & Hl)]%list_lookup_insert_Some; by auto.
Qed.

Lemma eval_launches_in_background_only_witness :
  (forall p from_eval,
     at_pc (eval false ("vi" +:+ nl) 100 boot) <> Waitfg p from_eval) /\
  (forall k j',
     tbl (eval false ("vi" +:+ nl) 100 boot) !! k = Some j' ->
     tbl boot !! k = Some j' \/
     j' = Job 100 (freejid (tbl boot)) BG ("vi" +:+ nl)).
Proof.
  apply (eval_launches_in_background_only false ("vi" +:+ nl) 100 boot).
  reflexivity.
Defined.

Lemma pid2jid_unused jobs child :
  fork_result jobs child -> pid2jid jobs child = 0.
Proof.
  intros Hfork. rewrite pid2jid_getjobpid.
  destruct (getjobpid jobs child) as [job|] eqn:Hjob; [|done].
  destruct (getjobpid_live _ _ _ Hjob) as (j & Hl & Hpid & Hp).
  destruct Hfork as [-> | [_ Hfresh]]; [lia|].
  destruct (pid_unused_spec _ _ Hfresh j); unfold live;
    [by eapply list_elem_of_lookup_2 | lia | done].
Qed.

(** X18.  [eval] does not look at what [fork] and [addjob] return.  When
    the registration fails, because [fork] failed or because the table is
    full, the table stays as it is and [eval] still prints the line of a
    background job, with job id 0, before it unblocks the signals and
    goes back to the prompt. *)
Theorem eval_ignores_failed_registration
    (verbose : bool) (cmdline : string) (child : Z) (sh : shell)
    (argv0 : string) (args : list string) :
  parseline cmdline = argv0 :: args ->
  argv0 ∉ ["quit"; "jobs"; "bg"; "fg"] ->
  fork_result (tbl sh) child ->
  fst (fst (addjob verbose (tbl sh) child BG cmdline)) = 0 ->
  tbl (eval verbose cmdline child sh) = tbl sh /\
  at_pc (eval verbose cmdline child sh) = Prompt /\
  exists out,
    (out = [] \/ out = [Printf ("Tried to create too many jobs" +:+ nl)]) /\
    trace (eval verbose cmdline child sh) =
      trace sh ++ Sigprocmask SIG_BLOCK eval_mask :: out ++
        [Printf ("[0] (" +:+ fmt_d child +:+ ") " +:+ cmdline);
         Sigprocmask SIG_UNBLOCK eval_mask].
Proof.
  intros Hargs Hnot Hfork Hfail.
  rewrite (eval_launch verbose cmdline child sh argv0 args) by done.
  cbn [tbl at_pc trace].
  assert (Hadd : exists out,
    (out = [] \/ out = [Printf ("Tried to create too many jobs" +:+ nl)]) /\
    addjob verbose (tbl sh) child BG cmdline = (0, tbl sh, out)).
  { revert Hfail. unfold addjob. destruct (child <? 1); [by eauto|].
    destruct (freejid (tbl sh) =? 0); [by eauto|].
    destruct (list_find _ (tbl sh)) as [[i free]|]; [done | by eauto]. }
  destruct Hadd as (out & Hout & ->). cbn [fst snd].
  rewrite (pid2jid_unused _ _ Hfork). split_and!; [done.. |]. by exists out.
Qed.

Lemma eval_ignores_failed_registration_witness :
  tbl (eval false ("ls" +:+ nl) (-1) boot) = tbl boot /\
  at_pc (eval false ("ls" +:+ nl) (-1) boot) = Prompt /\
  exists out,
    (out = [] \/ out = [Printf ("Tried to create too many jobs" +:+ nl)]) /\
    trace (eval false ("ls" +:+ nl) (-1) boot) =
      trace boot ++ Sigprocmask SIG_BLOCK eval_mask :: out ++
        [Printf ("[0] (" +:+ fmt_d (-1) +:+ ") " +:+ ("ls" +:+ nl));
         Sigprocmask SIG_UNBLOCK eval_mask].
Proof.
  apply (eval_ignores_failed_registration false ("ls" +:+ nl) (-1) boot
           "ls" []).
  - reflexivity.
  - apply (bool_decide_unpack _). vm_compute. reflexivity.
  - by left.
  - reflexivity.
Defined.

(** * The signal mask and the signals sent *)

Lemma eval_mask_restored :
  sigprocmask SIG_UNBLOCK eval_mask
    (sigprocmask SIG_BLOCK eval_mask sigemptyset) = sigemptyset.
Proof. reflexivity. Qed.

Lemma mask_step bgfg_masked verbose sh sh' :
  step bgfg_masked verbose sh sh' ->
  blocked sh = sigemptyset /\ (forall p, at_pc sh <> Waitfg p true) ->
  blocked sh' = sigemptyset /\ (forall p, at_pc sh' <> Waitfg p true).
Proof.
  intros Hstep [Hmask Hpc].
  destruct Hstep as [sh cmdline child Hat | sh i point | sh argv0 job
                     | sh argv0 job p ret
                     | sh argv0 job | sh p from_eval wpid status Hat
                     | sh ws Hd | sh Hd | sh Hd].
  - unfold eval. destruct (parseline cmdline) as [|argv0 args]; [done|].
    destruct (String.eqb argv0 "quit"); [done|].
    destruct (String.eqb argv0 "jobs"); [done|].
    destruct (String.eqb argv0 "bg" || String.eqb argv0 "fg").
    { destruct (do_bgfg_lookup argv0 args (tbl sh)); [done|].
      by destruct (by_jobid args). }
    assert ((Z.of_nat (length (argv0 :: args)) =? 0) = false) as ->
      by (apply Z.eqb_neq; cbn [length]; lia).
    destruct (addjob verbose (tbl sh) child BG cmdline) as [[r jobs1] out1].
    cbn [blocked at_pc]. rewrite Hmask. split; [apply eval_mask_restored | done].
  - unfold listjobs_step. destruct point; [|done..].
    destruct (Nat.ltb i MAXJOBS); [|done]. by destruct (pid _ =? 0).
  - done.
  - unfold bgfg_kill. by destruct (ret <? 0).
  - unfold bgfg_state.
    destruct (do_bgfg_setstate argv0 job (tbl sh)) as [[jobs' out] [w|]];
      [|done].
    by destruct (w <? 1).
  - assert (from_eval = false) as ->.
    { destruct from_eval; [|done]. by destruct (Hpc p). }
    unfold waitfg_wake.
    destruct (waitfg_body p wpid status (tbl sh)) as [[[[|code|]|] jobs'] out];
      done.
  - unfold deliver. by destruct (sigchld_handler _ _ _).
  - unfold deliver. by destruct (sigint_handler _).
  - unfold deliver. by destruct (sigtstp_handler _).
Qed.

(** X19.  Between two transitions of a run, no signal is blocked: the mask
    that [eval] sets around [fork] and [addjob] is taken off before it
    returns, and [sigchld_handler] puts back the mask it found.  The shell
    never waits in the [waitfg] of [eval]; every wait is that of the [fg]
    command. *)
Theorem reachable_mask_empty (verbose : bool) (sh : shell) :
  reachable verbose sh ->
  blocked sh = sigemptyset /\ (forall p, at_pc sh <> Waitfg p true).
Proof.
  revert sh. apply rtc_ind_r; [done|].
  intros sh sh' _ Hstep IH. by eapply mask_step.
Qed.

Lemma reachable_mask_empty_witness :
  blocked race_9 = sigemptyset /\ (forall p, at_pc race_9 <> Waitfg p true).
Proof. apply (reachable_mask_empty false race_9). apply race_steps. Defined.

Lemma group_signal_listjobs jobs : Forall group_signal (listjobs jobs).
Proof.
  unfold listjobs. apply Forall_concat, Forall_forall.
  intros out (i & Hi)%list_elem_of_lookup_1.
  rewrite list_lookup_imap in Hi.
  apply fmap_Some in Hi as (j & _ & ->).
  unfold listjobs_slot. destruct (pid j =? 0); by repeat constructor.
Qed.

Lemma group_signal_addjob verbose jobs p st cmd :
  Forall group_signal (snd (addjob verbose jobs p st cmd)).
Proof.
  unfold addjob. repeat case_match; cbn [snd]; by repeat constructor.
Qed.

Lemma group_signal_sigchld_handler ws mask jobs :
  Forall group_signal (snd (sigchld_handler ws mask jobs)).
Proof.
  assert (Hloop : Forall group_signal (snd (sigchld_loop ws jobs))).
  { revert jobs. induction ws as [|[p status] ws IH]; intros jobs;
      cbn [sigchld_loop]; [done|].
    destruct (0 <? p); [|done].
    assert (Hreap : Forall group_signal (snd (sigchld_reap jobs p status))).
    { unfold sigchld_reap, notice_no_job.
      repeat case_match; cbn [snd]; by repeat constructor. }
    destruct (sigchld_reap jobs p status) as [jobs1 out1].
    specialize (IH jobs1). destruct (sigchld_loop ws jobs1) as [jobs2 out2].
    by apply Forall_app. }
  unfold sigchld_handler. destruct (sigchld_loop ws jobs) as [jobs' out].
  cbn [snd] in *. constructor; [done|]. apply Forall_app.
  split; [done | by repeat constructor].
Qed.

Lemma group_signal_fgpid jobs sig :
  Forall slot_ok jobs -> fgpid jobs <> 0 ->
  sig = SIGCONT \/ sig = SIGINT \/ sig = SIGTSTP ->
  group_signal (Kill (- fgpid jobs) sig).
Proof.
  intros Hok Hnz Hsig.
  destruct (fgpid_nonzero jobs Hnz) as (g & j & Hl & _ & Hpid).
  rewrite Forall_lookup in Hok. left. split; [|done].
  destruct (Hok _ _ Hl) as [[? _] | [? _]]; lia.
Qed.

Lemma deref_pid_nonneg jobs job :
  Forall slot_ok jobs -> 0 <= pid (deref jobs job).
Proof.
  intros Hok. unfold deref. destruct (jobs !! job) as [j|] eqn:Hl; [|done].
  rewrite Forall_lookup in Hok. cbn.
  destruct (Hok _ _ Hl) as [[? _] | [? _]]; lia.
Qed.

Lemma group_signal_sigcont p : 0 <= p -> group_signal (Kill (- p) SIGCONT).
Proof.
  intros Hp. destruct (decide (p = 0)) as [-> | ?]; [by right|].
  left. split; [lia | by left].
Qed.

Lemma do_bgfg_lookup_pid argv0 args jobs job p :
  Forall slot_ok jobs ->
  do_bgfg_lookup argv0 args jobs = Resolved job p -> 1 <= p.
Proof.
  intros Hok. unfold do_bgfg_lookup. destruct args as [|argv1 rest]; [done|].
  destruct (Ascii.eqb _ _).
  - destruct (_ <=? 0); [done|].
    destruct (getjobjid jobs _) as [job'|] eqn:Hjob; [|done].
    intros [= <- <-].
    by destruct (getjobjid_live _ _ _ Hok Hjob) as (j & _ & ? & ->).
  - destruct (Z.leb_spec (atoi argv1) 0); [done|].
    destruct (getjobpid jobs _); [|done]. intros [= <- <-]. lia.
Qed.

Lemma group_signal_step bgfg_masked verbose sh sh' :
  step bgfg_masked verbose sh sh' ->
  Forall slot_ok (tbl sh) ->
  Forall group_signal (trace sh) /\
    (forall argv0 job p, at_pc sh = BgfgKill argv0 job p -> 0 <= p) ->
  Forall group_signal (trace sh') /\
    (forall argv0 job p, at_pc sh' = BgfgKill argv0 job p -> 0 <= p).
Proof.
  intros Hstep Hok [Htr Hpc].
  assert (Hprint : forall out,
    Forall (fun e => exists text, e = Printf text) out ->
    Forall group_signal (trace sh ++ out)).
  { intros out Hout. apply Forall_app. split; [done|].
    eapply Forall_impl; [exact Hout|]. by intros e [text ->]. }
  destruct Hstep as [sh cmdline child Hat | sh i point Hat | sh argv0 job Hat
                     | sh argv0 job p ret Hat
                     | sh argv0 job Hat | sh p from_eval wpid status Hat
                     | sh ws Hd | sh Hd | sh Hd].
  - unfold eval. destruct (parseline cmdline) as [|argv0 args]; [done|].
    destruct (String.eqb argv0 "quit"); [done|].
    destruct (String.eqb argv0 "jobs"); [done|].
    destruct (String.eqb argv0 "bg" || String.eqb argv0 "fg").
    { destruct (do_bgfg_lookup argv0 args (tbl sh)) as [msg | job p] eqn:Hlook.
      - split; [|done]. cbn [trace]. apply Hprint. by repeat econstructor.
      - destruct (by_jobid args); (split; [done|]); cbn [at_pc]; [done|].
        intros ? ? ? [= _ _ <-].
        pose proof (do_bgfg_lookup_pid _ _ _ _ _ Hok Hlook). lia. }
    assert ((Z.of_nat (length (argv0 :: args)) =? 0) = false) as ->
      by (apply Z.eqb_neq; cbn [length]; lia).
    pose proof (group_signal_addjob verbose (tbl sh) child BG cmdline) as Hadd.
    destruct (addjob verbose (tbl sh) child BG cmdline) as [[r jobs1] out1].
    cbn [snd] in Hadd. split; [|done]. cbn [trace].
    apply Forall_app. split; [|by repeat constructor].
    apply Forall_app. split; [done | by constructor].
  - unfold listjobs_step. destruct point.
    + destruct (Nat.ltb i MAXJOBS); [|done]. by destruct (pid _ =? 0).
    + split; [|done]. cbn [trace]. apply Hprint. by repeat econstructor.
    + split; [|done]. cbn [trace]. apply Hprint. by repeat econstructor.
    + split; [|done]. cbn [trace]. apply Hprint. by repeat econstructor.
  - split; [done|]. cbn [bgfg_pid at_pc]. intros ? ? ? [= _ _ <-].
    by apply deref_pid_nonneg.
  - unfold bgfg_kill. specialize (Hpc argv0 job p Hat).
    destruct (ret <? 0); (split; [|done]); cbn [trace]; apply Forall_app;
      (split; [done|]);
      (constructor; [by apply group_signal_sigcont | by repeat constructor]).
  - unfold bgfg_state, do_bgfg_setstate.
    destruct (String.eqb argv0 "bg").
    { split; [|done]. cbn [trace]. apply Hprint. by repeat econstructor. }
    destruct (String.eqb argv0 "fg"); [|by rewrite app_nil_r].
    destruct (_ <? 1); (split; [|done]); cbn [trace]; [|by rewrite app_nil_r].
    apply Hprint. by repeat econstructor.
  - unfold waitfg_wake, waitfg_body.
    destruct (wpid <? 0).
    { split; [|done]. cbn [trace]. apply Forall_app.
      split; [done | by repeat constructor]. }
    destruct (getjobpid (tbl sh) p) as [job|].
    + destruct (WIFSTOPPED status); [|destruct (WIFSIGNALED status);
                                      [|destruct (WIFEXITED status)]];
        destruct from_eval; (split; [|done]); cbn [trace];
        rewrite ?app_nil_l, ?app_nil_r; try done;
        repeat (apply Forall_app; split); try done; by repeat constructor.
    + destruct from_eval; (split; [|done]); cbn [trace];
        repeat (apply Forall_app; split); try done; by repeat constructor.
  - unfold deliver.
    pose proof (group_signal_sigchld_handler ws
                  (sigaddset (blocked sh) SIGCHLD) (tbl sh)) as Hout.
    destruct (sigchld_handler _ _ _) as [jobs' out]. cbn [snd] in Hout.
    split; [by apply Forall_app | done].
  - unfold deliver, sigint_handler.
    destruct (Z.eqb_spec (fgpid (tbl sh)) 0); cbn [trace at_pc];
      (split; [|done]); [by rewrite app_nil_r|].
    apply Forall_app. split; [done|]. constructor; [|done].
    apply group_signal_fgpid; auto.
  - unfold deliver, sigtstp_handler.
    destruct (Z.eqb_spec (fgpid (tbl sh)) 0); cbn [trace at_pc];
      [split; [by rewrite app_nil_r | done]|].
    assert (Hkill : Forall group_signal
              (trace sh ++ [Kill (- fgpid (tbl sh)) SIGTSTP])).
    { apply Forall_app. split; [done|]. constructor; [|done].
      apply group_signal_fgpid; auto. }
    by destruct (getjobpid (tbl sh) (fgpid (tbl sh))).
Qed.

(** X20.  Every [kill] of a run sends [SIGCONT], [SIGINT] or [SIGTSTP] and
    never to a single process: the target is negative, the process group
    of a job, or it is 0, and then the signal is [SIGCONT].  [SIGINT] and
    [SIGTSTP] go to a process group of a job only. *)
Theorem reachable_signals_to_groups (verbose : bool) (sh : shell) :
  reachable verbose sh -> Forall group_signal (trace sh).
Proof.
  intros Hreach.
  assert (Hinv : Forall group_signal (trace sh) /\
    (forall argv0 job p, at_pc sh = BgfgKill argv0 job p -> 0 <= p));
    [|by destruct Hinv].
  revert sh Hreach. apply rtc_ind_r; [done|].
  intros sh sh' Hreach Hstep IH.
  eapply group_signal_step; [done | | done].
  by apply (reachable_table verbose).
Qed.

Lemma reachable_signals_to_groups_witness :
  Forall group_signal (trace race_9).
Proof.
  apply (reachable_signals_to_groups false race_9). apply race_steps.
Defined.

(** * The [fg] command without interruption; lines and their last character *)

Lemma waitfg_returned_table p ws jobs jobs' out :
  1 <= p -> waitfg p ws jobs = (Returned, jobs', out) ->
  (getjobpid jobs p = None /\ jobs' = jobs) \/
  exists job, getjobpid jobs p = Some job /\
    (jobs' = alter (set_state ST) job jobs \/ jobs' = <[job := clearjob]> jobs).
Proof.
  intros Hp. unfold waitfg. destruct (Z.ltb_spec p 1); [lia|].
  revert jobs' out. induction ws as [|[wpid status] ws IH]; intros jobs' out;
    cbn [waitfg_loop]; [done|].
  pose proof (waitfg_body_table p wpid status jobs) as Hbody.
  destruct (waitfg_body p wpid status jobs) as [[[o1|] jobs1] out1].
  - intros [= -> <- <-]. by destruct Hbody as [_ Hbody].
  - destruct Hbody as [-> ->].
    destruct (waitfg_loop p ws jobs) as [[o2 jobs2] out2].
    intros [= -> <- <-]. by eapply IH.
Qed.

(** X21.  Run without a handler in between, [do_bgfg] keeps the table
    free of foreground slots: on a well-formed table with no slot in state
    [FG], when [do_bgfg] returns, for [bg] or for [fg], after a rejection
    or after the wait, no slot is in state [FG]. *)
Theorem do_bgfg_leaves_no_foreground_slot
    (argv0 : string) (args : list string) (kill_ret : Z) (ws : list (Z * Z))
    (jobs jobs' : list job_t) (out : list event) :
  Forall slot_ok jobs -> unique_pids jobs ->
  (forall k j, jobs !! k = Some j -> state j <> FG) ->
  do_bgfg argv0 args kill_ret ws jobs = (Returned, jobs', out) ->
  forall k j, jobs' !! k = Some j -> state j <> FG.
Proof.
  intros Hok Hu Hno. unfold do_bgfg.
  destruct (do_bgfg_lookup argv0 args jobs) as [msg | job p] eqn:Hlook;
    [by intros [= <- <-]|].
  destruct (kill_ret <? 0); [done|].
  destruct (do_bgfg_lookup_live _ _ _ _ _ Hok Hlook) as (j0 & Hl0 & Hpid0).
  unfold do_bgfg_setstate.
  destruct (String.eqb argv0 "bg"); [|destruct (String.eqb argv0 "fg")].
  - intros [= <- <-] k j [[_ Hk] | (_ & j1 & _ & ->)]%lookup_alter_state;
      [by eapply Hno | done].
  - set (jobs1 := alter (set_state FG) job jobs).
    assert (Hl1 : jobs1 !! job = Some (set_state FG j0)).
    { unfold jobs1. by rewrite list_lookup_alter_eq, Hl0. }
    rewrite (deref_lookup _ _ _ Hl1). cbn [set_state pid].
    assert (Hjob : getjobpid jobs1 (pid j0) = Some job).
    { apply getjobpid_index. split_and!; [done | by eauto |].
      intros k j' Hk Hlt Hsame. unfold jobs1 in Hk.
      rewrite list_lookup_alter_ne in Hk by lia.
      assert (k = job); [|lia].
      apply (Hu k job j' j0); unfold live; [done | done | lia | lia | done]. }
    destruct (waitfg (pid j0) ws jobs1) as [[o jobs2] out2] eqn:Hwait.
    intros [= -> <- <-].
    destruct (waitfg_returned_table _ _ _ _ _ Hpid0 Hwait)
      as [[Hnone _] | (job' & Hjob' & Hwrite)]; [congruence|].
    assert (job' = job) as -> by congruence.
    intros k j Hk. destruct (decide (k = job)) as [-> | Hne].
    + destruct Hwrite as [-> | ->].
      * rewrite list_lookup_alter_eq, Hl1 in Hk. by injection Hk as <-.
      * apply list_lookup_insert_Some in Hk as [(_ & <- & _) | [? _]]; done.
    + eapply (Hno k). destruct Hwrite as [-> | ->].
      * rewrite list_lookup_alter_ne in Hk by done. unfold jobs1 in Hk.
        by rewrite list_lookup_alter_ne in Hk.
      * rewrite list_lookup_insert_ne in Hk by done. unfold jobs1 in Hk.
        by rewrite list_lookup_alter_ne in Hk.
  - intros [= <- <-]. exact Hno.
Qed.

Lemma do_bgfg_leaves_no_foreground_slot_witness :
  Forall (fun j => state j <> FG) (alter (set_state ST) 0%nat one_job).
Proof.
  apply Forall_lookup.
  apply (do_bgfg_leaves_no_foreground_slot "fg" ["%1"] 0 [(100, 5247)]
           one_job (alter (set_state ST) 0%nat one_job)
           [Kill (-100) SIGCONT;
            Printf ("Job [1] (100) stopped by signal 20" +:+ nl)]).
  - apply (slots_ok_apply false initjobs (Register 100 BG ("sleep 1" +:+ nl))).
    apply slots_ok_init.
  - apply (unique_pids_apply false initjobs
             (Register 100 BG ("sleep 1" +:+ nl))).
    + reflexivity.
    + apply unique_by_init.
  - apply Forall_lookup. apply (bool_decide_unpack _). vm_compute. reflexivity.
  - by vm_compute.
Defined.

(** X22.  An empty line is ignored: for a line of blanks only, whatever
    its last character, [eval] returns before [builtin_cmd] and [fork]
    with the shell as it was. *)
Theorem eval_ignores_blank_line
    (verbose : bool) (n : nat) (c : ascii) (child : Z) (sh : shell) :
  eval verbose (spaces n +:+ String c "") child sh = sh.
Proof.
  unfold eval.
  rewrite (parseline_render [] (spaces n +:+ String c "") (spaces n +:+ " "));
    [|done | by rewrite replace_last_app].
  cbn [fmap list_fmap app].
  destruct (String.length (spaces n +:+ String c "")) as [|fuel]; [done|].
  cbn [parse_args]. by rewrite skip_spaces_spaces.
Qed.

(** X23.  [parseline] overwrites the last character of the line with a
    blank without looking at it: two lines that differ in their last
    character only have the same arguments.  A line that does not end in
    a newline loses its last character. *)
Theorem parseline_drops_last_character (s : string) (c d : ascii) :
  parseline (s +:+ String c "") = parseline (s +:+ String d "") /\
  parseline ("ls -l" +:+ nl) = ["ls"; "-l"] /\
  parseline "ls -l" = ["ls"; "-"].
Proof.
  split; [|by vm_compute]. unfold parseline.
  by rewrite !string_app_length, !replace_last_app.
Qed.

(** X24.  Registration undone by removal: on a table whose free slots
    are cleared slots, after [addjob] has succeeded for a pid that no live
    job held, [deletejob] of that pid gives back the table as it was
    before the registration. *)
Theorem addjob_then_deletejob
    (verbose : bool) (jobs jobs' : list job_t) (p st : Z) (cmd : string)
    (out : list event) :
  Forall (fun j => pid j = 0 -> j = clearjob) jobs ->
  pid_unused jobs p = true ->
  addjob verbose jobs p st cmd = (1, jobs', out) ->
  deletejob jobs' p = (1, jobs).
Proof.
  intros Hfree Hfresh Hadd.
  destruct (addjob_result verbose jobs p st cmd)
    as [[out' E] | (Hp & _ & i & free & out' & Hfind & E)];
    rewrite E in Hadd; [done|]. injection Hadd as <- <-.
  apply list_find_Some in Hfind as (Hi & Hpid & Hfirst).
  assert (Hjob : getjobpid (<[i := Job p (freejid jobs) st cmd]> jobs) p =
                 Some i).
  { apply getjobpid_index. split_and!; [done | |].
    - exists (Job p (freejid jobs) st cmd). split; [|done].
      apply list_lookup_insert_eq. by eapply lookup_lt_Some.
    - intros k j' Hk Hlt. rewrite list_lookup_insert_ne in Hk by lia.
      eapply pid_unused_spec; [done | by eapply list_elem_of_lookup_2 |].
      by eapply Hfirst. }
  destruct (deletejob_getjobpid _ _ _ Hjob) as [-> _]. f_equal.
  rewrite list_insert_insert_eq. apply list_insert_id.
  rewrite Forall_lookup in Hfree. by rewrite <- (Hfree _ _ Hi Hpid).
Qed.

Lemma addjob_then_deletejob_witness : deletejob one_job 100 = (1, initjobs).
Proof.
  apply (addjob_then_deletejob false initjobs one_job 100 BG
           ("sleep 1" +:+ nl) []).
  - apply Forall_forall. by intros j [-> _]%elem_of_replicate.
  - reflexivity.
  - reflexivity.
Defined.

(** * Arguments that [do_bgfg] takes for a job *)

(** C5 (fails on the code).  [do_bgfg] reads its argument with [atoi],
    which stops at the first character that is no digit and wraps around
    at 32 bits.  With job 1 (pid 100) stopped, [bg -4294967196] and
    [bg %1abc], whose arguments are no positive integers, and
    [bg 4294967396], a positive integer that is the pid of no job, are
    not rejected: each sends [SIGCONT] to the group of pid 100 and puts
    job 1 in state [BG]. *)
Theorem bgfg_accepts_malformed_references :
  parse_reference "-4294967196" = None /\
  parse_reference "%1abc" = None /\
  parse_reference "4294967396" = Some (ByPid 4294967396) /\
  ~ names_live_job stopped_job (ByPid 4294967396) /\
  do_bgfg "bg" ["-4294967196"] 0 [] stopped_job =
    (Returned, one_job,
     [Kill (-100) SIGCONT; Printf ("[1] (100) sleep 1" +:+ nl)]) /\
  do_bgfg "bg" ["%1abc"] 0 [] stopped_job =
    (Returned, one_job,
     [Kill (-100) SIGCONT; Printf ("[1] (100) sleep 1" +:+ nl)]) /\
  do_bgfg "bg" ["4294967396"] 0 [] stopped_job =
    (Returned, one_job,
     [Kill (-100) SIGCONT; Printf ("[1] (100) sleep 1" +:+ nl)]) /\
  one_job <> stopped_job.
Proof.
  split_and!; try (vm_compute; reflexivity).
  - intros (j & Hj & _ & Hpid).
    assert (Hall : Forall (fun j => pid j <> 4294967396) stopped_job)
      by (apply (bool_decide_unpack _); vm_compute; reflexivity).
    rewrite Forall_forall in Hall. by destruct (Hall j Hj).
  - intros Heq. by apply (f_equal (fun jobs => state <$> jobs !! 0%nat)) in Heq.
Qed.

(** * The relay handlers in the states that the shell reaches *)

Lemma front_steps : reachable false front_4.
Proof.
  unfold reachable.
  eapply rtc_l; [apply (step_eval false false boot ("sleep 1" +:+ nl) 100);
                 [reflexivity | by vm_compute | by right; vm_compute] |].
  eapply rtc_l; [apply (step_eval false false front_0 ("fg %1" +:+ nl) (-1));
                 [reflexivity | by vm_compute | by left] |].
  eapply rtc_l; [apply (step_bgfg_pid false false front_1 "fg" 0);
                 reflexivity |].
  eapply rtc_l; [apply (step_bgfg_kill false false front_2 "fg" 0 100 0);
                 reflexivity |].
  eapply rtc_l; [apply (step_bgfg_state false false front_3 "fg" 0);
                 reflexivity |].
  apply rtc_refl.
Qed.

(** C6.  In every state that the shell reaches, the effect of
    [sigtstp_handler] on the table is idempotent: the table after two runs
    in succession is the table after one.  The run is no idle one: when
    [fgpid] finds a job, the handler marks the job in state [FG], and no
    other slot, as stopped. *)
Theorem sigtstp_twice_same_table (verbose : bool) (sh : shell) :
  reachable verbose sh ->
  fst (sigtstp_handler (fst (sigtstp_handler (tbl sh)))) =
    fst (sigtstp_handler (tbl sh)) /\
  (forall i j,
     tbl sh !! i = Some j -> state j = FG -> pid j <> 0 ->
     fgpid (tbl sh) <> 0 ->
     fst (sigtstp_handler (tbl sh)) = alter (set_state ST) i (tbl sh)).
Proof.
  intros Hreach. pose proof (reachable_one_fg_job _ _ Hreach) as Hone.
  destruct (reachable_table _ _ Hreach) as (_ & Hok & Hu).
  split; [by apply sigtstp_twice_one_fg_job|].
  intros i j Hl Hfg Hlive Hnz.
  destruct (fgpid_nonzero _ Hnz) as (g & j' & Hg & Hfg' & Hpid').
  assert (g = i) as ->.
  { eapply (count_le_1_unique (fun j => state j = FG /\ pid j <> 0));
      [exact Hone | exact Hg | exact Hl | | done].
    split; [done | congruence]. }
  assert (j' = j) as -> by congruence.
  rewrite Forall_lookup in Hok.
  assert (Hpos : 1 <= pid j) by (destruct (Hok _ _ Hl) as [[? _] | [? _]]; lia).
  assert (Hjob : getjobpid (tbl sh) (pid j) = Some i).
  { apply getjobpid_Some. split; [done|]. exists j. apply list_find_Some.
    split_and!; [done.. |]. intros k j0 Hk Hlt Hsame.
    assert (k = i); [|lia].
    apply (Hu k i j0 j); unfold live; [done | done | lia | lia | done]. }
  unfold sigtstp_handler. rewrite <- Hpid', Hjob.
  by destruct (Z.eqb_spec (pid j) 0).
Qed.

Lemma sigtstp_twice_same_table_witness :
  fst (sigtstp_handler (fst (sigtstp_handler (tbl front_4)))) =
    fst (sigtstp_handler (tbl front_4)) /\
  fst (sigtstp_handler (tbl front_4)) = stopped_job.
Proof.
  destruct (sigtstp_twice_same_table false front_4 front_steps) as [Htwice Hst].
  split; [exact Htwice|].
  apply (Hst 0%nat (Job 100 1 FG ("sleep 1" +:+ nl))); by vm_compute.
Defined.

(** C7 (fails on the code).  [sigint_handler] writes to no slot, whatever
    the table.  But in the state that the run [race_9] ends in, the shell
    waits for job 2 (pid 101), which is in state [FG], SIGINT is
    deliverable, and the handler sends nothing: [fgpid] returns the pid 0
    of the cleared slot in state [FG] in front of it. *)
Theorem sigint_skips_foreground_job :
  (forall jobs, fst (sigint_handler jobs) = jobs) /\
  reachable false race_9 /\
  at_pc race_9 = Waitfg 101 false /\
  tbl race_9 !! 1%nat = Some (Job 101 2 FG ("sleep 100" +:+ nl)) /\
  deliverable false SIGINT race_9 /\
  fgpid (tbl race_9) = 0 /\
  sigint_handler (tbl race_9) = (tbl race_9, []) /\
  trace (deliver sigint_handler race_9) = trace race_9.
Proof.
  split_and!; [apply sigint_handler_table | apply race_steps
              | by vm_compute..].
Qed.

(** * Handlers between two reads of a slot *)

Lemma self_steps : reachable false self_4.
Proof.
  unfold reachable.
  eapply rtc_l; [apply (step_eval false false boot ("sleep 1" +:+ nl) 100);
                 [reflexivity | by vm_compute | by right; vm_compute] |].
  eapply rtc_l; [apply (step_eval false false self_0 ("fg %1" +:+ nl) (-1));
                 [reflexivity | by vm_compute | by left] |].
  eapply rtc_l; [apply (step_sigchld false false self_1 [(100, 0)]);
                 by vm_compute |].
  eapply rtc_l; [apply (step_bgfg_pid false false self_2 "fg" 0);
                 reflexivity |].
  eapply rtc_l; [apply (step_bgfg_kill false false self_3 "fg" 0 0 0);
                 reflexivity |].
  apply rtc_refl.
Qed.

(** X25.  [do_bgfg] can signal the shell's own process group.  Job 1 is
    launched and [fg %1] is typed; the job exits and [sigchld_handler]
    clears its slot between the return of [getjobjid] and the read of
    [job->pid]; the read gives pid 0, and [do_bgfg] calls
    [kill(0, SIGCONT)]. *)
Theorem fg_signals_own_group :
  reachable false self_4 /\
  at_pc self_1 = BgfgPid "fg" 0 /\
  tbl self_1 !! 0%nat = Some (Job 100 1 BG ("sleep 1" +:+ nl)) /\
  tbl self_2 !! 0%nat = Some clearjob /\
  at_pc self_3 = BgfgKill "fg" 0 0 /\
  last (trace self_4) = Some (Kill 0 SIGCONT).
Proof. split; [apply self_steps | by vm_compute]. Qed.

Lemma list_steps : reachable false list_5.
Proof.
  unfold reachable. etrans; [apply list_steps_1|].
  eapply rtc_l; [apply (step_listjobs false false list_1 0 AtPid);
                 reflexivity |].
  eapply rtc_l; [apply (step_listjobs false false list_2 0 AtHead);
                 reflexivity |].
  eapply rtc_l; [apply (step_sigchld false false list_3 [(100, 0)]);
                 by vm_compute |].
  eapply rtc_l; [apply (step_listjobs false false list_4 0 AtState);
                 reflexivity |].
  apply rtc_refl.
Qed.

(** X26.  [listjobs] can print its line about an internal error.  Job 1 is
    launched and [jobs] is typed; [listjobs] finds a pid in slot 0 and
    prints job id and pid; the job exits and [sigchld_handler] clears the
    slot before the [switch] reads the state, which is then [UNDEF], and
    the default branch prints the line. *)
Theorem listjobs_prints_internal_error :
  reachable false list_5 /\
  last (trace list_3) = Some (Printf "[1] (100) ") /\
  tbl list_4 !! 0%nat = Some clearjob /\
  last (trace list_5) =
    Some (Printf "listjobs: Internal error: job[0].state=0 ").
Proof. split; [apply list_steps | by vm_compute]. Qed.


